(** * movis / zunda: enumerations, subtitle writers and the timeline builder

    A shallow embedding of [movis/enum.py], [movis/subtitle.py], the
    subtitle, timeline and video-list functions of [zunda/engine.py] and
    the timeline builder of [zunda/main.py], with the properties the design
    document states about them and further properties of the code.  The frame cache of
    the design document has no code among these files; it is modelled from
    the document.

    Python values are modelled as follows: [int] as [Z], [str] as [string]
    (bytes), [float] as the kernel's binary64 [float], [dict] as [gmap],
    [list] as [list]; a function that can raise returns [exn + A]; a
    function that writes a file returns what it leaves in the file. *)

From Stdlib Require Import ZArith Zpower String Ascii List Bool Lia.
From Stdlib Require Import DecimalString DecimalPos Floats.
From Stdlib Require HexadecimalString.
From stdpp Require Import base tactics option list gmap strings.

Open Scope string_scope.
Open Scope list_scope.
Open Scope Z_scope.

(** ** Python exceptions

    Fallible Python code returns [exn + A]: [inl e] when it raises [e],
    [inr v] when it returns [v]. *)

Inductive exn : Type :=
| ValueError (msg : string)
| KeyError (key : string)
| IndexError (msg : string)
| AssertionError
| OverflowError (msg : string).

Definition raise {A} (e : exn) : exn + A := inl e.
Definition ret {A} (v : A) : exn + A := inr v.
Definition bind {A B} (c : exn + A) (k : A → exn + B) : exn + B :=
  match c with
  | inl e => inl e
  | inr v => k v
  end.

Notation "'let!' x ':=' c 'in' k" := (bind c (λ x, k))
  (at level 10, x name, c at level 100, k at level 200).

(** [d[k]] on a Python dict: the value, or [KeyError]. *)
Definition dict_getitem {V} (d : gmap string V) (k : string) : exn + V :=
  match d !! k with
  | Some v => ret v
  | None => raise (KeyError k)
  end.

(** [k in d] on a Python dict. *)
Definition dict_contains {V} (d : gmap string V) (k : string) : bool :=
  bool_decide (is_Some (d !! k)).

(** ** Python strings and integers *)

(** [str(n)] for an [int]. *)
Definition str_int (n : Z) : string := NilEmpty.string_of_int (Z.to_int n).

(** [c.lower()] on one ASCII character. *)
Definition ascii_lower (c : ascii) : ascii :=
  let n := N_of_ascii c in
  if ((65 <=? n) && (n <=? 90))%N then ascii_of_N (n + 32) else c.

(** [s.lower()], for ASCII strings. *)
Fixpoint lower (s : string) : string :=
  match s with
  | EmptyString => EmptyString
  | String c s' => String (ascii_lower c) (lower s')
  end.

(** A Python number: an [int] or a [float]. *)
Inductive number : Type :=
| Int (n : Z)
| Float (x : float).

(** ** movis/enum.py *)

Module CacheType.

Inductive t := COMPOSITION | LAYER.

Definition value (c : t) : Z :=
  match c with COMPOSITION => 0 | LAYER => 1 end.

End CacheType.

Module AttributeType.

Inductive t := SCALAR | VECTOR2D | VECTOR3D | ANGLE | COLOR.

#[global] Instance eq_dec : EqDecision t.
Proof. solve_decision. Defined.

Definition value (a : t) : Z :=
  match a with
  | SCALAR => 0 | VECTOR2D => 1 | VECTOR3D => 2 | ANGLE => 3 | COLOR => 4
  end.

Definition name (a : t) : string :=
  match a with
  | SCALAR => "SCALAR" | VECTOR2D => "VECTOR2D" | VECTOR3D => "VECTOR3D"
  | ANGLE => "ANGLE" | COLOR => "COLOR"
  end.

(** The members in definition order, as [list(AttributeType)] gives them. *)
Definition members : list t := [SCALAR; VECTOR2D; VECTOR3D; ANGLE; COLOR].

Definition from_string (s : string) : exn + t :=
  if String.eqb s "scalar" then ret SCALAR
  else if String.eqb s "vector2d" then ret VECTOR2D
  else if String.eqb s "vector3d" then ret VECTOR3D
  else if String.eqb s "angle" then ret ANGLE
  else raise (ValueError ("Unknown attribute type: " +:+ s)).

End AttributeType.

Module MotionType.

Inductive t :=
| LINEAR | EASE_IN | EASE_OUT | EASE_IN_OUT
| EASE_IN2 | EASE_IN3 | EASE_IN4 | EASE_IN5 | EASE_IN6 | EASE_IN7
| EASE_IN8 | EASE_IN9 | EASE_IN10 | EASE_IN12 | EASE_IN14 | EASE_IN16
| EASE_IN18 | EASE_IN20 | EASE_IN25 | EASE_IN30 | EASE_IN35
| EASE_OUT2 | EASE_OUT3 | EASE_OUT4 | EASE_OUT5 | EASE_OUT6 | EASE_OUT7
| EASE_OUT8 | EASE_OUT9 | EASE_OUT10 | EASE_OUT12 | EASE_OUT14 | EASE_OUT16
| EASE_OUT18 | EASE_OUT20 | EASE_OUT25 | EASE_OUT30 | EASE_OUT35
| EASE_IN_OUT2 | EASE_IN_OUT3 | EASE_IN_OUT4 | EASE_IN_OUT5 | EASE_IN_OUT6
| EASE_IN_OUT7 | EASE_IN_OUT8 | EASE_IN_OUT9 | EASE_IN_OUT10 | EASE_IN_OUT12
| EASE_IN_OUT14 | EASE_IN_OUT16 | EASE_IN_OUT18 | EASE_IN_OUT20
| EASE_IN_OUT25 | EASE_IN_OUT30 | EASE_IN_OUT35.

#[global] Instance eq_dec : EqDecision t.
Proof. solve_decision. Defined.

Definition value (m : t) : Z :=
  match m with
  | LINEAR => 0 | EASE_IN => 1 | EASE_OUT => 2 | EASE_IN_OUT => 3
  | EASE_IN2 => 102 | EASE_IN3 => 103 | EASE_IN4 => 104 | EASE_IN5 => 105
  | EASE_IN6 => 106 | EASE_IN7 => 107 | EASE_IN8 => 108 | EASE_IN9 => 109
  | EASE_IN10 => 110 | EASE_IN12 => 112 | EASE_IN14 => 114
  | EASE_IN16 => 116 | EASE_IN18 => 118 | EASE_IN20 => 120
  | EASE_IN25 => 125 | EASE_IN30 => 130 | EASE_IN35 => 135
  | EASE_OUT2 => 202 | EASE_OUT3 => 203 | EASE_OUT4 => 204
  | EASE_OUT5 => 205 | EASE_OUT6 => 206 | EASE_OUT7 => 207
  | EASE_OUT8 => 208 | EASE_OUT9 => 209 | EASE_OUT10 => 210
  | EASE_OUT12 => 212 | EASE_OUT14 => 214 | EASE_OUT16 => 216
  | EASE_OUT18 => 218 | EASE_OUT20 => 220 | EASE_OUT25 => 225
  | EASE_OUT30 => 230 | EASE_OUT35 => 235
  | EASE_IN_OUT2 => 302 | EASE_IN_OUT3 => 303 | EASE_IN_OUT4 => 304
  | EASE_IN_OUT5 => 305 | EASE_IN_OUT6 => 306 | EASE_IN_OUT7 => 307
  | EASE_IN_OUT8 => 308 | EASE_IN_OUT9 => 309 | EASE_IN_OUT10 => 310
  | EASE_IN_OUT12 => 312 | EASE_IN_OUT14 => 314 | EASE_IN_OUT16 => 316
  | EASE_IN_OUT18 => 318 | EASE_IN_OUT20 => 320 | EASE_IN_OUT25 => 325
  | EASE_IN_OUT30 => 330 | EASE_IN_OUT35 => 335
  end.

Definition name (m : t) : string :=
  match m with
  | LINEAR => "LINEAR" | EASE_IN => "EASE_IN" | EASE_OUT => "EASE_OUT"
  | EASE_IN_OUT => "EASE_IN_OUT"
  | EASE_IN2 => "EASE_IN2" | EASE_IN3 => "EASE_IN3" | EASE_IN4 => "EASE_IN4"
  | EASE_IN5 => "EASE_IN5" | EASE_IN6 => "EASE_IN6" | EASE_IN7 => "EASE_IN7"
  | EASE_IN8 => "EASE_IN8" | EASE_IN9 => "EASE_IN9"
  | EASE_IN10 => "EASE_IN10" | EASE_IN12 => "EASE_IN12"
  | EASE_IN14 => "EASE_IN14" | EASE_IN16 => "EASE_IN16"
  | EASE_IN18 => "EASE_IN18" | EASE_IN20 => "EASE_IN20"
  | EASE_IN25 => "EASE_IN25" | EASE_IN30 => "EASE_IN30"
  | EASE_IN35 => "EASE_IN35"
  | EASE_OUT2 => "EASE_OUT2" | EASE_OUT3 => "EASE_OUT3"
  | EASE_OUT4 => "EASE_OUT4" | EASE_OUT5 => "EASE_OUT5"
  | EASE_OUT6 => "EASE_OUT6" | EASE_OUT7 => "EASE_OUT7"
  | EASE_OUT8 => "EASE_OUT8" | EASE_OUT9 => "EASE_OUT9"
  | EASE_OUT10 => "EASE_OUT10" | EASE_OUT12 => "EASE_OUT12"
  | EASE_OUT14 => "EASE_OUT14" | EASE_OUT16 => "EASE_OUT16"
  | EASE_OUT18 => "EASE_OUT18" | EASE_OUT20 => "EASE_OUT20"
  | EASE_OUT25 => "EASE_OUT25" | EASE_OUT30 => "EASE_OUT30"
  | EASE_OUT35 => "EASE_OUT35"
  | EASE_IN_OUT2 => "EASE_IN_OUT2" | EASE_IN_OUT3 => "EASE_IN_OUT3"
  | EASE_IN_OUT4 => "EASE_IN_OUT4" | EASE_IN_OUT5 => "EASE_IN_OUT5"
  | EASE_IN_OUT6 => "EASE_IN_OUT6" | EASE_IN_OUT7 => "EASE_IN_OUT7"
  | EASE_IN_OUT8 => "EASE_IN_OUT8" | EASE_IN_OUT9 => "EASE_IN_OUT9"
  | EASE_IN_OUT10 => "EASE_IN_OUT10" | EASE_IN_OUT12 => "EASE_IN_OUT12"
  | EASE_IN_OUT14 => "EASE_IN_OUT14" | EASE_IN_OUT16 => "EASE_IN_OUT16"
  | EASE_IN_OUT18 => "EASE_IN_OUT18" | EASE_IN_OUT20 => "EASE_IN_OUT20"
  | EASE_IN_OUT25 => "EASE_IN_OUT25" | EASE_IN_OUT30 => "EASE_IN_OUT30"
  | EASE_IN_OUT35 => "EASE_IN_OUT35"
  end.

(** The literal of [STRING_TO_MOTION_TYPE], in source order. *)
Definition STRING_TO_MOTION_TYPE_items : list (string * t) :=
  [ ("linear", LINEAR); ("ease_in", EASE_IN); ("ease_out", EASE_OUT);
    ("ease_in_out", EASE_IN_OUT);
    ("ease_in2", EASE_IN2); ("ease_in3", EASE_IN3); ("ease_in4", EASE_IN4);
    ("ease_in5", EASE_IN5); ("ease_in6", EASE_IN6); ("ease_in7", EASE_IN7);
    ("ease_in8", EASE_IN8); ("ease_in9", EASE_IN9);
    ("ease_in10", EASE_IN10); ("ease_in12", EASE_IN12);
    ("ease_in14", EASE_IN14); ("ease_in16", EASE_IN16);
    ("ease_in18", EASE_IN18); ("ease_in20", EASE_IN20);
    ("ease_in25", EASE_IN25); ("ease_in30", EASE_IN30);
    ("ease_in35", EASE_IN35);
    ("ease_out2", EASE_OUT2); ("ease_out3", EASE_OUT3);
    ("ease_out4", EASE_OUT4); ("ease_out5", EASE_OUT5);
    ("ease_out6", EASE_OUT6); ("ease_out7", EASE_OUT7);
    ("ease_out8", EASE_OUT8); ("ease_out9", EASE_OUT9);
    ("ease_out10", EASE_OUT10); ("ease_out12", EASE_OUT12);
    ("ease_out14", EASE_OUT14); ("ease_out16", EASE_OUT16);
    ("ease_out18", EASE_OUT18); ("ease_out20", EASE_OUT20);
    ("ease_out25", EASE_OUT25); ("ease_out30", EASE_OUT30);
    ("ease_out35", EASE_OUT35);
    ("ease_in_out2", EASE_IN_OUT2); ("ease_in_out3", EASE_IN_OUT3);
    ("ease_in_out4", EASE_IN_OUT4); ("ease_in_out5", EASE_IN_OUT5);
    ("ease_in_out6", EASE_IN_OUT6); ("ease_in_out7", EASE_IN_OUT7);
    ("ease_in_out8", EASE_IN_OUT8); ("ease_in_out9", EASE_IN_OUT9);
    ("ease_in_out10", EASE_IN_OUT10); ("ease_in_out12", EASE_IN_OUT12);
    ("ease_in_out14", EASE_IN_OUT14); ("ease_in_out16", EASE_IN_OUT16);
    ("ease_in_out18", EASE_IN_OUT18); ("ease_in_out20", EASE_IN_OUT20);
    ("ease_in_out25", EASE_IN_OUT25); ("ease_in_out30", EASE_IN_OUT30);
    ("ease_in_out35", EASE_IN_OUT35) ].

Definition STRING_TO_MOTION_TYPE : gmap string t :=
  list_to_map STRING_TO_MOTION_TYPE_items.

Definition from_string (s : string) : exn + t :=
  if dict_contains STRING_TO_MOTION_TYPE s
  then dict_getitem STRING_TO_MOTION_TYPE s
  else raise (ValueError ("Unknown motion type: " +:+ s)).

(** The members in definition order, as [list(MotionType)] gives them. *)
Definition members : list t :=
  [ LINEAR; EASE_IN; EASE_OUT; EASE_IN_OUT;
    EASE_IN2; EASE_IN3; EASE_IN4; EASE_IN5; EASE_IN6; EASE_IN7;
    EASE_IN8; EASE_IN9; EASE_IN10; EASE_IN12; EASE_IN14; EASE_IN16;
    EASE_IN18; EASE_IN20; EASE_IN25; EASE_IN30; EASE_IN35;
    EASE_OUT2; EASE_OUT3; EASE_OUT4; EASE_OUT5; EASE_OUT6; EASE_OUT7;
    EASE_OUT8; EASE_OUT9; EASE_OUT10; EASE_OUT12; EASE_OUT14; EASE_OUT16;
    EASE_OUT18; EASE_OUT20; EASE_OUT25; EASE_OUT30; EASE_OUT35;
    EASE_IN_OUT2; EASE_IN_OUT3; EASE_IN_OUT4; EASE_IN_OUT5; EASE_IN_OUT6;
    EASE_IN_OUT7; EASE_IN_OUT8; EASE_IN_OUT9; EASE_IN_OUT10; EASE_IN_OUT12;
    EASE_IN_OUT14; EASE_IN_OUT16; EASE_IN_OUT18; EASE_IN_OUT20;
    EASE_IN_OUT25; EASE_IN_OUT30; EASE_IN_OUT35 ].

(** The powers at which the source declares the three easing families. *)
Definition powers : list Z :=
  [2; 3; 4; 5; 6; 7; 8; 9; 10; 12; 14; 16; 18; 20; 25; 30; 35].

(** The three easing families are available at power [p]: for each
    family [from_string] accepts the identifier with suffix [p] and
    returns the member whose name carries the same suffix. *)
Definition ease_available (p : Z) : Prop :=
  ∃ a b c,
    from_string ("ease_in" +:+ str_int p) = inr a ∧
    name a = "EASE_IN" +:+ str_int p ∧
    from_string ("ease_out" +:+ str_int p) = inr b ∧
    name b = "EASE_OUT" +:+ str_int p ∧
    from_string ("ease_in_out" +:+ str_int p) = inr c ∧
    name c = "EASE_IN_OUT" +:+ str_int p.

End MotionType.

Module BlendingMode.

Inductive t :=
| NORMAL | MULTIPLY | SCREEN | OVERLAY | DARKEN | LIGHTEN
| COLOR_DODGE | COLOR_BURN | LINEAR_DODGE | LINEAR_BURN
| HARD_LIGHT | SOFT_LIGHT | VIVID_LIGHT | LINEAR_LIGHT | PIN_LIGHT
| DIFFERENCE | EXCLUSION | SUBTRACT.

#[global] Instance eq_dec : EqDecision t.
Proof. solve_decision. Defined.

Definition value (b : t) : Z :=
  match b with
  | NORMAL => 0 | MULTIPLY => 1 | SCREEN => 2 | OVERLAY => 3
  | DARKEN => 4 | LIGHTEN => 5 | COLOR_DODGE => 6 | COLOR_BURN => 7
  | LINEAR_DODGE => 8 | LINEAR_BURN => 9 | HARD_LIGHT => 10
  | SOFT_LIGHT => 11 | VIVID_LIGHT => 12 | LINEAR_LIGHT => 13
  | PIN_LIGHT => 14 | DIFFERENCE => 15 | EXCLUSION => 16 | SUBTRACT => 17
  end.

Definition name (b : t) : string :=
  match b with
  | NORMAL => "NORMAL" | MULTIPLY => "MULTIPLY" | SCREEN => "SCREEN"
  | OVERLAY => "OVERLAY" | DARKEN => "DARKEN" | LIGHTEN => "LIGHTEN"
  | COLOR_DODGE => "COLOR_DODGE" | COLOR_BURN => "COLOR_BURN"
  | LINEAR_DODGE => "LINEAR_DODGE" | LINEAR_BURN => "LINEAR_BURN"
  | HARD_LIGHT => "HARD_LIGHT" | SOFT_LIGHT => "SOFT_LIGHT"
  | VIVID_LIGHT => "VIVID_LIGHT" | LINEAR_LIGHT => "LINEAR_LIGHT"
  | PIN_LIGHT => "PIN_LIGHT" | DIFFERENCE => "DIFFERENCE"
  | EXCLUSION => "EXCLUSION" | SUBTRACT => "SUBTRACT"
  end.

(** The members in definition order, as [list(BlendingMode)] gives them. *)
Definition members : list t :=
  [ NORMAL; MULTIPLY; SCREEN; OVERLAY; DARKEN; LIGHTEN;
    COLOR_DODGE; COLOR_BURN; LINEAR_DODGE; LINEAR_BURN;
    HARD_LIGHT; SOFT_LIGHT; VIVID_LIGHT; LINEAR_LIGHT; PIN_LIGHT;
    DIFFERENCE; EXCLUSION; SUBTRACT ].

(** The literal of [STRING_TO_BLENDING_MODE], in source order. *)
Definition STRING_TO_BLENDING_MODE_items : list (string * t) :=
  [ ("normal", NORMAL); ("multiply", MULTIPLY); ("screen", SCREEN);
    ("overlay", OVERLAY); ("darken", DARKEN); ("lighten", LIGHTEN);
    ("color_dodge", COLOR_DODGE); ("color_burn", COLOR_BURN);
    ("linear_dodge", LINEAR_DODGE); ("linear_burn", LINEAR_BURN);
    ("hard_light", HARD_LIGHT); ("soft_light", SOFT_LIGHT);
    ("vivid_light", VIVID_LIGHT); ("linear_light", LINEAR_LIGHT);
    ("pin_light", PIN_LIGHT); ("difference", DIFFERENCE);
    ("exclusion", EXCLUSION); ("subtract", SUBTRACT) ].

Definition STRING_TO_BLENDING_MODE : gmap string t :=
  list_to_map STRING_TO_BLENDING_MODE_items.

Definition from_string (s : string) : exn + t :=
  if dict_contains STRING_TO_BLENDING_MODE s
  then dict_getitem STRING_TO_BLENDING_MODE s
  else raise (ValueError ("Unknown blending mode: " +:+ s)).

End BlendingMode.

Module MatteMode.

Inductive t := NONE | ALPHA | LUMINANCE.

#[global] Instance eq_dec : EqDecision t.
Proof. solve_decision. Defined.

Definition value (m : t) : Z :=
  match m with NONE => 0 | ALPHA => 1 | LUMINANCE => 2 end.

Definition name (m : t) : string :=
  match m with
  | NONE => "NONE" | ALPHA => "ALPHA" | LUMINANCE => "LUMINANCE"
  end.

(** The members in definition order, as [list(MatteMode)] gives them. *)
Definition members : list t := [NONE; ALPHA; LUMINANCE].

(** The literal of [STRING_TO_MATTE_MODE], in source order. *)
Definition STRING_TO_MATTE_MODE_items : list (string * t) :=
  [ ("none", NONE); ("alpha", ALPHA); ("luminance", LUMINANCE) ].

Definition STRING_TO_MATTE_MODE : gmap string t :=
  list_to_map STRING_TO_MATTE_MODE_items.

Definition from_string (s : string) : exn + t :=
  if dict_contains STRING_TO_MATTE_MODE s
  then dict_getitem STRING_TO_MATTE_MODE s
  else raise (ValueError ("Unknown matte mode: " +:+ s)).

End MatteMode.

Module Direction.

Inductive t :=
| BOTTOM_LEFT | BOTTOM_CENTER | BOTTOM_RIGHT
| CENTER_LEFT | CENTER | CENTER_RIGHT
| TOP_LEFT | TOP_CENTER | TOP_RIGHT.

#[global] Instance eq_dec : EqDecision t.
Proof. solve_decision. Defined.

Definition value (d : t) : Z :=
  match d with
  | BOTTOM_LEFT => 1 | BOTTOM_CENTER => 2 | BOTTOM_RIGHT => 3
  | CENTER_LEFT => 4 | CENTER => 5 | CENTER_RIGHT => 6
  | TOP_LEFT => 7 | TOP_CENTER => 8 | TOP_RIGHT => 9
  end.

Definition name (d : t) : string :=
  match d with
  | BOTTOM_LEFT => "BOTTOM_LEFT" | BOTTOM_CENTER => "BOTTOM_CENTER"
  | BOTTOM_RIGHT => "BOTTOM_RIGHT"
  | CENTER_LEFT => "CENTER_LEFT" | CENTER => "CENTER"
  | CENTER_RIGHT => "CENTER_RIGHT"
  | TOP_LEFT => "TOP_LEFT" | TOP_CENTER => "TOP_CENTER"
  | TOP_RIGHT => "TOP_RIGHT"
  end.

(** The members in definition order, as [list(Direction)] gives them. *)
Definition members : list t :=
  [ BOTTOM_LEFT; BOTTOM_CENTER; BOTTOM_RIGHT;
    CENTER_LEFT; CENTER; CENTER_RIGHT;
    TOP_LEFT; TOP_CENTER; TOP_RIGHT ].

(** The literal of [STRING_TO_DIRECTION], in source order. *)
Definition STRING_TO_DIRECTION_items : list (string * t) :=
  [ ("bottom_left", BOTTOM_LEFT); ("bottom_center", BOTTOM_CENTER);
    ("bottom_right", BOTTOM_RIGHT);
    ("center_left", CENTER_LEFT); ("center", CENTER);
    ("center_right", CENTER_RIGHT);
    ("top_left", TOP_LEFT); ("top_center", TOP_CENTER);
    ("top_right", TOP_RIGHT) ].

Definition STRING_TO_DIRECTION : gmap string t :=
  list_to_map STRING_TO_DIRECTION_items.

Definition from_string (s : string) : exn + t :=
  if dict_contains STRING_TO_DIRECTION s
  then dict_getitem STRING_TO_DIRECTION s
  else raise (ValueError ("Unknown origin point: " +:+ s)).

(** [to_vector(d, size)], for a [size] of two floats.  The literal [0] is
    an [int]; [size[k] / 2] is a float division. *)
Definition to_vector (d : t) (size : float * float)
  : exn + (number * number) :=
  if bool_decide (d = BOTTOM_LEFT) then
    ret (Int 0, Float (snd size))
  else if bool_decide (d = BOTTOM_CENTER) then
    ret (Float (fst size / 2)%float, Float (snd size))
  else if bool_decide (d = BOTTOM_RIGHT) then
    ret (Float (fst size), Float (snd size))
  else if bool_decide (d = CENTER_LEFT) then
    ret (Int 0, Float (snd size / 2)%float)
  else if bool_decide (d = CENTER) then
    ret (Float (fst size / 2)%float, Float (snd size / 2)%float)
  else if bool_decide (d = CENTER_RIGHT) then
    ret (Float (fst size), Float (snd size / 2)%float)
  else if bool_decide (d = TOP_LEFT) then
    ret (Int 0, Int 0)
  else if bool_decide (d = TOP_CENTER) then
    ret (Float (fst size / 2)%float, Int 0)
  else if bool_decide (d = TOP_RIGHT) then
    ret (Float (fst size), Int 0)
  else raise (ValueError ("Unknown direction: Direction." +:+ name d)).

End Direction.

Module TextAlignment.

Inductive t := LEFT | CENTER | RIGHT.

#[global] Instance eq_dec : EqDecision t.
Proof. solve_decision. Defined.

Definition value (a : t) : Z :=
  match a with LEFT => 0 | CENTER => 1 | RIGHT => 2 end.

Definition name (a : t) : string :=
  match a with LEFT => "LEFT" | CENTER => "CENTER" | RIGHT => "RIGHT" end.

(** The members in definition order, as [list(TextAlignment)] gives them. *)
Definition members : list t := [LEFT; CENTER; RIGHT].

(** The literal of [STRING_TO_TEXT_ALIGNMENT], in source order. *)
Definition STRING_TO_TEXT_ALIGNMENT_items : list (string * t) :=
  [ ("left", LEFT); ("center", CENTER); ("right", RIGHT) ].

Definition STRING_TO_TEXT_ALIGNMENT : gmap string t :=
  list_to_map STRING_TO_TEXT_ALIGNMENT_items.

Definition from_string (s : string) : exn + t :=
  if dict_contains STRING_TO_TEXT_ALIGNMENT s
  then dict_getitem STRING_TO_TEXT_ALIGNMENT s
  else raise (ValueError ("Unknown text alignment: " +:+ s)).

End TextAlignment.

(** ** Python string operations used by the subtitle writers *)

(** [sep.join(l)]. *)
Fixpoint join (sep : string) (l : list string) : string :=
  match l with
  | [] => ""
  | [x] => x
  | x :: l' => x +:+ sep +:+ join sep l'
  end.

(** [s.split(sep)] for a separator of one character. *)
Fixpoint split_on (sep : ascii) (s : string) : list string :=
  match s with
  | EmptyString => [""]
  | String c s' =>
      if Ascii.eqb c sep then "" :: split_on sep s'
      else match split_on sep s' with
           | [] => [String c ""]
           | w :: ws => String c w :: ws
           end
  end.

(** [s.replace(old, new)]: every non-overlapping occurrence of [old],
    scanning from the left, becomes [new].  [skip] counts the characters of
    an occurrence that is being stepped over. *)
Fixpoint replace_from (old new : string) (skip : nat) (s : string) : string :=
  match s with
  | EmptyString => EmptyString
  | String c s' =>
      match skip with
      | S k => replace_from old new k s'
      | O =>
          if String.prefix old s
          then new +:+ replace_from old new (String.length old - 1) s'
          else String c (replace_from old new 0 s')
      end
  end.

(** With an empty [old], Python puts [new] before every character and at
    the end. *)
Fixpoint intersperse_all (new s : string) : string :=
  match s with
  | EmptyString => new
  | String c s' => new +:+ String c (intersperse_all new s')
  end.

Definition replace (old new s : string) : string :=
  match old with
  | EmptyString => intersperse_all new s
  | _ => replace_from old new 0 s
  end.

(** ["{:0wd}".format(n)]: the sign, then zeros up to width [w], then the
    decimal digits. *)
Definition format_0d (w : nat) (n : Z) : string :=
  let digits := str_int (Z.abs n) in
  let sign := if n <? 0 then "-" else "" in
  sign +:+ string_of_list_ascii
             (repeat "0"%char (w - String.length sign - String.length digits))
       +:+ digits.

(** The newline character. *)
Definition LF : string := String (ascii_of_nat 10) EmptyString.

(** The two characters backslash, n: the raw literal [r"\n"]. *)
Definition backslash_n : string := String (ascii_of_nat 92) "n".

(** [c] is one of the characters [0] to [9]. *)
Definition is_digit (c : ascii) : Prop :=
  (48 ≤ N_of_ascii c ≤ 57)%N.

(** [c not in s]. *)
Definition char_free (c : ascii) (s : string) : Prop :=
  c ∉ list_ascii_of_string s.

(** ** movis/subtitle.py *)

Record ASSStyleType := {
  name : string;
  font_name : string;
  font_size : Z;
  primary_color : string;
  secondary_color : string;
  outline_color : string;
  back_color : string;
  bold : bool;
  italic : bool;
  underline : bool;
  strike_out : bool;
  scale_x : Z;
  scale_y : Z;
  spacing : Z;
  angle : Z;
  border_style : Z;
  outline : Z;
  shadow : Z;
  alignment : Direction.t;
  margin_l : Z;
  margin_r : Z;
  margin_v : Z;
}.

(** [ASSStyleType()]: every field at its default. *)
Definition ASSStyleType_default : ASSStyleType := {|
  name := "Default";
  font_name := "Helvetica";
  font_size := 60;
  primary_color := "&Hffffff";
  secondary_color := "&Hffffff";
  outline_color := "&H0";
  back_color := "&H0";
  bold := false;
  italic := false;
  underline := false;
  strike_out := false;
  scale_x := 100;
  scale_y := 100;
  spacing := 0;
  angle := 0;
  border_style := 1;
  outline := 5;
  shadow := 0;
  alignment := Direction.BOTTOM_CENTER;
  margin_l := 10;
  margin_r := 10;
  margin_v := 30;
|}.

(** [s._replace(alignment=d)]. *)
Definition set_alignment (d : Direction.t) (s : ASSStyleType) : ASSStyleType := {|
  name := name s;
  font_name := font_name s;
  font_size := font_size s;
  primary_color := primary_color s;
  secondary_color := secondary_color s;
  outline_color := outline_color s;
  back_color := back_color s;
  bold := bold s;
  italic := italic s;
  underline := underline s;
  strike_out := strike_out s;
  scale_x := scale_x s;
  scale_y := scale_y s;
  spacing := spacing s;
  angle := angle s;
  border_style := border_style s;
  outline := outline s;
  shadow := shadow s;
  alignment := d;
  margin_l := margin_l s;
  margin_r := margin_r s;
  margin_v := margin_v s;
|}.

Definition _make_ass_style_header : string :=
  let format_str :=
    "Format: Name, Fontname, Fontsize, PrimaryColour, SecondaryColour, "
    +:+ "OutlineColour, BackColour, Bold, Italic, Underline, StrikeOut, "
    +:+ "ScaleX, ScaleY, Spacing, Angle, BorderStyle, "
    +:+ "Outline, Shadow, Alignment, MarginL, MarginR, MarginV, Encoding" in
  join LF ["[V4+ Styles]"; format_str].

(** [int(b)] for a [bool]. *)
Definition int_of_bool (b : bool) : Z := if b then 1 else 0.

Definition _make_ass_style (s : ASSStyleType) : string :=
  "Style: " +:+ name s +:+ "," +:+ font_name s +:+ ","
  +:+ str_int (font_size s) +:+ "," +:+ primary_color s +:+ ","
  +:+ secondary_color s +:+ ","
  +:+ outline_color s +:+ "," +:+ back_color s +:+ ","
  +:+ str_int (int_of_bool (bold s)) +:+ ","
  +:+ str_int (int_of_bool (italic s)) +:+ ","
  +:+ str_int (int_of_bool (underline s)) +:+ ","
  +:+ str_int (int_of_bool (strike_out s)) +:+ ","
  +:+ str_int (scale_x s) +:+ "," +:+ str_int (scale_y s) +:+ ","
  +:+ str_int (spacing s) +:+ "," +:+ str_int (angle s) +:+ ","
  +:+ str_int (border_style s) +:+ ","
  +:+ str_int (outline s) +:+ "," +:+ str_int (shadow s) +:+ ",2,"
  +:+ str_int (margin_l s) +:+ "," +:+ str_int (margin_r s) +:+ ","
  +:+ str_int (margin_v s) +:+ ",1".

(** ** Python floats

    A Python [float] is an IEEE 754 binary64 number: the kernel's [float].
    Division, multiplication and addition are the primitive operations;
    [%] and [int()] are defined on the decoded value [Prim2SF x]. *)

(** C's [fmod]: the exact remainder of [x] by [y], with the sign of [x]. *)
Definition SFfmod (x y : spec_float) : spec_float :=
  match x, y with
  | S754_nan, _ | _, S754_nan => S754_nan
  | S754_infinity _, _ => S754_nan
  | _, S754_zero _ => S754_nan
  | _, S754_infinity _ => x
  | S754_zero _, S754_finite _ _ _ => x
  | S754_finite sx mx ex, S754_finite sy my ey =>
      let e := Z.min ex ey in
      let r := (Z.pos mx * 2 ^ (ex - e)) mod (Z.pos my * 2 ^ (ey - e)) in
      binary_normalize prec emax (cond_Zopp sx r) e sx
  end.

(** [copysign(0.0, y)]. *)
Definition copysign_zero (y : float) : float :=
  if get_sign y then neg_zero else zero.

(** [x % y] on floats, for [y] other than zero (CPython's [float_rem]):
    [fmod], moved by [y] when its sign differs from that of [y]. *)
Definition float_rem (x y : float) : float :=
  let m := SF2Prim (SFfmod (Prim2SF x) (Prim2SF y)) in
  if is_zero m then copysign_zero y
  else if xorb (y <? 0)%float (m <? 0)%float then (m + y)%float else m.

(** [int(x)] on a float: truncation towards zero. *)
Definition float_int (x : float) : exn + Z :=
  match Prim2SF x with
  | S754_nan => raise (ValueError "cannot convert float NaN to integer")
  | S754_infinity _ =>
      raise (OverflowError "cannot convert float infinity to integer")
  | S754_zero _ => ret 0
  | S754_finite s m e => ret (cond_Zopp s (Z.shiftl (Z.pos m) e))
  end.

(** ** movis/subtitle.py: the writers *)

(** What a writer leaves behind: the content of its destination file
    ([None] when the file was not opened) and the exception it raised, if
    any. *)
Record outcome := { written : option string; raised : option exn }.

(** [get_time] of [write_ass_file]. *)
Definition get_time (t : float) : exn + string :=
  let! h := float_int (t / 3600)%float in
  let! m := float_int (float_rem (t / 60)%float 60%float) in
  let! s := float_int (float_rem t 60%float) in
  let! c := float_int (float_rem t 1%float * 100)%float in
  ret (format_0d 2 h +:+ ":" +:+ format_0d 2 m +:+ ":" +:+ format_0d 2 s
       +:+ "." +:+ format_0d 2 c).

(** One [Dialogue] line: [line_template.format(...)]. *)
Definition dialogue_line (text0 text1 character text : string) : string :=
  "Dialogue: 0," +:+ text0 +:+ "," +:+ text1 +:+ "," +:+ character
  +:+ ",,0,0,0,," +:+ text.

(** The [header] f-string of [write_ass_file]. *)
Definition ass_header (size : Z * Z) (styles : list ASSStyleType) : string :=
  let ass_style_header := _make_ass_style_header in
  let ass_style_body := join LF (_make_ass_style <$> styles) in
  "[Script Info]" +:+ LF
  +:+ "; Script generated by FFmpeg/Lavc60.14.101" +:+ LF
  +:+ "ScriptType: v4.00+" +:+ LF
  +:+ "PlayResX: " +:+ str_int (fst size) +:+ LF
  +:+ "PlayResY: " +:+ str_int (snd size) +:+ LF
  +:+ "ScaledBorderAndShadow: yes" +:+ LF
  +:+ "YCbCr Matrix: None" +:+ LF
  +:+ LF
  +:+ ass_style_header +:+ LF
  +:+ ass_style_body +:+ LF
  +:+ LF
  +:+ "[Events]" +:+ LF
  +:+ "Format: Layer, Start, End, Style, Name, MarginL, MarginR, MarginV, Effect, Text"
  +:+ LF.

(** The loop of [write_ass_file] over
    [zip(start_times, end_times, characters, texts)], collecting [lines]. *)
Fixpoint ass_lines (rows : list (float * (float * (string * string))))
  : exn + list string :=
  match rows with
  | [] => ret []
  | (t0, (t1, (character, text))) :: rows' =>
      let! text0 := get_time t0 in
      let! text1 := get_time t1 in
      let x := dialogue_line text0 text1 character text in
      let! lines := ass_lines rows' in
      ret (x :: lines)
  end.

Definition write_ass_file (start_times end_times : list float)
    (texts : list string) (size : Z * Z)
    (characters : option (list string)) (styles : option (list ASSStyleType))
  : outcome :=
  if negb (bool_decide (length start_times = length end_times
                        ∧ length end_times = length texts))
  then {| written := None; raised := Some AssertionError |}
  else
    let characters :=
      match characters with
      | None => repeat "Default" (length texts)
      | Some cs => cs
      end in
    let styles :=
      match styles with
      | None => [ASSStyleType_default]
      | Some ss => ss
      end in
    let header := ass_header size styles in
    match ass_lines (zip start_times (zip end_times (zip characters texts))) with
    | inl e => {| written := None; raised := Some e |}
    | inr lines =>
        let body := join LF lines in
        {| written := Some (header +:+ body); raised := None |}
    end.

(** The timestamp line of an SRT cue. *)
Definition srt_time_line (start_time end_time : float) : exn + string :=
  let! h0 := float_int (start_time / 3600)%float in
  let! m0 := float_int (float_rem (start_time / 60)%float 60%float) in
  let! s0 := float_int (float_rem start_time 60%float) in
  let! ms0 := float_int (float_rem start_time 1%float * 1000)%float in
  let! h1 := float_int (end_time / 3600)%float in
  let! m1 := float_int (float_rem (end_time / 60)%float 60%float) in
  let! s1 := float_int (float_rem end_time 60%float) in
  let! ms1 := float_int (float_rem end_time 1%float * 1000)%float in
  ret (format_0d 2 h0 +:+ ":" +:+ format_0d 2 m0 +:+ ":" +:+ format_0d 2 s0
       +:+ "," +:+ format_0d 3 ms0 +:+ " --> "
       +:+ format_0d 2 h1 +:+ ":" +:+ format_0d 2 m1 +:+ ":" +:+ format_0d 2 s1
       +:+ "," +:+ format_0d 3 ms1 +:+ LF).

(** [enumerate(l)], counting from [i]. *)
Fixpoint enumerate_from {A} (i : Z) (l : list A) : list (Z * A) :=
  match l with
  | [] => []
  | x :: l' => (i, x) :: enumerate_from (i + 1) l'
  end.

(** The loop of [write_srt_file], threading the content written so far. *)
Fixpoint write_srt_loop (rows : list (Z * (float * (float * string))))
    (srt : string) : outcome :=
  match rows with
  | [] => {| written := Some srt; raised := None |}
  | (i, (start_time, (end_time, text))) :: rows' =>
      let srt := srt +:+ str_int (i + 1) +:+ LF in
      match srt_time_line start_time end_time with
      | inl e => {| written := Some srt; raised := Some e |}
      | inr line =>
          let srt := srt +:+ line in
          let cleaned_text := replace LF "" (replace backslash_n "" text) in
          let srt := srt +:+ (cleaned_text +:+ LF +:+ LF) in
          write_srt_loop rows' srt
      end
  end.

Definition write_srt_file (start_times end_times : list float)
    (texts : list string) : outcome :=
  if negb (bool_decide (length start_times = length end_times
                        ∧ length end_times = length texts))
  then {| written := None; raised := Some AssertionError |}
  else
    write_srt_loop
      (enumerate_from 0 (zip start_times (zip end_times texts))) "".

(** ** zunda/engine.py *)

(** A row of the timeline table ([timeline.csv] as a [DataFrame]). *)
Record timeline_row := {
  start_time : float;
  end_time : float;
  character : string;
  hash : string;
  text : string;
  slide : Z;
  status : string;
}.

(** The loop of [make_srt_file] over [timeline.iterrows()], threading the
    content written so far; the index [i] of a row is its position. *)
Fixpoint make_srt_loop (rows : list (Z * timeline_row)) (srt : string)
  : outcome :=
  match rows with
  | [] => {| written := Some srt; raised := None |}
  | (i, row) :: rows' =>
      let srt := srt +:+ str_int (i + 1) +:+ LF in
      match srt_time_line (start_time row) (end_time row) with
      | inl e => {| written := Some srt; raised := Some e |}
      | inr line =>
          let srt := srt +:+ line in
          let srt := srt +:+ (text row +:+ LF +:+ LF) in
          make_srt_loop rows' srt
      end
  end.

(** [make_srt_file], given the rows read from [timeline_path], with text
    cells that are read as strings ([read_csv.make_srt_file] below takes
    the text cells as pandas types them). *)
Definition make_srt_file (timeline : list timeline_row) : outcome :=
  make_srt_loop (enumerate_from 0 timeline) "".

(** [character_dict] of [make_timeline_file]. *)
Definition character_dict : gmap string string :=
  list_to_map [ ("四国めたん（ノーマル）", "metan");
                ("ずんだもん（ノーマル）", "zunda") ].

(** [l[i]] on a Python list, for [i >= 0]. *)
Definition list_getitem {A} (l : list A) (i : nat) : exn + A :=
  match l !! i with
  | Some x => ret x
  | None => raise (IndexError "list index out of range")
  end.

Section make_timeline_file.

(** What [make_timeline_file] reads from its environment: the duration of
    a wav file ([pydub]), the content of a text file, the SHA-1 prefix of a
    text ([hashlib]), the line breaking of a text ([MeCab]) and the file
    name without directory and extension ([os.path]). *)
Variable _get_audio_length : string → float.
Variable read_text : string → string.
Variable _get_hash_prefix : string → string.
Variable _insert_newlines : string → Z → string.
Variable filename_stem : string → string.

Variable max_length : Z.

(** The previous timeline, when [dst_timeline_path] exists: its rows as
    read back, with the hash, text and status cells read as strings and the
    slide cell as an integer.  (A table whose hash or text column pandas
    reads as numbers is outside this model.) *)
Variable prev_timeline : option (list timeline_row).

Definition transform_text (raw_text : string) : string :=
  if 0 <? max_length then _insert_newlines raw_text max_length else raw_text.

(** [get_extra_columns]: the text, slide and status of the row. *)
Definition get_extra_columns (text' : string) : string * Z * string :=
  let raw_text := text' in
  let row :=
    match prev_timeline with
    | Some prev =>
        let hash' := _get_hash_prefix text' in
        let filtered_tl := filter (λ r, hash r = hash') prev in
        match filtered_tl with
        | r :: _ => Some r
        | [] => None
        end
    | None => None
    end in
  match row with
  | Some r => (text r, slide r, status r)
  | None => (transform_text raw_text, 0, "n")
  end.

(** The loop over [zip(wav_files, txt_files)], from the running
    [start_time]. *)
Fixpoint timeline_loop (clips : list (string * string)) (start : float)
  : exn + list timeline_row :=
  match clips with
  | [] => ret []
  | (wav_file, txt_file) :: clips' =>
      let duration := _get_audio_length wav_file in
      let end_ := (start + duration)%float in
      let raw_text := read_text txt_file in
      let filename := filename_stem txt_file in
      let! character' := list_getitem (split_on "_" filename) 1 in
      let! name' := dict_getitem character_dict character' in
      let '(text', slide', status') := get_extra_columns raw_text in
      let dic := {| start_time := start; end_time := end_;
                    character := name'; hash := _get_hash_prefix raw_text;
                    text := text'; slide := slide'; status := status' |} in
      let! frame := timeline_loop clips' end_ in
      ret (dic :: frame)
  end.

(** [make_timeline_file]: the rows written to [dst_timeline_path]. *)
Definition make_timeline_file (wav_files txt_files : list string)
  : exn + list timeline_row :=
  timeline_loop (zip wav_files txt_files) 0%float.

(** A text file whose name yields a known character. *)
Definition known_character (txt_file : string) : Prop :=
  ∃ c n, split_on "_" (filename_stem txt_file) !! 1%nat = Some c
         ∧ character_dict !! c = Some n.

End make_timeline_file.

(** ** movis/subtitle.py: colours *)

(** [format(n, "x")] for an [int]: lowercase hexadecimal digits. *)
Definition hex_int (n : Z) : string :=
  HexadecimalString.NilEmpty.string_of_int (Z.to_hex_int n).

(** ["{:0wx}".format(n)]: the sign, then zeros up to width [w], then the
    hexadecimal digits. *)
Definition format_0x (w : nat) (n : Z) : string :=
  let digits := hex_int (Z.abs n) in
  let sign := if n <? 0 then "-" else "" in
  sign +:+ string_of_list_ascii
             (repeat "0"%char (w - String.length sign - String.length digits))
       +:+ digits.

Definition rgb_to_ass_color (rgb_array : list Z) : exn + string :=
  if bool_decide (length rgb_array = 3%nat) then
    let! x2 := list_getitem rgb_array 2 in
    let! x1 := list_getitem rgb_array 1 in
    let! x0 := list_getitem rgb_array 0 in
    ret ("&H" +:+ format_0x 2 x2 +:+ format_0x 2 x1 +:+ format_0x 2 x0)
  else if bool_decide (length rgb_array = 4%nat) then
    let! x3 := list_getitem rgb_array 3 in
    let! x2 := list_getitem rgb_array 2 in
    let! x1 := list_getitem rgb_array 1 in
    let! x0 := list_getitem rgb_array 0 in
    ret ("&H" +:+ format_0x 2 x3 +:+ format_0x 2 x2 +:+ format_0x 2 x1
         +:+ format_0x 2 x0)
  else raise (ValueError "length of rgb_array must be 3(rgb) or 4(rgba)").

(** ** zunda/engine.py: the ASS file *)

(** The [header] literal of [make_ass_file]. *)
Definition make_ass_file_header : string :=
  "[Script Info]" +:+ LF
  +:+ "; Script generated by FFmpeg/Lavc60.14.101" +:+ LF
  +:+ "ScriptType: v4.00+" +:+ LF
  +:+ "PlayResX: 1920" +:+ LF
  +:+ "PlayResY: 1080" +:+ LF
  +:+ "ScaledBorderAndShadow: yes" +:+ LF
  +:+ "YCbCr Matrix: None" +:+ LF
  +:+ LF
  +:+ "[V4+ Styles]" +:+ LF
  +:+ "Format: Name, Fontname, Fontsize, PrimaryColour, SecondaryColour, OutlineColour, BackColour, Bold, Italic, Underline, StrikeOut, ScaleX, ScaleY, Spacing, Angle, BorderStyle, Outline, Shadow, Alignment, MarginL, MarginR, MarginV, Encoding"
  +:+ LF
  +:+ "Style: Default,Hiragino Maru Gothic Pro,96,&Hffffff,&Hffffff,&H0,&H0,0,0,0,0,100,100,0,0,1,5,0,2,10,10,25,1"
  +:+ LF
  +:+ "Style: zunda,Hiragino Maru Gothic Pro,96,&Hffffff,&Hffffff,&H38a65e,&HA0000000,0,0,0,0,100,100,0,0,1,5,3,2,10,10,30,1"
  +:+ LF
  +:+ "Style: metan,Hiragino Maru Gothic Pro,96,&Hffffff,&Hffffff,&H734aab,&HA0000000,0,0,0,0,100,100,0,0,1,5,3,2,10,10,30,1"
  +:+ LF
  +:+ LF
  +:+ "[Events]" +:+ LF
  +:+ "Format: Layer, Start, End, Style, Name, MarginL, MarginR, MarginV, Effect, Text"
  +:+ LF.

(** The loop of [make_ass_file] over [timeline.iterrows()], collecting
    [lines].  Its [get_time] and [line_template] are written as those of
    [write_ass_file]. *)
Fixpoint make_ass_lines (rows : list timeline_row) : exn + list string :=
  match rows with
  | [] => ret []
  | row :: rows' =>
      let! start_time' := get_time (start_time row) in
      let! end_time' := get_time (end_time row) in
      let x := dialogue_line start_time' end_time' (character row) (text row) in
      let! lines := make_ass_lines rows' in
      ret (x :: lines)
  end.

(** [make_ass_file], given the rows read from [timeline_path]. *)
Definition make_ass_file (timeline : list timeline_row) : outcome :=
  let header := make_ass_file_header in
  match make_ass_lines timeline with
  | inl e => {| written := None; raised := Some e |}
  | inr lines =>
      let body := join LF lines in
      {| written := Some (header +:+ body); raised := None |}
  end.

(** ** zunda/engine.py: line breaking *)

(** A continuation byte [10xxxxxx] of UTF-8. *)
Definition is_continuation (c : ascii) : bool :=
  (N.land (N_of_ascii c) 192 =? 128)%N.

(** [len(s)] for a [str] held as UTF-8 bytes: the number of its code
    points, which is the number of bytes that are not continuation bytes. *)
Fixpoint str_len (s : string) : Z :=
  match s with
  | EmptyString => 0
  | String c s' => (if is_continuation c then 0 else 1) + str_len s'
  end.

(** The word loop of [_insert_newlines]; [lines] grows at its end, and
    [lines[-1]] is its last element. *)
Fixpoint insert_newlines_loop (words : list string) (max_length : Z)
    (lines : list string) : list string :=
  match words with
  | [] => lines
  | w :: words' =>
      let lines :=
        if bool_decide (length lines = 0%nat)
           || (max_length <? str_len (default "" (last lines)) + str_len w)
        then lines ++ [""]
        else lines in
      let lines :=
        <[(length lines - 1)%nat := default "" (last lines) +:+ w]> lines in
      insert_newlines_loop words' max_length lines
  end.

Section _insert_newlines.

(** [MeCab.Tagger().parse]: one line per token, the surface form before
    the first tab. *)
Variable tagger_parse : string → string.

(** The [words] of [_insert_newlines]: the first tab-separated field of
    every line of the parse but the last two. *)
Definition tagger_words (text' : string) : list string :=
  let parsed := split_on (ascii_of_nat 10) (tagger_parse text') in
  (λ p, default "" (head (split_on (ascii_of_nat 9) p)))
    <$> take (length parsed - 2) parsed.

Definition _insert_newlines (text' : string) (max_length : Z) : string :=
  let words := tagger_words text' in
  let lines := insert_newlines_loop words max_length [] in
  join backslash_n lines.

End _insert_newlines.

(** ** zunda/engine.py: the image list and the video length *)

(** The exceptions met in [zunda] besides those of [exn]. *)
Inductive zunda_exn : Type :=
| Builtin (e : exn)
| RuntimeError (msg : string)
| UnboundLocalError (name : string)
| TypeError.

Section make_video_from_images.

(** [os.path.join] and [str] of a [numpy.float64]. *)
Variable os_path_join : string → string → string.
Variable str_float : float → string.

(** The loop of [make_video_from_images] over [enumerate(duration)],
    threading the local [file_path] ([None] while it is unbound) and the
    content written so far. *)
Fixpoint duration_loop (images_dir : string) (rows : list (Z * float))
    (file_path : option string) (fp : string) : option string * string :=
  match rows with
  | [] => (file_path, fp)
  | (i, d) :: rows' =>
      let file_path := os_path_join images_dir (format_0d 3 i +:+ ".png") in
      let fp := fp +:+ ("file '" +:+ file_path +:+ "'" +:+ LF) in
      let fp := fp +:+ ("duration " +:+ str_float d +:+ LF) in
      duration_loop images_dir rows' (Some file_path) fp
  end.

(** [make_video_from_images], given the rows read from [timeline_path]:
    the content of the duration file that [ffmpeg] is called with, or the
    exception raised before the call. *)
Definition make_video_from_images (images_dir : string)
    (timeline : list timeline_row) : zunda_exn + string :=
  let duration := (λ r, (end_time r - start_time r)%float) <$> timeline in
  match duration_loop images_dir (enumerate_from 0 duration) None "" with
  | (Some file_path, fp) =>
      let fp := fp +:+ ("file '" +:+ file_path +:+ "'" +:+ LF) in
      let fp := fp +:+ ("duration 0.1" +:+ LF) in
      inr fp
  | (None, _) => inl (UnboundLocalError "file_path")
  end.

End make_video_from_images.

(** [length] of [make_subtitle_video]: [timeline['end_time'].iloc[-1]]. *)
Definition make_subtitle_video_length (timeline : list timeline_row)
  : exn + float :=
  match last timeline with
  | Some row => ret (end_time row)
  | None => raise (IndexError "single positional indexer is out-of-bounds")
  end.

(** ** zunda/main.py *)

Module zunda_main.

(** A row of the timeline table of [zunda/main.py]. *)
Record timeline_row := {
  character : string;
  hash : string;
  text : string;
  slide : Z;
  status : string;
  action : string;
}.

Section make_timeline_file.

Variable read_text : string → string.
Variable _get_hash_prefix : string → string.
Variable _insert_newlines : string → Z → string.
Variable filename_stem : string → string.

Variable max_length : Z.
Variable prev_timeline : option (list timeline_row).

Definition transform_text (raw_text : string) : string :=
  if 0 <? max_length then _insert_newlines raw_text max_length else raw_text.

(** [get_extra_columns]: the text, slide, status and action of the row. *)
Definition get_extra_columns (text' : string)
  : string * Z * string * string :=
  let raw_text := text' in
  let row :=
    match prev_timeline with
    | Some prev =>
        let hash' := _get_hash_prefix text' in
        let filtered_tl := filter (λ r, hash r = hash') prev in
        match filtered_tl with
        | r :: _ => Some r
        | [] => None
        end
    | None => None
    end in
  match row with
  | Some r => (text r, slide r, status r, action r)
  | None => (transform_text raw_text, 0, "n", "")
  end.

(** The loop over [txt_files]. *)
Fixpoint timeline_loop (txt_files : list string)
  : zunda_exn + list timeline_row :=
  match txt_files with
  | [] => inr []
  | txt_file :: txt_files' =>
      let raw_text := read_text txt_file in
      if String.eqb raw_text "" then
        inl (RuntimeError ("Empty text file: " +:+ txt_file
                           +:+ ". Please remove it and try again."))
      else
        let filename := filename_stem txt_file in
        match list_getitem (split_on "_" filename) 1 with
        | inl e => inl (Builtin e)
        | inr character' =>
            match dict_getitem character_dict character' with
            | inl e => inl (Builtin e)
            | inr name' =>
                let '(text', slide', status', action') :=
                  get_extra_columns raw_text in
                let dic := {| character := name';
                              hash := _get_hash_prefix raw_text;
                              text := text'; slide := slide';
                              status := status'; action := action' |} in
                match timeline_loop txt_files' with
                | inl e => inl e
                | inr lines => inr (dic :: lines)
                end
            end
        end
  end.

(** [make_timeline_file]: the rows written to [dst_timeline_path]. *)
Definition make_timeline_file (txt_files : list string)
  : zunda_exn + list timeline_row :=
  timeline_loop txt_files.

End make_timeline_file.

End zunda_main.

(** ** zunda/engine.py: the timeline as pandas reads it *)

Module read_csv.

(** A cell of the [text] column of the table [pandas.read_csv] returns, as
    [iterrows] hands it over: a [str], or a number (pandas reads a column
    that holds digits only as integers, and an empty cell as the float
    NaN). *)
Inductive cell : Type :=
| Str (s : string)
| Num (x : number).

(** The columns of a row that [make_srt_file] reads: two times, read as
    floats, and the text cell. *)
Record timeline_row := {
  start_time : float;
  end_time : float;
  text : cell;
}.

Record outcome := { written : option string; raised : option zunda_exn }.

(** [text + '\n\n']: the concatenation for a [str]; a number and a [str]
    cannot be added. *)
Definition add_str (x : cell) (s : string) : zunda_exn + string :=
  match x with
  | Str a => inr (a +:+ s)
  | Num _ => inl TypeError
  end.

(** The loop of [make_srt_file] over [timeline.iterrows()], threading the
    content written so far; the index [i] of a row is its position. *)
Fixpoint make_srt_loop (rows : list (Z * timeline_row)) (srt : string)
  : outcome :=
  match rows with
  | [] => {| written := Some srt; raised := None |}
  | (i, row) :: rows' =>
      let srt := srt +:+ str_int (i + 1) +:+ LF in
      match srt_time_line (start_time row) (end_time row) with
      | inl e => {| written := Some srt; raised := Some (Builtin e) |}
      | inr line =>
          let srt := srt +:+ line in
          match add_str (text row) (LF +:+ LF) with
          | inl e => {| written := Some srt; raised := Some e |}
          | inr block =>
              let srt := srt +:+ block in
              make_srt_loop rows' srt
          end
      end
  end.

(** [make_srt_file], given the table read from [timeline_path]. *)
Definition make_srt_file (timeline : list timeline_row) : outcome :=
  make_srt_loop (enumerate_from 0 timeline) "".

End read_csv.

(** ** The frame cache (design document, sections 3, 4.3-4.5 and 9) *)

Section frame_cache.
Context {Buffer Appearance Time : Type}.
Context `{!EqDecision Appearance, !EqDecision Time, !Countable Time}.

(** Modelled from the spec: the scene graph (sections 3 and 9), whose code
    (Layer, Composition) is not among the sources.  A node is a leaf layer
    with a content producer, which may fail with ContentUnavailable
    ([None]), or a composition with a canvas and its child layers in paint
    order, back to front.  Both carry a stable id and [appearanceAt]: the
    node's own attribute values resolved at a time (opacity, transform,
    blend, matte), or [None] for "not visible" (section 4.3). *)
#[warnings="-register-all"]
Inductive node : Type :=
| LayerNode (id : nat) (appearanceAt : Time → option Appearance)
    (content : Time → option Buffer)
| CompositionNode (id : nat) (appearanceAt : Time → option Appearance)
    (canvas : Buffer) (children : list node).

(** Induction on a node, with the property on all children of a
    composition. *)
Fixpoint node_ind_All (P : node → Prop)
    (Hlayer : ∀ id appearanceAt content,
        P (LayerNode id appearanceAt content))
    (Hcomp : ∀ id appearanceAt canvas children,
        Forall P children →
        P (CompositionNode id appearanceAt canvas children))
    (n : node) : P n :=
  match n with
  | LayerNode id appearanceAt content => Hlayer id appearanceAt content
  | CompositionNode id appearanceAt canvas children =>
      Hcomp id appearanceAt canvas children
        ((fix all (l : list node) : Forall P l :=
            match l with
            | [] => Forall_nil_2 P
            | x :: l' =>
                Forall_cons_2 P x l' (node_ind_All P Hlayer Hcomp x) (all l')
            end) children)
  end.

(** Modelled from the spec: the identity of a node (section 3). *)
Definition node_id (n : node) : nat :=
  match n with
  | LayerNode id _ _ | CompositionNode id _ _ _ => id
  end.

(** Modelled from the spec: the scope of the cache entry of a node
    (section 4.4): LAYER for a leaf layer, COMPOSITION for the result of a
    composition subtree. *)
Definition cache_scope (n : node) : CacheType.t :=
  match n with
  | LayerNode _ _ _ => CacheType.LAYER
  | CompositionNode _ _ _ _ => CacheType.COMPOSITION
  end.

(** Modelled from the spec: [appearanceAt(t)] of a node (section 4.3). *)
Definition node_appearance (n : node) (t : Time) : option Appearance :=
  match n with
  | LayerNode _ appearanceAt _ | CompositionNode _ appearanceAt _ _ =>
      appearanceAt t
  end.

(** Modelled from the spec: [appearanceAt(t)] is not "not visible"
    (section 4.3). *)
Definition node_visible (n : node) (t : Time) : bool :=
  match node_appearance n t with
  | Some _ => true
  | None => false
  end.

(** Modelled from the spec: the nodes of the tree under a node, the node
    itself first (section 9: the arena of nodes). *)
Fixpoint subnodes (n : node) : list node :=
  n :: match n with
       | LayerNode _ _ _ => []
       | CompositionNode _ _ _ children =>
           (fix all (l : list node) : list node :=
              match l with
              | [] => []
              | child :: l' => subnodes child ++ all l'
              end) children
       end.

(** Modelled from the spec: the identities in use under a node. *)
Definition node_ids (n : node) : list nat := node_id <$> subnodes n.

(** Modelled from the spec: a scene graph (sections 3 and 9): a tree of
    nodes, each with an identity of its own.  (A tree has no cycle, so a
    composition never contains itself.) *)
Record scene_graph : Type := {
  root : node;
  ids_distinct : NoDup (node_ids root);
}.

(** Modelled from the spec: the content fingerprint of a node at a time
    (section 3): "its own attribute values at t, plus, for a Composition,
    the fingerprints of its visible children's entries". *)
#[warnings="-register-all"]
Inductive Fingerprint : Type :=
| FP (own : option Appearance) (visible_children : list Fingerprint).

#[global] Instance Fingerprint_eq_dec : EqDecision Fingerprint.
Proof.
  refine (fix go (x y : Fingerprint) {struct x} : Decision (x = y) :=
    let _ : EqDecision Fingerprint := go in
    match x, y with
    | FP a l, FP b m => cast_if_and (decide (a = b)) (decide (l = m))
    end); congruence.
Defined.

Fixpoint fingerprint (n : node) (t : Time) : Fingerprint :=
  match n with
  | LayerNode _ appearanceAt _ => FP (appearanceAt t) []
  | CompositionNode _ appearanceAt _ children =>
      FP (appearanceAt t)
        ((fix visible_children (l : list node) : list Fingerprint :=
            match l with
            | [] => []
            | child :: l' =>
                if node_visible child t
                then fingerprint child t :: visible_children l'
                else visible_children l'
            end) children)
  end.

(** Modelled from the spec: the blend and matte arithmetic of section 4.3,
    a parameter: [composite appearance behind acc buf] blends the buffer
    [buf] of a child with the resolved [appearance] onto [acc], with the
    buffer [behind] of the layer immediately behind it as matte source
    ([None] when that layer is not visible). *)
Variable composite : Appearance → option Buffer → Buffer → Buffer → Buffer.

(** Modelled from the spec: the FrameCache (sections 3 and 4.4), whose
    code is not among the sources.  An entry is keyed by node identity and
    time and holds the fingerprint used to produce it and the buffer. *)
Definition frame_cache : Type := gmap (nat * Time) (Fingerprint * Buffer).

(** Modelled from the spec: [get(nodeId, t)] (section 4.4). *)
Definition cache_get (c : frame_cache) (id : nat) (t : Time)
  : option (Fingerprint * Buffer) := c !! (id, t).

(** Modelled from the spec: [put(nodeId, t, fingerprint, buffer)]
    (section 4.4). *)
Definition cache_put (c : frame_cache) (id : nat) (t : Time)
    (fp : Fingerprint) (buf : Buffer) : frame_cache :=
  <[(id, t) := (fp, buf)]> c.

(** Modelled from the spec: [invalidate(nodeId)] drops all entries of a
    node (section 4.4). *)
Definition cache_invalidate (c : frame_cache) (id : nat) : frame_cache :=
  filter (λ e, e.1.1 ≠ id) c.

(** Modelled from the spec: a cached buffer is reused when the cache is
    enabled and the entry is valid, that is its fingerprint is the node's
    fingerprint now (sections 4.4 and 7: a mismatch is recomputed). *)
Definition cache_lookup (enabled : bool) (c : frame_cache) (n : node)
    (t : Time) : option Buffer :=
  if enabled then
    match cache_get c (node_id n) t with
    | Some (fp, buf) =>
        if decide (fp = fingerprint n t) then Some buf else None
    | None => None
    end
  else None.

(** Modelled from the spec: the compositor writes a rendered buffer into
    the cache when the cache is enabled (section 4.5). *)
Definition cache_store (enabled : bool) (c : frame_cache) (n : node)
    (t : Time) (buf : Buffer) : frame_cache :=
  if enabled then cache_put c (node_id n) t (fingerprint n t) buf else c.

(** Modelled from the spec: compositing the children back to front
    (section 4.3): each visible child is rendered, through the cache, and
    blended onto the accumulating buffer; an invisible child is skipped;
    ContentUnavailable aborts the frame. *)
Fixpoint composite_children
    (render_child : node → frame_cache → option Buffer * frame_cache)
    (t : Time) (l : list node) (behind : option Buffer) (acc : Buffer)
    (c : frame_cache) : option Buffer * frame_cache :=
  match l with
  | [] => (Some acc, c)
  | child :: l' =>
      match node_appearance child t with
      | Some appearance =>
          match render_child child c with
          | (Some buf, c') =>
              composite_children render_child t l' (Some buf)
                (composite appearance behind acc buf) c'
          | (None, c') => (None, c')
          end
      | None => composite_children render_child t l' None acc c
      end
  end.

(** Modelled from the spec: [render(t)] of a node (sections 4.3-4.5),
    threading the cache.  A valid entry for the node is reused without
    visiting its children; otherwise a layer asks its content producer and
    a composition composites its children on its canvas, and the result is
    stored. *)
Fixpoint render (enabled : bool) (t : Time) (n : node) (c : frame_cache)
  : option Buffer * frame_cache :=
  match cache_lookup enabled c n t with
  | Some buf => (Some buf, c)
  | None =>
      match n with
      | LayerNode _ _ content =>
          match content t with
          | Some buf => (Some buf, cache_store enabled c n t buf)
          | None => (None, c)
          end
      | CompositionNode _ _ canvas children =>
          match composite_children (render enabled t) t children None
                  canvas c with
          | (Some buf, c') => (Some buf, cache_store enabled c' n t buf)
          | (None, c') => (None, c')
          end
      end
  end.

(** Modelled from the spec: [render(t)] with caching disabled. *)
Definition render_plain (n : node) (t : Time) : option Buffer :=
  (render false t n ∅).1.

(** Modelled from the spec: what happens to the cache of a scene graph
    between two renders (sections 3 and 4.4): a frame is rendered with the
    cache enabled, or the entries of a node are invalidated, or one entry
    is evicted. *)
Inductive cache_step : Type :=
| Render (t : Time)
| Invalidate (id : nat)
| Evict (id : nat) (t : Time).

Definition cache_step_run (scene : node) (c : frame_cache) (s : cache_step)
  : frame_cache :=
  match s with
  | Render t => (render true t scene c).2
  | Invalidate id => cache_invalidate c id
  | Evict id t => delete (id, t) c
  end.

(** The cache of a scene graph after the steps of [history], one after the
    other, starting from the empty cache. *)
Definition cache_after (scene : node) (history : list cache_step)
  : frame_cache :=
  fold_left (cache_step_run scene) history ∅.

(** The entries of a cache are right for the nodes under [scene]: an entry
    under the identity of a node holds the fingerprint of that node and the
    buffer that rendering it without the cache gives. *)
Definition cache_sound (scene : node) (c : frame_cache) : Prop :=
  ∀ n t fp buf,
    n ∈ subnodes scene → cache_get c (node_id n) t = Some (fp, buf) →
    fp = fingerprint n t ∧ render_plain n t = Some buf.

End frame_cache.

(** A small scene for the examples: buffers, appearances (an opacity) and
    times are integers, and blending adds the child's buffer times its
    opacity. *)
Definition demo_composite : Z → option Z → Z → Z → Z :=
  λ opacity _ acc buf, acc + opacity * buf.

Definition demo_scene : @node Z Z Z :=
  CompositionNode 0 (λ _, Some 1) 1
    [ LayerNode 1 (λ t, if 0 <=? t then Some 1 else None) (λ t, Some (2 * t));
      LayerNode 2 (λ t, if t <? 10 then Some 3 else None) (λ _, Some 5);
      CompositionNode 3 (λ _, Some 1) 100
        [ LayerNode 4 (λ _, Some 1)
            (λ t, if t <? 0 then None else Some t) ] ].

Definition demo_graph : @scene_graph Z Z Z :=
  {| root := demo_scene; ids_distinct := ltac:(compute_done) |}.

(** Two layers that were given the same identity. *)
Definition shared_id_scene : @node Z Z Z :=
  CompositionNode 0 (λ _, Some 1) 0
    [ LayerNode 1 (λ _, Some 1) (λ _, Some 5);
      LayerNode 1 (λ _, Some 1) (λ _, Some 7) ].

(** ** Notions used to state the properties *)

(** [text.replace(r"\n", "").replace("\n", "")] of [write_srt_file]. *)
Definition cleaned_text (text' : string) : string :=
  replace LF "" (replace backslash_n "" text').

(** The row with its text cleaned. *)
Definition clean_row (r : timeline_row) : timeline_row :=
  {| start_time := start_time r; end_time := end_time r;
     character := character r; hash := hash r;
     text := cleaned_text (text r); slide := slide r; status := status r |}.

(** [old in s]: [old] occurs in [s]. *)
Definition occurs (old s : string) : Prop :=
  ∃ a b, s = a +:+ old +:+ b.

(** A time: a float [t] with [0 <= t < math.inf]. *)
Definition is_time (t : float) : Prop :=
  (0 <=? t)%float = true ∧ (t <? infinity)%float = true.

(** Zero or finite and positive: the decoded values of a time. *)
Definition nonneg_finite (x : spec_float) : Prop :=
  match x with
  | S754_zero _ | S754_finite false _ _ => True
  | _ => False
  end.

(** The value of [int(x)], where it is defined. *)
Definition int_value (x : float) : Z :=
  match float_int x with
  | inr n => n
  | inl _ => 0
  end.

(** The fields of a timestamp, as the design document gives them:
    [int(t/3600)], [int((t/60)%60)], [int(t%60)], [int((t%1)*100)] and
    [int((t%1)*1000)]. *)
Definition hours (t : float) : Z := int_value (t / 3600)%float.
Definition minutes (t : float) : Z :=
  int_value (float_rem (t / 60)%float 60%float).
Definition seconds (t : float) : Z := int_value (float_rem t 60%float).
Definition centiseconds (t : float) : Z :=
  int_value (float_rem t 1%float * 100)%float.
Definition milliseconds (t : float) : Z :=
  int_value (float_rem t 1%float * 1000)%float.

(** [n] in decimal, with zeros in front up to [w] digits. *)
Definition zero_padded (w : nat) (n : Z) : string :=
  string_of_list_ascii (repeat "0"%char (w - String.length (str_int n)))
  +:+ str_int n.

(** The number a string of decimal digits denotes. *)
Definition read_decimal (s : string) : option Z :=
  Z.of_uint <$> NilEmpty.uint_of_string s.

(** [s] is the number [n] written with decimal digits only, at least
    [w] of them. *)
Definition decimal_field (w : nat) (n : Z) (s : string) : Prop :=
  Forall is_digit (list_ascii_of_string s)
  ∧ read_decimal s = Some n
  ∧ (w ≤ String.length s)%nat.

(** HH:MM:SS.cc *)
Definition ass_timestamp (t : float) : string :=
  zero_padded 2 (hours t) +:+ ":" +:+ zero_padded 2 (minutes t) +:+ ":"
  +:+ zero_padded 2 (seconds t) +:+ "." +:+ zero_padded 2 (centiseconds t).

(** HH:MM:SS,mmm *)
Definition srt_timestamp (t : float) : string :=
  zero_padded 2 (hours t) +:+ ":" +:+ zero_padded 2 (minutes t) +:+ ":"
  +:+ zero_padded 2 (seconds t) +:+ "," +:+ zero_padded 3 (milliseconds t).

(** A cue row: start time, end time, style name and text. *)
Record cue := {
  cue_start : float;
  cue_end : float;
  cue_character : string;
  cue_text : string;
}.

(** The [Dialogue] line of a cue. *)
Definition ass_cue_line (q : cue) : string :=
  "Dialogue: 0," +:+ ass_timestamp (cue_start q) +:+ ","
  +:+ ass_timestamp (cue_end q) +:+ "," +:+ cue_character q
  +:+ ",,0,0,0,," +:+ cue_text q.

(** The SRT block of a cue with index [k]. *)
Definition srt_cue (k : Z) (q : cue) : string :=
  str_int k +:+ LF
  +:+ srt_timestamp (cue_start q) +:+ " --> " +:+ srt_timestamp (cue_end q)
  +:+ LF
  +:+ cleaned_text (cue_text q) +:+ LF +:+ LF.

(** The SRT blocks of the cues, numbered from [k] on. *)
Fixpoint srt_cues (k : Z) (cues : list cue) : string :=
  match cues with
  | [] => ""
  | q :: cues' => srt_cue k q +:+ srt_cues (k + 1) cues'
  end.

(** The fields of the timestamps of [t] are written in decimal digits:
    at least two for the hours, exactly two for the minutes, the seconds
    and the hundredths, exactly three for the milliseconds. *)
Definition well_formed_timestamps (t : float) : Prop :=
  decimal_field 2 (hours t) (zero_padded 2 (hours t))
  ∧ decimal_field 2 (minutes t) (zero_padded 2 (minutes t))
  ∧ String.length (zero_padded 2 (minutes t)) = 2%nat
  ∧ decimal_field 2 (seconds t) (zero_padded 2 (seconds t))
  ∧ String.length (zero_padded 2 (seconds t)) = 2%nat
  ∧ decimal_field 2 (centiseconds t) (zero_padded 2 (centiseconds t))
  ∧ String.length (zero_padded 2 (centiseconds t)) = 2%nat
  ∧ decimal_field 3 (milliseconds t) (zero_padded 3 (milliseconds t))
  ∧ String.length (zero_padded 3 (milliseconds t)) = 3%nat.

(** The coordinate at step [k] of an extent: [0] at its start, half the
    extent in the middle, the extent at its end. *)
Definition grid_coordinate (k : Z) (extent : float) : number :=
  if k =? 0 then Int 0
  else if k =? 1 then Float (extent / 2)%float
  else Float extent.

(** [s.count(c)] for a character [c]. *)
Fixpoint count_char (c : ascii) (s : string) : nat :=
  match s with
  | EmptyString => 0
  | String c' s' => ((if Ascii.eqb c' c then 1 else 0) + count_char c s')%nat
  end.

(** The number a string of lowercase hexadecimal digits denotes. *)
Definition read_hex (s : string) : option Z :=
  Z.of_hex_uint <$> HexadecimalString.NilEmpty.uint_of_string s.

(** A string cut into groups of two characters. *)
Fixpoint pairs (s : string) : option (list string) :=
  match s with
  | EmptyString => Some []
  | String a (String b s') => (String a (String b "") ::.) <$> pairs s'
  | String _ EmptyString => None
  end.

(** The channels an ASS colour [&H...] holds: its two-digit hexadecimal
    groups, read from the last group to the first. *)
Definition ass_color_channels (s : string) : option (list Z) :=
  match s with
  | String "&" (String "H" s') =>
      pairs s' ≫= λ groups, reverse <$> mapM read_hex groups
  | _ => None
  end.

(** The exception [int(x)] raises on a float that is not finite. *)
Definition int_error (x : spec_float) : option exn :=
  match x with
  | S754_nan => Some (ValueError "cannot convert float NaN to integer")
  | S754_infinity _ =>
      Some (OverflowError "cannot convert float infinity to integer")
  | _ => None
  end.

(** The three styles the header of [make_ass_file] spells out. *)
Definition zunda_style (name' outline_color' back_color' : string)
    (shadow' margin_v' : Z) : ASSStyleType := {|
  name := name';
  font_name := "Hiragino Maru Gothic Pro";
  font_size := 96;
  primary_color := "&Hffffff";
  secondary_color := "&Hffffff";
  outline_color := outline_color';
  back_color := back_color';
  bold := false;
  italic := false;
  underline := false;
  strike_out := false;
  scale_x := 100;
  scale_y := 100;
  spacing := 0;
  angle := 0;
  border_style := 1;
  outline := 5;
  shadow := shadow';
  alignment := Direction.BOTTOM_CENTER;
  margin_l := 10;
  margin_r := 10;
  margin_v := margin_v';
|}.

Definition make_ass_file_styles : list ASSStyleType :=
  [ zunda_style "Default" "&H0" "&H0" 0 25;
    zunda_style "zunda" "&H38a65e" "&HA0000000" 3 30;
    zunda_style "metan" "&H734aab" "&HA0000000" 3 30 ].

(** The cue [q] under the style name [c]. *)
Definition with_character (q : cue) (c : string) : cue :=
  {| cue_start := cue_start q; cue_end := cue_end q;
     cue_character := c; cue_text := cue_text q |}.

(** The lines of the SRT blocks of the cues, numbered from [k] on: for
    each cue its index, its time line, its cleaned text and an empty line;
    then the empty string after the last newline. *)
Fixpoint srt_lines (k : Z) (cues : list cue) : list string :=
  match cues with
  | [] => [""]
  | q :: cues' =>
      str_int k
      :: (srt_timestamp (cue_start q) +:+ " --> " +:+ srt_timestamp (cue_end q))
      :: cleaned_text (cue_text q)
      :: ""
      :: srt_lines (k + 1) cues'
  end.

(** The groups of words that make the lines of a broken text: no group
    is empty, and a group of more than one word is at most [max_length]
    code points long. *)
Definition bounded_groups (max_length : Z) (groups : list (list string))
  : Prop :=
  Forall (λ g, g ≠ []
               ∧ (length g = 1%nat ∨ str_len (join "" g) ≤ max_length))
    groups.

(** The first word of every later group did not fit on the line before
    it. *)
Definition greedy_groups (max_length : Z) (groups : list (list string))
  : Prop :=
  ∀ i g w g', groups !! i = Some g → groups !! S i = Some (w :: g') →
              max_length < str_len (join "" g) + str_len w.

(** One entry of the duration file. *)
Definition duration_entry (path duration : string) : string :=
  "file '" +:+ path +:+ "'" +:+ LF +:+ "duration " +:+ duration +:+ LF.

(** The entries of the rows, the images numbered from [i] on. *)
Fixpoint duration_entries (os_path_join : string → string → string)
    (str_float : float → string) (images_dir : string) (i : Z)
    (timeline : list timeline_row) : string :=
  match timeline with
  | [] => ""
  | r :: timeline' =>
      duration_entry (os_path_join images_dir (format_0d 3 i +:+ ".png"))
        (str_float (end_time r - start_time r)%float)
      +:+ duration_entries os_path_join str_float images_dir (i + 1) timeline'
  end.

(** A row of [zunda/main.py] and a row of [zunda/engine.py] with the same
    character, hash, text, slide and status. *)
Definition same_columns (m : zunda_main.timeline_row) (r : timeline_row)
  : Prop :=
  zunda_main.character m = character r ∧ zunda_main.hash m = hash r
  ∧ zunda_main.text m = text r ∧ zunda_main.slide m = slide r
  ∧ zunda_main.status m = status r.

(** Two previous timelines that are both absent, or row by row the same
    on these columns. *)
Definition same_timeline (pm : option (list zunda_main.timeline_row))
    (pe : option (list timeline_row)) : Prop :=
  match pm, pe with
  | None, None => True
  | Some q, Some p => Forall2 same_columns q p
  | _, _ => False
  end.

(** The row as pandas reads it when its text cell is read as a [str]. *)
Definition str_row (r : timeline_row) : read_csv.timeline_row :=
  {| read_csv.start_time := start_time r;
     read_csv.end_time := end_time r;
     read_csv.text := read_csv.Str (text r) |}.

(** * Properties *)

Example motion_from_string_ease_in12 :
  MotionType.from_string "ease_in12" = inr MotionType.EASE_IN12.
Proof. vm_compute. reflexivity. Qed.

Example motion_from_string_bogus :
  MotionType.from_string "bogus" = inl (ValueError "Unknown motion type: bogus").
Proof. vm_compute. reflexivity. Qed.

(** ** Dictionaries built from a literal *)

Section dict_literal.
Context {V : Type}.
Implicit Types (items : list (string * V)) (k : string) (v : V).

Lemma dict_contains_true (d : gmap string V) k :
  dict_contains d k = true ↔ is_Some (d !! k).
Proof. unfold dict_contains. by rewrite bool_decide_eq_true. Qed.

Lemma dict_contains_false (d : gmap string V) k :
  dict_contains d k = false ↔ d !! k = None.
Proof.
  unfold dict_contains. rewrite bool_decide_eq_false.
  by rewrite eq_None_not_Some.
Qed.

(** A guarded read [d[k] if k in d else raise e] never raises [KeyError]. *)
Lemma guarded_getitem_Some (d : gmap string V) k v (e : exn) :
  d !! k = Some v →
  (if dict_contains d k then dict_getitem d k else raise e) = inr v.
Proof.
  intros Hk. assert (dict_contains d k = true) as ->.
  { apply dict_contains_true. eauto. }
  unfold dict_getitem. by rewrite Hk.
Qed.

Lemma guarded_getitem_None (d : gmap string V) k (e : exn) :
  d !! k = None →
  (if dict_contains d k then dict_getitem d k else raise e) = inl e.
Proof. intros Hk. by apply dict_contains_false in Hk as ->. Qed.

Lemma guarded_getitem_inr (d : gmap string V) k v (e : exn) :
  (if dict_contains d k then dict_getitem d k else raise e) = inr v ↔
  d !! k = Some v.
Proof.
  split; [|apply guarded_getitem_Some].
  destruct (d !! k) as [w|] eqn:Hk.
  - rewrite (guarded_getitem_Some _ _ _ _ Hk). congruence.
  - by rewrite (guarded_getitem_None _ _ _ Hk).
Qed.

(** Reading a dictionary literal: a hit is one of the written items. *)
Lemma literal_lookup_Some items k v :
  (list_to_map items : gmap string V) !! k = Some v → (k, v) ∈ items.
Proof. apply elem_of_list_to_map_2. Qed.

Lemma literal_lookup_None items k :
  k ∉ items.*1 → (list_to_map items : gmap string V) !! k = None.
Proof. apply not_elem_of_list_to_map_1. Qed.
End dict_literal.

(** Splits a membership [x ∈ [a; b; ...]] into its cases. *)
Ltac elem_cases H :=
  repeat (apply elem_of_cons in H as [H|H]); [..|by apply elem_of_nil in H].

(** The keys of the three tables are distinct, so the order in which a
    dictionary literal is read does not matter. *)
Lemma table_keys_distinct :
  NoDup MotionType.STRING_TO_MOTION_TYPE_items.*1
  ∧ NoDup BlendingMode.STRING_TO_BLENDING_MODE_items.*1
  ∧ NoDup MatteMode.STRING_TO_MATTE_MODE_items.*1.
Proof. split_and!; compute_done. Qed.

(** ** Blend modes *)

Example blending_from_string_color_dodge :
  BlendingMode.from_string "color_dodge" = inr BlendingMode.COLOR_DODGE.
Proof. vm_compute. reflexivity. Qed.

Example blending_from_string_hyphen :
  BlendingMode.from_string "color-dodge"
  = inl (ValueError "Unknown blending mode: color-dodge").
Proof. vm_compute. reflexivity. Qed.

Lemma blending_members_all (b : BlendingMode.t) : b ∈ BlendingMode.members.
Proof. destruct b; unfold BlendingMode.members; set_solver. Qed.

Lemma blending_table_hit s b :
  BlendingMode.STRING_TO_BLENDING_MODE !! s = Some b →
  s = lower (BlendingMode.name b).
Proof.
  intros H. apply literal_lookup_Some in H.
  unfold BlendingMode.STRING_TO_BLENDING_MODE_items in H.
  elem_cases H; by simplify_eq.
Qed.

Lemma blending_table_member b :
  BlendingMode.STRING_TO_BLENDING_MODE !! lower (BlendingMode.name b) = Some b.
Proof. destruct b; vm_compute; reflexivity. Qed.

(** C4. The blend modes are exactly the eighteen listed ones:
    [BlendingMode] has eighteen distinct members with distinct values,
    their snake_case names are the eighteen names of the design document
    (with [_] for [-]), [BlendingMode.from_string] sends the snake_case
    name of each member to that member and nothing else to it, and it
    raises [ValueError] on every other string. *)
Theorem blending_mode_from_string_bijection :
  length BlendingMode.members = 18%nat ∧
  NoDup BlendingMode.members ∧
  (∀ b, b ∈ BlendingMode.members) ∧
  NoDup (BlendingMode.value <$> BlendingMode.members) ∧
  (λ b, lower (BlendingMode.name b)) <$> BlendingMode.members
    = [ "normal"; "multiply"; "screen"; "overlay"; "darken"; "lighten";
        "color_dodge"; "color_burn"; "linear_dodge"; "linear_burn";
        "hard_light"; "soft_light"; "vivid_light"; "linear_light";
        "pin_light"; "difference"; "exclusion"; "subtract" ] ∧
  (∀ s b, BlendingMode.from_string s = inr b ↔ s = lower (BlendingMode.name b)) ∧
  (∀ s, (∀ b, s ≠ lower (BlendingMode.name b)) →
        BlendingMode.from_string s
        = inl (ValueError ("Unknown blending mode: " +:+ s))).
Proof.
  split_and!.
  - reflexivity.
  - compute_done.
  - apply blending_members_all.
  - compute_done.
  - reflexivity.
  - intros s b. unfold BlendingMode.from_string.
    rewrite guarded_getitem_inr. split.
    + apply blending_table_hit.
    + intros ->. apply blending_table_member.
  - intros s Hs. unfold BlendingMode.from_string.
    apply guarded_getitem_None.
    destruct (BlendingMode.STRING_TO_BLENDING_MODE !! s) as [b|] eqn:Hb;
      [|done].
    apply blending_table_hit in Hb. by destruct (Hs b).
Qed.

Lemma blending_mode_from_string_bijection_witness :
  BlendingMode.from_string "add" = inl (ValueError "Unknown blending mode: add").
Proof.
  apply (proj2 (proj2 (proj2 (proj2 (proj2 (proj2
           blending_mode_from_string_bijection)))))).
  intros b. destruct b; discriminate.
Defined.

(** ** Matte modes *)

Lemma matte_table_hit s m :
  MatteMode.STRING_TO_MATTE_MODE !! s = Some m → s = lower (MatteMode.name m).
Proof.
  intros H. apply literal_lookup_Some in H.
  unfold MatteMode.STRING_TO_MATTE_MODE_items in H.
  elem_cases H; by simplify_eq.
Qed.

Lemma matte_table_member m :
  MatteMode.STRING_TO_MATTE_MODE !! lower (MatteMode.name m) = Some m.
Proof. destruct m; vm_compute; reflexivity. Qed.

(** C7. The matte modes are exactly none, alpha and luminance:
    [MatteMode] has these three members and no other,
    [MatteMode.from_string] sends ['none'], ['alpha'] and ['luminance'] to
    them, and raises [ValueError] on every other string. *)
Theorem matte_mode_from_string_exact :
  MatteMode.members = [MatteMode.NONE; MatteMode.ALPHA; MatteMode.LUMINANCE] ∧
  NoDup MatteMode.members ∧
  (∀ m, m ∈ MatteMode.members) ∧
  MatteMode.from_string "none" = inr MatteMode.NONE ∧
  MatteMode.from_string "alpha" = inr MatteMode.ALPHA ∧
  MatteMode.from_string "luminance" = inr MatteMode.LUMINANCE ∧
  (∀ s, s ≠ "none" → s ≠ "alpha" → s ≠ "luminance" →
        MatteMode.from_string s = inl (ValueError ("Unknown matte mode: " +:+ s))).
Proof.
  split_and!; try (vm_compute; reflexivity).
  - compute_done.
  - intros []; unfold MatteMode.members; set_solver.
  - intros s H1 H2 H3. unfold MatteMode.from_string.
    apply guarded_getitem_None.
    destruct (MatteMode.STRING_TO_MATTE_MODE !! s) as [m|] eqn:Hm; [|done].
    apply matte_table_hit in Hm. by destruct m.
Qed.

Lemma matte_mode_from_string_exact_witness :
  MatteMode.from_string "luma" = inl (ValueError "Unknown matte mode: luma").
Proof.
  apply (proj2 (proj2 (proj2 (proj2 (proj2 (proj2
           matte_mode_from_string_exact)))))); discriminate.
Defined.

(** ** Attribute kinds *)

Lemma attribute_from_string_declared :
  AttributeType.from_string "scalar" = inr AttributeType.SCALAR ∧
  AttributeType.from_string "vector2d" = inr AttributeType.VECTOR2D ∧
  AttributeType.from_string "vector3d" = inr AttributeType.VECTOR3D ∧
  AttributeType.from_string "angle" = inr AttributeType.ANGLE.
Proof. by split_and!. Qed.

(** C3. [AttributeType] declares the five kinds, and
    [AttributeType.from_string] handles ['scalar'], ['vector2d'],
    ['vector3d'] and ['angle'], but it has no branch for ['color']: the
    lowercase name of the declared member [COLOR] is rejected with
    [ValueError], and no string at all is sent to [COLOR]. *)
Theorem attribute_from_string_color_rejected :
  AttributeType.COLOR ∈ AttributeType.members ∧
  lower (AttributeType.name AttributeType.COLOR) = "color" ∧
  AttributeType.from_string "color"
  = inl (ValueError "Unknown attribute type: color") ∧
  (∀ s, AttributeType.from_string s ≠ inr AttributeType.COLOR).
Proof.
  split_and!; [set_solver|done|done|].
  intros s. unfold AttributeType.from_string.
  repeat case_match; discriminate.
Qed.

(** ** Easing curves *)

Lemma motion_members_all (m : MotionType.t) : m ∈ MotionType.members.
Proof.
  apply list_elem_of_In. destruct m; vm_compute; tauto.
Qed.

Lemma motion_table_hit s m :
  MotionType.STRING_TO_MOTION_TYPE !! s = Some m →
  s = lower (MotionType.name m).
Proof.
  intros H. apply literal_lookup_Some in H.
  unfold MotionType.STRING_TO_MOTION_TYPE_items in H.
  elem_cases H; by simplify_eq.
Qed.

Lemma motion_table_member m :
  MotionType.STRING_TO_MOTION_TYPE !! lower (MotionType.name m) = Some m.
Proof. destruct m; vm_compute; reflexivity. Qed.

(** C2. [MotionType.from_string] fails exactly on the strings that are
    not keys of the curve table [STRING_TO_MOTION_TYPE], with
    [ValueError("Unknown motion type: ...")], and on a key it returns the
    table's member, which is the member named by the upper-cased key; every
    member has its key. *)
Theorem motion_from_string_table (s : string) :
  (MotionType.STRING_TO_MOTION_TYPE !! s = None →
     MotionType.from_string s
     = inl (ValueError ("Unknown motion type: " +:+ s))) ∧
  (∀ m, MotionType.STRING_TO_MOTION_TYPE !! s = Some m →
     MotionType.from_string s = inr m ∧ s = lower (MotionType.name m)) ∧
  (∀ m, MotionType.from_string (lower (MotionType.name m)) = inr m).
Proof.
  unfold MotionType.from_string. split_and!.
  - apply guarded_getitem_None.
  - intros m Hm. split; [by apply guarded_getitem_Some|].
    by apply motion_table_hit.
  - intros m. apply guarded_getitem_Some, motion_table_member.
Qed.

Lemma motion_from_string_table_witness :
  MotionType.from_string "bounce"
  = inl (ValueError "Unknown motion type: bounce") ∧
  MotionType.from_string "ease_out25" = inr MotionType.EASE_OUT25.
Proof.
  split.
  - apply (proj1 (motion_from_string_table "bounce")). vm_compute. reflexivity.
  - apply (proj1 (proj2 (motion_from_string_table "ease_out25"))).
    vm_compute. reflexivity.
Defined.

(** C1, as stated, fails at power 11: no identifier [ease_in11] is
    accepted. *)
Lemma ease_not_available_11 : ¬ MotionType.ease_available 11.
Proof.
  intros (a & b & c & Ha & _). vm_compute in Ha. discriminate.
Qed.

Lemma ease_in11_rejected :
  MotionType.from_string "ease_in11"
  = inl (ValueError "Unknown motion type: ease_in11").
Proof. vm_compute. reflexivity. Qed.

(** C1, amended. For an integer power [p] with [2 ≤ p ≤ 35], the three
    easing families are available at [p] exactly when [p] is one of 2-10,
    12, 14, 16, 18, 20, 25, 30 and 35. *)
Theorem ease_available_iff_declared_power (p : Z) :
  2 ≤ p ≤ 35 → (MotionType.ease_available p ↔ p ∈ MotionType.powers).
Proof.
  intros Hp.
  assert (Hcases : p ∈ (Z.of_nat <$> seq 2 34)).
  { apply list_elem_of_fmap. exists (Z.to_nat p). split; [lia|].
    apply elem_of_seq. lia. }
  cbn in Hcases. unfold MotionType.powers. clear Hp.
  elem_cases Hcases; subst p; rewrite list_elem_of_In; split;
    first
      [ intros _; cbn; lia
      | intros _; eexists _, _, _; split_and!; vm_compute; reflexivity
      | intros (a & b & c & Ha & _); vm_compute in Ha; discriminate
      | intros H; exfalso; cbn in H; lia ].
Qed.

Lemma ease_available_iff_declared_power_witness :
  MotionType.ease_available 12.
Proof.
  apply (proj2 (ease_available_iff_declared_power 12 ltac:(lia))).
  apply list_elem_of_In. cbn. lia.
Defined.

(** ** Strings *)

Lemma append_nil_l s : "" +:+ s = s.
Proof. reflexivity. Qed.

Lemma append_cons c a b : String c a +:+ b = String c (a +:+ b).
Proof. reflexivity. Qed.

Lemma append_nil_r s : s +:+ "" = s.
Proof. induction s as [|c s IH]; [done|]. by rewrite append_cons, IH. Qed.

Lemma append_assoc a b c : (a +:+ b) +:+ c = a +:+ (b +:+ c).
Proof.
  induction a as [|x a IH]; [done|]. by rewrite !append_cons, IH.
Qed.

Lemma length_append a b :
  String.length (a +:+ b) = (String.length a + String.length b)%nat.
Proof.
  induction a as [|x a IH]; [done|]. rewrite append_cons. cbn. by rewrite IH.
Qed.

Example replace_backslash_n :
  replace backslash_n "" ("ab" +:+ backslash_n +:+ "cd") = "abcd".
Proof. reflexivity. Qed.

Example replace_overlap : replace "aa" "b" "aaaaa" = "bba".
Proof. reflexivity. Qed.

Example replace_empty_old : replace "" "-" "abc" = "-a-b-c-".
Proof. reflexivity. Qed.

Example format_0d_examples :
  format_0d 2 7 = "07" ∧ format_0d 2 123 = "123" ∧ format_0d 3 7 = "007"
  ∧ format_0d 2 (-1) = "-1" ∧ format_0d 3 (-1) = "-01" ∧ format_0d 2 0 = "00".
Proof. by split_and!. Qed.

Example make_ass_style_default :
  _make_ass_style ASSStyleType_default
  = "Style: Default,Helvetica,60,&Hffffff,&Hffffff,&H0,&H0,0,0,0,0,100,100,0,0,1,5,0,2,10,10,30,1".
Proof. reflexivity. Qed.

Section split.
Variable sep : ascii.

Lemma char_free_nil : char_free sep "".
Proof. unfold char_free. cbn. apply not_elem_of_nil. Qed.

Lemma char_free_cons c s :
  char_free sep (String c s) ↔ c ≠ sep ∧ char_free sep s.
Proof.
  unfold char_free. cbn. rewrite not_elem_of_cons.
  split; (intros [H1 H2]; split; [congruence|done]).
Qed.

Lemma char_free_app a b :
  char_free sep (a +:+ b) ↔ char_free sep a ∧ char_free sep b.
Proof.
  induction a as [|c a IH].
  - cbn. split; [intros H; split; [apply char_free_nil|done] | by intros [_ H]].
  - change (String c a +:+ b) with (String c (a +:+ b)).
    rewrite !char_free_cons, IH. tauto.
Qed.

Lemma split_on_cons c s :
  split_on sep (String c s)
  = if Ascii.eqb c sep then "" :: split_on sep s
    else match split_on sep s with
         | [] => [String c ""]
         | w :: ws => String c w :: ws
         end.
Proof. reflexivity. Qed.

Lemma split_on_not_nil s : split_on sep s ≠ [].
Proof.
  destruct s as [|c s]; [done|]. rewrite split_on_cons.
  destruct (Ascii.eqb c sep); [done|]. by destruct (split_on sep s).
Qed.

Lemma split_on_char_free s : char_free sep s → split_on sep s = [s].
Proof.
  induction s as [|c s IH]; [done|].
  intros [Hc Hs]%char_free_cons. rewrite split_on_cons.
  apply Ascii.eqb_neq in Hc as ->. by rewrite IH.
Qed.

(** A field without the separator, the separator, then the rest. *)
Lemma split_on_field a b :
  char_free sep a →
  split_on sep (a +:+ String sep b) = a :: split_on sep b.
Proof.
  induction a as [|c a IH].
  - intros _. change ("" +:+ String sep b) with (String sep b).
    by rewrite split_on_cons, Ascii.eqb_refl.
  - intros [Hc Ha]%char_free_cons.
    change (String c a +:+ String sep b) with (String c (a +:+ String sep b)).
    rewrite split_on_cons. apply Ascii.eqb_neq in Hc as ->. by rewrite IH.
Qed.

(** Splitting distributes over a separator between two parts. *)
Lemma split_on_app_sep a b :
  split_on sep (a +:+ String sep b) = split_on sep a ++ split_on sep b.
Proof.
  induction a as [|c a IH].
  - change ("" +:+ String sep b) with (String sep b).
    by rewrite split_on_cons, Ascii.eqb_refl.
  - change (String c a +:+ String sep b) with (String c (a +:+ String sep b)).
    rewrite !split_on_cons, IH. destruct (Ascii.eqb c sep); [done|].
    pose proof (split_on_not_nil a). by destruct (split_on sep a).
Qed.

(** The rest of a line, the separator, then a last field without it. *)
Lemma split_on_last_field a b :
  char_free sep b →
  split_on sep (a +:+ String sep b) = split_on sep a ++ [b].
Proof.
  intros Hb. induction a as [|c a IH].
  - change ("" +:+ String sep b) with (String sep b).
    by rewrite split_on_cons, Ascii.eqb_refl, split_on_char_free.
  - change (String c a +:+ String sep b) with (String c (a +:+ String sep b)).
    rewrite !split_on_cons, IH. destruct (Ascii.eqb c sep); [done|].
    pose proof (split_on_not_nil a). by destruct (split_on sep a).
Qed.
End split.

(** ** Decimal numerals *)

Lemma string_of_uint_digits d :
  Forall is_digit (list_ascii_of_string (NilEmpty.string_of_uint d)).
Proof.
  induction d; cbn; constructor; try done; unfold is_digit; cbn; lia.
Qed.

Lemma str_int_nonneg_digits n :
  0 ≤ n → Forall is_digit (list_ascii_of_string (str_int n)).
Proof.
  intros Hn. unfold str_int. destruct n as [|p|p]; [| |lia]; cbn.
  - constructor; [unfold is_digit; cbn; lia|constructor].
  - apply string_of_uint_digits.
Qed.

Lemma str_int_comma_free n : char_free "," (str_int n).
Proof.
  assert (Hd : ∀ d, char_free "," (NilEmpty.string_of_uint d)).
  { intros d. unfold char_free. intros Hin.
    pose proof (string_of_uint_digits d) as Hall.
    rewrite Forall_forall in Hall. apply Hall in Hin.
    unfold is_digit in Hin. cbn in Hin. lia. }
  unfold str_int. destruct n as [|p|p]; cbn.
  - apply char_free_cons. split; [done|apply char_free_nil].
  - apply Hd.
  - apply char_free_cons. split; [done|apply Hd].
Qed.

(** ** The style line *)

(** One step of reading a line built as [a + "," + rest]. *)
Lemma split_comma_step a rest :
  split_on "," (a +:+ "," +:+ rest) = split_on "," a ++ split_on "," rest.
Proof. apply (split_on_app_sep "," a rest). Qed.

Lemma split_comma_field a rest :
  char_free "," a →
  split_on "," (a +:+ "," +:+ rest) = a :: split_on "," rest.
Proof. apply (split_on_field "," a rest). Qed.

Ltac split_commas :=
  repeat lazymatch goal with
    | |- context [split_on "," (?a +:+ "," +:+ ?rest)] =>
        rewrite (split_comma_step a rest)
    end.

(** The columns of a style line, read from the right: whatever the
    fields hold, the line ends in the Alignment column [2], the three
    margins and the Encoding column [1]. *)
Lemma make_ass_style_columns_tail s :
  ∃ front,
    split_on "," (_make_ass_style s)
    = front ++ ["2"; str_int (margin_l s); str_int (margin_r s);
                str_int (margin_v s); "1"].
Proof.
  unfold _make_ass_style.
  change (",2," +:+ ?x) with ("," +:+ "2" +:+ "," +:+ x).
  change (?x +:+ ",1") with (x +:+ "," +:+ "1").
  rewrite <- (append_assoc "Style: " (name s)).
  split_commas.
  rewrite !(split_on_char_free _ (str_int _)) by apply str_int_comma_free.
  eexists. rewrite !app_assoc. do 4 (rewrite <- app_assoc). reflexivity.
Qed.

(** C9. The alignment field does not reach the style line: replacing it
    by any direction leaves [_make_ass_style] unchanged.  Read from the
    right, the line always ends in the Alignment column [2], the three
    margin columns and the Encoding column [1]; and when the name, the font
    name and the four colours hold no comma, the line has the 23 columns of
    the Format header, with [2] in column 18 (Alignment) and [1] in column
    22 (Encoding). *)
Theorem make_ass_style_ignores_alignment (s : ASSStyleType) (d : Direction.t) :
  _make_ass_style (set_alignment d s) = _make_ass_style s ∧
  (∃ front,
     split_on "," (_make_ass_style s)
     = front ++ ["2"; str_int (margin_l s); str_int (margin_r s);
                 str_int (margin_v s); "1"]) ∧
  (char_free "," (name s) → char_free "," (font_name s) →
   char_free "," (primary_color s) → char_free "," (secondary_color s) →
   char_free "," (outline_color s) → char_free "," (back_color s) →
   split_on "," (_make_ass_style s)
   = [ "Style: " +:+ name s; font_name s; str_int (font_size s);
       primary_color s; secondary_color s; outline_color s; back_color s;
       str_int (int_of_bool (bold s)); str_int (int_of_bool (italic s));
       str_int (int_of_bool (underline s));
       str_int (int_of_bool (strike_out s));
       str_int (scale_x s); str_int (scale_y s); str_int (spacing s);
       str_int (angle s); str_int (border_style s); str_int (outline s);
       str_int (shadow s); "2"; str_int (margin_l s); str_int (margin_r s);
       str_int (margin_v s); "1" ]).
Proof.
  split_and!.
  - reflexivity.
  - apply make_ass_style_columns_tail.
  - intros Hname Hfont Hc1 Hc2 Hc3 Hc4.
    assert (Hhead : char_free "," ("Style: " +:+ name s)).
    { apply char_free_app. split; [compute_done|done]. }
    unfold _make_ass_style.
    change (",2," +:+ ?x) with ("," +:+ "2" +:+ "," +:+ x).
    change (?x +:+ ",1") with (x +:+ "," +:+ "1").
    rewrite <- (append_assoc "Style: " (name s)).
    split_commas.
    rewrite !(split_on_char_free _ (str_int _)) by apply str_int_comma_free.
    by rewrite !split_on_char_free by done.
Qed.

Lemma make_ass_style_ignores_alignment_witness :
  split_on ","
    (_make_ass_style (set_alignment Direction.TOP_LEFT ASSStyleType_default))
  = [ "Style: Default"; "Helvetica"; "60"; "&Hffffff"; "&Hffffff"; "&H0";
      "&H0"; "0"; "0"; "0"; "0"; "100"; "100"; "0"; "0"; "1"; "5"; "0"; "2";
      "10"; "10"; "30"; "1" ].
Proof.
  apply (proj2 (proj2 (make_ass_style_ignores_alignment
                         (set_alignment Direction.TOP_LEFT ASSStyleType_default)
                         Direction.CENTER)));
    compute_done.
Defined.

(** ** Floats and timestamps *)

Example float_rem_examples :
  float_rem 3661.5 60 = 1.5%float ∧ float_rem (-3661.5) 60 = 58.5%float
  ∧ float_rem 3661.5 (-60) = (-58.5)%float
  ∧ float_rem 0.25 1 = 0.25%float.
Proof. by vm_compute. Qed.

Example float_int_examples :
  float_int 3.75 = inr 3 ∧ float_int (-3.75) = inr (-3)
  ∧ float_int 1e22 = inr 10000000000000000000000
  ∧ float_int infinity
    = inl (OverflowError "cannot convert float infinity to integer").
Proof. by vm_compute. Qed.

Example get_time_examples :
  get_time 3661.5 = inr "01:01:01.50" ∧ get_time 0 = inr "00:00:00.00"
  ∧ get_time 360000 = inr "100:00:00.00"
  ∧ get_time 0x1.28f5c28f5c28fp-2 = inr "00:00:00.28".
Proof. by vm_compute. Qed.

Example write_srt_file_example :
  write_srt_file [0%float; 1.5%float] [1.5%float; 3%float] ["a"; "b"]
  = {| written :=
         Some ("1" +:+ LF +:+ "00:00:00,000 --> 00:00:01,500" +:+ LF
               +:+ "a" +:+ LF +:+ LF
               +:+ "2" +:+ LF +:+ "00:00:01,500 --> 00:00:03,000" +:+ LF
               +:+ "b" +:+ LF +:+ LF);
       raised := None |}.
Proof. by vm_compute. Qed.

(** ** The two SRT writers *)

Lemma prefix_true old s :
  String.prefix old s = true → ∃ b, s = old +:+ b.
Proof.
  revert s. induction old as [|c old IH]; intros s H.
  - by exists s.
  - destruct s as [|c' s]; [done|]. cbn in H.
    destruct (ascii_dec c c') as [->|]; [|done].
    apply IH in H as [b ->]. by exists b.
Qed.

Lemma replace_from_absent old new s :
  ¬ occurs old s → replace_from old new 0 s = s.
Proof.
  induction s as [|c s IH]; intros Hno; [done|].
  cbn [replace_from].
  destruct (String.prefix old (String c s)) eqn:Hp.
  - destruct Hno. apply prefix_true in Hp as [b ->]. by exists "", b.
  - rewrite IH; [done|]. intros (a & b & ->). apply Hno.
    by exists (String c a), b.
Qed.

Lemma replace_absent old new s :
  old ≠ "" → ¬ occurs old s → replace old new s = s.
Proof.
  intros Hold Hno. destruct old; [done|]. by apply replace_from_absent.
Qed.

Lemma cleaned_text_id s :
  ¬ occurs backslash_n s → ¬ occurs LF s → cleaned_text s = s.
Proof.
  intros H1 H2. unfold cleaned_text.
  rewrite (replace_absent backslash_n) by done. by apply replace_absent.
Qed.

Lemma srt_loops_agree (tl : list timeline_row) i srt :
  write_srt_loop
    (enumerate_from i
       (zip (start_time <$> tl) (zip (end_time <$> tl) (text <$> tl)))) srt
  = make_srt_loop (enumerate_from i (clean_row <$> tl)) srt.
Proof.
  revert i srt. induction tl as [|r tl IH]; intros i srt; [done|].
  cbn [fmap list_fmap zip zip_with enumerate_from write_srt_loop make_srt_loop].
  cbn [clean_row start_time end_time text].
  destruct (srt_time_line (start_time r) (end_time r)); [done|].
  apply IH.
Qed.

(** The row on which the two writers differ: its text holds the two
    characters backslash, n. *)
Example srt_writers_differ_on :
  let row := {| start_time := 0; end_time := 1; character := "zunda";
                hash := "0a1b2c"; text := "a" +:+ backslash_n +:+ "b";
                slide := 0; status := "n" |} in
  make_srt_file [row]
  = {| written := Some ("1" +:+ LF +:+ "00:00:00,000 --> 00:00:01,000" +:+ LF
                        +:+ "a" +:+ backslash_n +:+ "b" +:+ LF +:+ LF);
       raised := None |}
  ∧ write_srt_file [0%float] [1%float] ["a" +:+ backslash_n +:+ "b"]
  = {| written := Some ("1" +:+ LF +:+ "00:00:00,000 --> 00:00:01,000" +:+ LF
                        +:+ "ab" +:+ LF +:+ LF);
       raised := None |}.
Proof. by vm_compute. Qed.

(** C8, as stated, fails: on one row whose text is [a\nb] (with the two
    characters backslash, n) the writers leave different files. *)
Lemma srt_writers_differ :
  make_srt_file
    [ {| start_time := 0; end_time := 1; character := "zunda";
         hash := "0a1b2c"; text := "a" +:+ backslash_n +:+ "b";
         slide := 0; status := "n" |} ]
  ≠ write_srt_file [0%float] [1%float] ["a" +:+ backslash_n +:+ "b"].
Proof. vm_compute. discriminate. Qed.

(** C8, amended. On the same rows, [write_srt_file] leaves what
    [make_srt_file] leaves on the rows with each text cleaned of
    backslash-n pairs and newlines: same indices, same timestamp lines,
    the cleaned text.  So the two files are equal whenever no text holds a
    backslash-n pair or a newline. *)
Theorem srt_writers_agree_up_to_cleaning (tl : list timeline_row) :
  write_srt_file (start_time <$> tl) (end_time <$> tl) (text <$> tl)
  = make_srt_file (clean_row <$> tl)
  ∧ (Forall (λ r, ¬ occurs backslash_n (text r) ∧ ¬ occurs LF (text r)) tl →
     write_srt_file (start_time <$> tl) (end_time <$> tl) (text <$> tl)
     = make_srt_file tl).
Proof.
  assert (Hgen :
    write_srt_file (start_time <$> tl) (end_time <$> tl) (text <$> tl)
    = make_srt_file (clean_row <$> tl)).
  { unfold write_srt_file, make_srt_file.
    rewrite bool_decide_true by (by rewrite !length_fmap).
    cbn [negb]. apply srt_loops_agree. }
  split; [done|]. intros Hclean. rewrite Hgen. f_equal. clear Hgen.
  induction Hclean as [|r tl' [H1 H2] _ IH]; [done|].
  cbn [fmap list_fmap]. rewrite IH. f_equal.
  destruct r as [t0 t1 c h x sl st]. unfold clean_row.
  cbn [start_time end_time character hash text slide status] in *.
  by rewrite cleaned_text_id.
Qed.

Lemma srt_writers_agree_up_to_cleaning_witness :
  write_srt_file [0%float; 1.5%float] [1.5%float; 3%float] ["a"; "b c"]
  = make_srt_file
      [ {| start_time := 0; end_time := 1.5; character := "zunda";
           hash := "0a1b2c"; text := "a"; slide := 0; status := "n" |};
        {| start_time := 1.5; end_time := 3; character := "metan";
           hash := "3d4e5f"; text := "b c"; slide := 1; status := "n" |} ].
Proof.
  apply (proj2 (srt_writers_agree_up_to_cleaning
    [ {| start_time := 0; end_time := 1.5; character := "zunda";
         hash := "0a1b2c"; text := "a"; slide := 0; status := "n" |};
      {| start_time := 1.5; end_time := 3; character := "metan";
         hash := "3d4e5f"; text := "b c"; slide := 1; status := "n" |} ])).
  repeat constructor; cbn [text];
    intros (a & b & H);
    apply (f_equal list_ascii_of_string) in H;
    (destruct a as [|? [|? [|? [|? a]]]]; cbn in H; discriminate).
Defined.


(** ** The timeline *)

Section timeline_chain.
Context (_get_audio_length : string → float) (read_text : string → string)
  (_get_hash_prefix : string → string)
  (_insert_newlines : string → Z → string)
  (filename_stem : string → string)
  (max_length : Z) (prev_timeline : option (list timeline_row)).

Local Abbreviation loop :=
  (timeline_loop _get_audio_length read_text _get_hash_prefix
     _insert_newlines filename_stem max_length prev_timeline).
Local Abbreviation known_character := (known_character filename_stem).

Lemma timeline_loop_cons wav_file txt_file clips start rows :
  loop ((wav_file, txt_file) :: clips) start = inr rows →
  ∃ r rows',
    rows = r :: rows' ∧ start_time r = start
    ∧ end_time r = (start + _get_audio_length wav_file)%float
    ∧ loop clips (end_time r) = inr rows'.
Proof.
  cbn [timeline_loop]. intros H.
  destruct (list_getitem _ 1) as [|c]; [done|]. cbn [bind] in H.
  destruct (dict_getitem _ c) as [|n]; [done|]. cbn [bind] in H.
  destruct (get_extra_columns _ _ _ _ _) as [[x sl] st].
  destruct (loop clips _) as [|rows'] eqn:Hrest; [done|].
  cbn [bind ret] in H. injection H as <-. eauto 10.
Qed.

Lemma timeline_loop_returns clips start :
  Forall (λ clip, known_character clip.2) clips →
  ∃ rows, loop clips start = inr rows.
Proof.
  intros Hall. revert start.
  induction Hall as [|[wav_file txt_file] clips (c & n & Hc & Hn) _ IH];
    intros start; [by eexists|].
  cbn [timeline_loop]. unfold list_getitem, dict_getitem.
  cbn [snd] in Hc. rewrite Hc. cbn [bind ret]. rewrite Hn. cbn [bind ret].
  destruct (get_extra_columns _ _ _ _ _) as [[x sl] st].
  destruct (IH (start + _get_audio_length wav_file)%float) as [rows ->].
  by eexists.
Qed.

Lemma timeline_loop_chain clips start rows :
  loop clips start = inr rows →
  length rows = length clips
  ∧ (∀ r, rows !! 0%nat = Some r → start_time r = start)
  ∧ (∀ i r, rows !! i = Some r →
       ∃ clip, clips !! i = Some clip
               ∧ end_time r
                 = (start_time r + _get_audio_length clip.1)%float)
  ∧ (∀ i r r', rows !! i = Some r → rows !! S i = Some r' →
       start_time r' = end_time r).
Proof.
  revert start rows.
  induction clips as [|[wav_file txt_file] clips IH]; intros start rows H.
  - injection H as <-. by split_and!.
  - apply timeline_loop_cons in H as (r & rows' & -> & Hs & He & Hrest).
    destruct (IH _ _ Hrest) as (Hlen & Hfirst & Hdur & Hnext). split_and!.
    + cbn. by rewrite Hlen.
    + intros r0 [= <-]. done.
    + intros [|i] r0 Hr0.
      * injection Hr0 as <-. exists (wav_file, txt_file).
        split; [done|]. by rewrite He, Hs.
      * by apply Hdur.
    + intros [|i] r0 r1 Hr0 Hr1.
      * injection Hr0 as <-. by apply Hfirst.
      * by apply (Hnext i).
Qed.

(** C10. The rows [make_timeline_file] writes tile the time axis: there
    is one row per clip, the first row starts at 0, each row ends at its
    start plus the duration of its wav file, and each later row starts
    where the row before it ends.  The rows are written whenever every
    text file name yields a known character (otherwise the function
    raises and writes nothing). *)
Theorem make_timeline_file_contiguous (wav_files txt_files : list string) :
  (Forall known_character (take (length wav_files) txt_files) →
   ∃ rows,
     make_timeline_file _get_audio_length read_text _get_hash_prefix
       _insert_newlines filename_stem max_length prev_timeline
       wav_files txt_files = inr rows)
  ∧ ∀ rows,
      make_timeline_file _get_audio_length read_text _get_hash_prefix
        _insert_newlines filename_stem max_length prev_timeline
        wav_files txt_files = inr rows →
      length rows = (length wav_files `min` length txt_files)%nat
      ∧ (∀ r, rows !! 0%nat = Some r → start_time r = 0%float)
      ∧ (∀ i r, rows !! i = Some r →
           ∃ wav_file, wav_files !! i = Some wav_file
             ∧ end_time r
               = (start_time r + _get_audio_length wav_file)%float)
      ∧ (∀ i r r', rows !! i = Some r → rows !! S i = Some r' →
           start_time r' = end_time r).
Proof.
  unfold make_timeline_file. split.
  - intros Hall. apply timeline_loop_returns.
    apply Forall_forall. intros [w x] Hin. cbn [snd].
    apply list_elem_of_lookup in Hin as [i Hi].
    apply lookup_zip_with_Some in Hi as (w' & x' & [= <- <-] & Hw & Hx).
    rewrite Forall_forall in Hall. apply Hall.
    apply list_elem_of_lookup. exists i.
    rewrite lookup_take_lt; [done|]. by apply lookup_lt_Some in Hw.
  - intros rows H.
    apply timeline_loop_chain in H as (Hlen & Hfirst & Hdur & Hnext).
    split_and!; [|done| |done].
    + by rewrite Hlen, length_zip.
    + intros i r Hr. destruct (Hdur i r Hr) as ([w x] & Hi & He).
      apply lookup_zip_with_Some in Hi as (w' & x' & [= <- <-] & Hw & Hx).
      eauto.
Qed.

End timeline_chain.

Lemma make_timeline_file_contiguous_witness :
  ∃ rows,
    make_timeline_file
      (λ wav_file, if String.eqb wav_file "001.wav" then 1.5 else 2.25)%float
      (λ _, "hello") (λ _, "aaf4c6") (λ raw_text _, raw_text) (λ p, p)
      25 None
      ["001.wav"; "002.wav"]
      ["001_ずんだもん（ノーマル）_001"; "002_四国めたん（ノーマル）_002"]
    = inr rows
    ∧ length rows = 2%nat.
Proof.
  pose proof (make_timeline_file_contiguous
    (λ wav_file, if String.eqb wav_file "001.wav" then 1.5 else 2.25)%float
    (λ _, "hello") (λ _, "aaf4c6") (λ raw_text _, raw_text) (λ p, p)
    25 None
    ["001.wav"; "002.wav"]
    ["001_ずんだもん（ノーマル）_001"; "002_四国めたん（ノーマル）_002"])
    as [Hret Hchain].
  destruct Hret as [rows Hrows].
  { repeat constructor; eexists _, _; split; vm_compute; reflexivity. }
  exists rows. split; [exact Hrows|]. apply (Hchain rows Hrows).
Defined.

Example make_timeline_file_example :
  make_timeline_file
    (λ wav_file, if String.eqb wav_file "001.wav" then 1.5 else 2.25)%float
    (λ _, "hello") (λ _, "aaf4c6") (λ raw_text _, raw_text) (λ p, p)
    25 None
    ["001.wav"; "002.wav"]
    ["001_ずんだもん（ノーマル）_001"; "002_四国めたん（ノーマル）_002"]
  = inr [ {| start_time := 0; end_time := 1.5; character := "zunda";
             hash := "aaf4c6"; text := "hello"; slide := 0; status := "n" |};
          {| start_time := 1.5; end_time := 3.75; character := "metan";
             hash := "aaf4c6"; text := "hello"; slide := 0; status := "n" |} ].
Proof. vm_compute. reflexivity. Qed.

Example make_timeline_file_unknown_character :
  make_timeline_file (λ _, 1%float) (λ _, "hello") (λ _, "aaf4c6")
    (λ raw_text _, raw_text) (λ p, p) 25 None ["001.wav"] ["001_nobody_001"]
  = inl (KeyError "nobody").
Proof. vm_compute. reflexivity. Qed.

(** ** Binary digits *)

Lemma digits2_pos_size p : digits2_pos p = Pos.size p.
Proof. induction p; cbn; congruence. Qed.

Lemma Zdigits2_pos_bounds p :
  2 ^ (Zdigits2 (Z.pos p) - 1) ≤ Z.pos p < 2 ^ Zdigits2 (Z.pos p).
Proof.
  cbn [Zdigits2]. rewrite digits2_pos_size.
  pose proof (Pos.size_gt p) as Hgt. pose proof (Pos.size_le p) as Hle.
  apply Pos2Z.pos_lt_pos in Hgt. apply Pos2Z.pos_le_pos in Hle.
  rewrite Pos2Z.inj_pow in Hgt, Hle.
  change (Z.pos p~0) with (2 * Z.pos p) in Hle.
  replace (Z.pos (Pos.size p)) with (Z.succ (Z.pos (Pos.size p) - 1)) in Hle
    by lia.
  rewrite Z.pow_succ_r in Hle by lia. lia.
Qed.

Lemma Zdigits2_nonneg m : 0 ≤ Zdigits2 m.
Proof. destruct m; cbn; lia. Qed.

Lemma Zdigits2_le m k : 0 ≤ m < 2 ^ k → 0 ≤ k → Zdigits2 m ≤ k.
Proof.
  intros [Hm Hlt] Hk. destruct m as [|p|p]; [done| |lia].
  pose proof (Zdigits2_pos_bounds p) as [Hlo _].
  destruct (Z.le_gt_cases (Zdigits2 (Z.pos p)) k) as [|Hgt]; [done|].
  assert (2 ^ k ≤ 2 ^ (Zdigits2 (Z.pos p) - 1))
    by (apply Z.pow_le_mono_r; lia).
  lia.
Qed.

Lemma Zdigits2_ge m k : 2 ^ (k - 1) ≤ m → 1 ≤ k → k ≤ Zdigits2 m.
Proof.
  intros Hm Hk. assert (0 < 2 ^ (k - 1)) by (apply Z.pow_pos_nonneg; lia).
  destruct m as [|p|p]; [lia| |lia].
  pose proof (Zdigits2_pos_bounds p) as [_ Hhi].
  destruct (Z.le_gt_cases k (Zdigits2 (Z.pos p))) as [|Hgt]; [done|].
  assert (2 ^ Zdigits2 (Z.pos p) ≤ 2 ^ (k - 1))
    by (apply Z.pow_le_mono_r; lia).
  lia.
Qed.

Lemma Zdigits2_lt_pow m : 0 ≤ m → m < 2 ^ Zdigits2 m.
Proof.
  intros Hm. destruct m as [|p|p]; [done| |lia]. apply Zdigits2_pos_bounds.
Qed.

Lemma Zdigits2_mono a b : 0 ≤ a ≤ b → Zdigits2 a ≤ Zdigits2 b.
Proof.
  intros [Ha Hab]. apply Zdigits2_le; [|apply Zdigits2_nonneg].
  pose proof (Zdigits2_lt_pow b). lia.
Qed.

Lemma Zdigits2_succ m : 0 ≤ m → Zdigits2 (m + 1) ≤ Zdigits2 m + 1.
Proof.
  intros Hm. pose proof (Zdigits2_nonneg m).
  apply Zdigits2_le; [|lia].
  pose proof (Zdigits2_lt_pow m Hm).
  rewrite Z.pow_add_r by lia. lia.
Qed.

Lemma Zdigits2_div_pow2 m n :
  0 ≤ m → 0 ≤ n → Zdigits2 (m / 2 ^ n) ≤ Z.max 0 (Zdigits2 m - n).
Proof.
  intros Hm Hn. assert (0 < 2 ^ n) by (apply Z.pow_pos_nonneg; lia).
  pose proof (Zdigits2_lt_pow m Hm) as Hlt.
  pose proof (Zdigits2_nonneg m).
  apply Zdigits2_le; [|lia]. split; [apply Z.div_pos; lia|].
  apply Z.div_lt_upper_bound; [lia|].
  rewrite <- Z.pow_add_r by lia.
  eapply Z.lt_le_trans; [exact Hlt|]. apply Z.pow_le_mono_r; lia.
Qed.

Lemma Zdigits2_mul a b :
  0 ≤ a → 0 ≤ b → Zdigits2 (a * b) ≤ Zdigits2 a + Zdigits2 b.
Proof.
  intros Ha Hb. pose proof (Zdigits2_nonneg a). pose proof (Zdigits2_nonneg b).
  apply Zdigits2_le; [|lia].
  pose proof (Zdigits2_lt_pow a Ha). pose proof (Zdigits2_lt_pow b Hb).
  rewrite Z.pow_add_r by lia. nia.
Qed.

Lemma Zdigits2_div a b :
  0 ≤ a → 0 < b → Zdigits2 (a / b) ≤ Z.max 0 (Zdigits2 a - Zdigits2 b + 1).
Proof.
  intros Ha Hb. pose proof (Zdigits2_nonneg a).
  destruct b as [|p|p]; [lia| |lia].
  pose proof (Zdigits2_pos_bounds p) as [Hlo _].
  pose proof (Zdigits2_lt_pow a Ha) as Hlt.
  set (da := Zdigits2 a) in *. set (db := Zdigits2 (Z.pos p)) in *.
  assert (1 ≤ db) by (subst db; cbn; lia).
  apply Zdigits2_le; [|lia]. split; [apply Z.div_pos; lia|].
  apply Z.div_lt_upper_bound; [lia|].
  assert (0 < 2 ^ (db - 1)) by (apply Z.pow_pos_nonneg; lia).
  assert (0 < 2 ^ Z.max 0 (da - db + 1)) by (apply Z.pow_pos_nonneg; lia).
  assert (2 ^ da ≤ 2 ^ (db - 1) * 2 ^ Z.max 0 (da - db + 1)).
  { rewrite <- Z.pow_add_r by lia. apply Z.pow_le_mono_r; lia. }
  nia.
Qed.

(** ** Shifting a mantissa right *)

Lemma shr_1_spec m r s :
  0 ≤ m →
  shr_m (shr_1 {| shr_m := m; shr_r := r; shr_s := s |}) = m / 2
  ∧ shr_r (shr_1 {| shr_m := m; shr_r := r; shr_s := s |}) = Z.testbit m 0.
Proof.
  intros Hm. rewrite Z.bit0_odd, <- Z.div2_div.
  destruct m as [|[p|p|]|]; try lia; done.
Qed.

Lemma shr_iter_spec p mrs :
  0 ≤ shr_m mrs →
  shr_m (SpecFloat.iter_pos shr_1 p mrs) = shr_m mrs / 2 ^ Z.pos p
  ∧ shr_r (SpecFloat.iter_pos shr_1 p mrs) = Z.testbit (shr_m mrs) (Z.pos p - 1).
Proof.
  revert mrs. induction p as [p IH|p IH|]; intros mrs Hm; cbn [SpecFloat.iter_pos].
  - destruct mrs as [m r s]. cbn [shr_m] in *.
    destruct (shr_1_spec m r s Hm) as [H1 _].
    assert (H0 : 0 ≤ shr_m (shr_1 {| shr_m := m; shr_r := r; shr_s := s |})).
    { rewrite H1. apply Z.div_pos; lia. }
    destruct (IH _ H0) as [Ha Hb].
    assert (H0' : 0 ≤ shr_m (SpecFloat.iter_pos shr_1 p
                     (shr_1 {| shr_m := m; shr_r := r; shr_s := s |}))).
    { rewrite Ha. apply Z.div_pos; [done|]. apply Z.pow_pos_nonneg; lia. }
    destruct (IH _ H0') as [Hc Hd].
    assert (0 < 2 ^ Z.pos p) by (apply Z.pow_pos_nonneg; lia).
    split.
    + rewrite Hc, Ha, H1. rewrite !Z.div_div by lia.
      f_equal. rewrite <- Z.pow_add_r by lia.
      change 2 with (2 ^ 1) at 1. rewrite <- Z.pow_add_r by lia.
      f_equal. lia.
    + rewrite Hd, Ha, H1.
      rewrite Z.div_div by lia.
      replace (2 * 2 ^ Z.pos p) with (2 ^ (1 + Z.pos p))
        by (rewrite Z.pow_add_r by lia; lia).
      rewrite Z.div_pow2_bits by lia. f_equal. lia.
  - assert (0 < 2 ^ Z.pos p) by (apply Z.pow_pos_nonneg; lia).
    destruct (IH _ Hm) as [Ha Hb].
    assert (H0' : 0 ≤ shr_m (SpecFloat.iter_pos shr_1 p mrs)).
    { rewrite Ha. apply Z.div_pos; lia. }
    destruct (IH _ H0') as [Hc Hd]. split.
    + rewrite Hc, Ha. rewrite Z.div_div by lia. f_equal.
      rewrite <- Z.pow_add_r by lia. f_equal. lia.
    + rewrite Hd, Ha. rewrite Z.div_pow2_bits by lia. f_equal. lia.
  - destruct mrs as [m r s]. cbn [shr_m] in *.
    destruct (shr_1_spec m r s Hm) as [H1 H2]. split.
    + by rewrite H1.
    + by rewrite H2.
Qed.

Lemma loc_of_shr_record_of_loc m l :
  loc_of_shr_record (shr_record_of_loc m l) = l.
Proof. by destruct l as [|[]]. Qed.

Lemma shr_m_of_loc m l : shr_m (shr_record_of_loc m l) = m.
Proof. by destruct l as [|[]]. Qed.

(** What [shr] leaves: the mantissa divided by [2 ^ n] and the exponent
    raised by [n], for the number of places [n] that is shifted. *)
Lemma shr_spec m l e n :
  0 ≤ m →
  let k := Z.max 0 n in
  shr_m (fst (shr (shr_record_of_loc m l) e n)) = m / 2 ^ k
  ∧ snd (shr (shr_record_of_loc m l) e n) = e + k
  ∧ (0 < n →
     shr_r (fst (shr (shr_record_of_loc m l) e n)) = Z.testbit m (n - 1))
  ∧ (n ≤ 0 →
     loc_of_shr_record (fst (shr (shr_record_of_loc m l) e n)) = l).
Proof.
  intros Hm k. subst k. destruct n as [|p|p]; cbn [shr fst snd].
  - rewrite shr_m_of_loc, loc_of_shr_record_of_loc, Z.div_1_r.
    split_and!; [done|lia|lia|done].
  - destruct (shr_iter_spec p (shr_record_of_loc m l)) as [Ha Hb].
    { by rewrite shr_m_of_loc. }
    rewrite shr_m_of_loc in Ha, Hb.
    replace (Z.max 0 (Z.pos p)) with (Z.pos p) by lia.
    split_and!; [done|done|done|lia].
  - rewrite shr_m_of_loc, loc_of_shr_record_of_loc.
    replace (Z.max 0 (Z.neg p)) with 0 by lia. rewrite Z.div_1_r.
    split_and!; [done|lia|lia|done].
Qed.

Lemma round_nearest_even_bounds m mrs :
  shr_m mrs = m →
  m ≤ round_nearest_even m (loc_of_shr_record mrs) ≤ m + 1
  ∧ (round_nearest_even m (loc_of_shr_record mrs) = m + 1 →
     shr_r mrs = true).
Proof.
  intros <-. destruct mrs as [m [] []]; cbn; try destruct (Z.even m); lia.
Qed.

(** ** Rounding to binary64 *)

(** [binary_round_aux] on a mantissa [mx ≥ 0]: the mantissa is cut to
    [mx / 2 ^ n1], rounded to [m1] (up only when the highest bit cut off
    is set), and cut once more when rounding carried into a new digit. *)
Lemma binary_round_aux_spec sx mx ex lx :
  0 ≤ mx →
  ∃ m1 : Z,
    let n1 := Z.max 0 (fexp prec emax (Zdigits2 mx + ex) - ex) in
    let e1 := ex + n1 in
    let n2 := Z.max 0 (fexp prec emax (Zdigits2 m1 + e1) - e1) in
    mx / 2 ^ n1 ≤ m1 ≤ mx / 2 ^ n1 + 1
    ∧ (m1 = mx / 2 ^ n1 + 1 →
       (0 < n1 ∧ Z.testbit mx (n1 - 1) = true) ∨ (n1 = 0 ∧ lx ≠ loc_Exact))
    ∧ binary_round_aux prec emax sx mx ex lx
      = match m1 / 2 ^ n2 with
        | 0 => S754_zero sx
        | Z.pos m =>
            if e1 + n2 <=? emax - prec then S754_finite sx m (e1 + n2)
            else S754_infinity sx
        | Z.neg _ => S754_nan
        end.
Proof.
  intros Hmx. unfold binary_round_aux, shr_fexp.
  set (n := fexp prec emax (Zdigits2 mx + ex) - ex).
  destruct (shr_spec mx lx ex n Hmx) as (Hm & He & Hr & Hl).
  destruct (shr (shr_record_of_loc mx lx) ex n) as [mrs' e'].
  cbn [fst snd] in *. subst e'.
  assert (0 < 2 ^ Z.max 0 n) by (apply Z.pow_pos_nonneg; lia).
  destruct (round_nearest_even_bounds _ mrs' eq_refl) as [Hb Hup].
  set (m1 := round_nearest_even (shr_m mrs') (loc_of_shr_record mrs')) in *.
  rewrite Hm in Hb, Hup.
  assert (Hm1 : 0 ≤ m1).
  { assert (0 ≤ mx / 2 ^ Z.max 0 n) by (apply Z.div_pos; lia). lia. }
  exists m1. cbn zeta. split; [done|]. split.
  - intros Heq. specialize (Hup Heq).
    destruct (Z.lt_ge_cases 0 n) as [Hn|Hn].
    + left. replace (Z.max 0 n) with n by lia. split; [done|].
      by rewrite <- Hr.
    + right. split; [lia|]. intros ->. specialize (Hl Hn).
      destruct mrs' as [? [] []]; discriminate.
  - set (n' := fexp prec emax (Zdigits2 m1 + (ex + Z.max 0 n))
               - (ex + Z.max 0 n)).
    destruct (shr_spec m1 loc_Exact (ex + Z.max 0 n) n' Hm1)
      as (Hm' & He' & _ & _).
    destruct (shr (shr_record_of_loc m1 loc_Exact) (ex + Z.max 0 n) n')
      as [mrs'' e''].
    cbn [fst snd] in *. subst e''. by rewrite Hm'.
Qed.

(** The result is never a NaN and keeps the sign; it is finite when the
    exponent and the magnitude leave room. *)
Lemma binary_round_aux_finite sx mx ex lx :
  0 ≤ mx → ex ≤ emax - prec → Zdigits2 mx + ex ≤ emax - 1 →
  binary_round_aux prec emax sx mx ex lx = S754_zero sx
  ∨ ∃ m e, binary_round_aux prec emax sx mx ex lx = S754_finite sx m e.
Proof.
  intros Hmx Hex Hd.
  destruct (binary_round_aux_spec sx mx ex lx Hmx) as (m1 & Hb & _ & ->).
  cbn zeta in *.
  set (n1 := Z.max 0 (fexp prec emax (Zdigits2 mx + ex) - ex)) in *.
  set (e1 := ex + n1) in *.
  set (n2 := Z.max 0 (fexp prec emax (Zdigits2 m1 + e1) - e1)).
  assert (0 < 2 ^ n1) by (apply Z.pow_pos_nonneg; lia).
  assert (0 < 2 ^ n2) by (apply Z.pow_pos_nonneg; lia).
  assert (Hq : 0 ≤ mx / 2 ^ n1) by (apply Z.div_pos; lia).
  assert (0 ≤ m1 / 2 ^ n2) by (apply Z.div_pos; lia).
  destruct (m1 / 2 ^ n2) as [|m|m] eqn:Hm; [by left| |lia].
  right. assert (He : e1 + n2 ≤ emax - prec); [|].
  { pose proof (Zdigits2_div_pow2 mx n1 Hmx ltac:(lia)) as Hdq.
    assert (Hd1 : Zdigits2 m1 ≤ Zdigits2 (mx / 2 ^ n1) + 1).
    { etrans; [|apply Zdigits2_succ; lia]. apply Zdigits2_mono. lia. }
    unfold fexp, emin, prec, emax in *. lia. }
  apply Z.leb_le in He. rewrite He. eauto.
Qed.

(** ** Valid binary64 numbers *)

Lemma valid_finite_bounds s m e :
  valid_binary (S754_finite s m e) = true →
  fexp prec emax (Zdigits2 (Z.pos m) + e) = e
  ∧ -1074 ≤ e ≤ 971 ∧ 1 ≤ Zdigits2 (Z.pos m) ≤ 53.
Proof.
  cbn [SpecFloat.valid_binary]. unfold bounded, canonical_mantissa.
  intros [Hc He]%andb_true_iff. apply Z.eqb_eq in Hc. apply Z.leb_le in He.
  change (Z.pos (digits2_pos m)) with (Zdigits2 (Z.pos m)) in Hc.
  split; [done|]. unfold fexp, emin, prec, emax in *.
  assert (1 ≤ Zdigits2 (Z.pos m)) by (cbn; lia). lia.
Qed.

Lemma valid_finite_intro s m e :
  fexp prec emax (Zdigits2 (Z.pos m) + e) = e → e ≤ 971 →
  valid_binary (S754_finite s m e) = true.
Proof.
  intros Hc He. cbn [SpecFloat.valid_binary].
  unfold bounded, canonical_mantissa.
  change (Z.pos (digits2_pos m)) with (Zdigits2 (Z.pos m)).
  apply andb_true_iff. split; [by apply Z.eqb_eq|].
  apply Z.leb_le. unfold prec, emax. lia.
Qed.


(** ** Division by a constant of at least 2 *)

Lemma Z_div_eucl_fst a b : fst (Z.div_eucl a b) = a / b.
Proof. reflexivity. Qed.

Lemma SFdiv_nonneg_finite mx ex my ey :
  valid_binary (S754_finite false mx ex) = true →
  2 ≤ Zdigits2 (Z.pos my) + ey →
  nonneg_finite
    (SFdiv prec emax (S754_finite false mx ex) (S754_finite false my ey)).
Proof.
  intros (Hcx & Hex & Hdx)%valid_finite_bounds Hy.
  cbn [SFdiv xorb]. unfold SFdiv_core_binary.
  set (d1 := Zdigits2 (Z.pos mx)) in *. set (d2 := Zdigits2 (Z.pos my)) in *.
  set (e' := Z.min (fexp prec emax (d1 + ex - (d2 + ey))) (ex - ey)).
  set (s := ex - ey - e').
  set (m' := match s with
             | 0 => Z.pos mx | Z.pos _ => Z.shiftl (Z.pos mx) s | Z.neg _ => 0
             end).
  assert (Hs : 0 ≤ s) by (subst s e'; lia).
  assert (Hm' : m' = Z.pos mx * 2 ^ s).
  { subst m'. destruct s as [|p|p] eqn:Es; [lia| |lia].
    by rewrite Z.shiftl_mul_pow2. }
  assert (0 < 2 ^ s) by (apply Z.pow_pos_nonneg; lia).
  pose proof (Z_div_eucl_fst m' (Z.pos my)) as Hq.
  destruct (Z.div_eucl m' (Z.pos my)) as [q r]. cbn [fst] in Hq. subst q.
  assert (Hq0 : 0 ≤ m' / Z.pos my) by (apply Z.div_pos; lia).
  assert (Hdm : Zdigits2 m' ≤ d1 + s).
  { apply Zdigits2_le; [|lia]. rewrite Hm', Z.pow_add_r by lia.
    pose proof (Zdigits2_lt_pow (Z.pos mx) ltac:(lia)). fold d1 in H0. nia. }
  pose proof (Zdigits2_div m' (Z.pos my) ltac:(lia) ltac:(lia)) as Hdq.
  fold d2 in Hdq.
  assert (He' : e' ≤ 969).
  { subst e'. unfold fexp, emin, prec, emax. lia. }
  destruct (binary_round_aux_finite false (m' / Z.pos my) e'
              (new_location (Z.pos my) r) Hq0) as [->|(m & e & ->)]; try done.
  - unfold prec, emax. lia.
  - unfold prec, emax. subst s. lia.
Qed.

(** ** Exact results *)

Lemma shl_align_spec m e e' :
  let '(mz, ez) := shl_align m e e' in
  ez = Z.min e e' ∧ Z.pos mz = Z.pos m * 2 ^ (e - ez).
Proof.
  unfold shl_align. destruct (e' - e) as [|d|d] eqn:Hd.
  - replace (Z.min e e') with e by lia. rewrite Z.sub_diag. lia.
  - replace (Z.min e e') with e by lia. rewrite Z.sub_diag. lia.
  - replace (Z.min e e') with e' by lia. split; [done|].
    replace (e - e') with (Z.pos d) by lia.
    change (Pos.iter xO m d) with (shift_pos d m).
    rewrite shift_pos_correct, Z.pow_pos_fold. lia.
Qed.

(** Rounding a number that is already in canonical form changes nothing. *)
Lemma binary_round_aux_canonical sx m e :
  fexp prec emax (Zdigits2 (Z.pos m) + e) = e → e ≤ 971 →
  binary_round_aux prec emax sx (Z.pos m) e loc_Exact = S754_finite sx m e.
Proof.
  intros Hc He.
  destruct (binary_round_aux_spec sx (Z.pos m) e loc_Exact ltac:(lia))
    as (m1 & Hb & Hup & ->).
  cbn zeta in *. rewrite Hc, Z.sub_diag in *.
  change (Z.max 0 0) with 0 in *. rewrite Z.add_0_r, Z.div_1_r in *.
  assert (m1 = Z.pos m) as ->.
  { destruct (Z.eq_dec m1 (Z.pos m + 1)) as [Heq|]; [|lia].
    destruct (Hup Heq) as [[? _]|[_ ?]]; [lia|done]. }
  rewrite Hc, Z.sub_diag. change (Z.max 0 0) with 0.
  rewrite Z.add_0_r, Z.div_1_r.
  assert ((e <=? emax - prec) = true) as ->; [|done].
  apply Z.leb_le. unfold prec, emax. lia.
Qed.

(** A positive number [r * 2 ^ e] with at most 53 digits and an exponent
    in range is a binary64 number: [binary_round] returns it unchanged, in
    canonical form. *)
Lemma binary_round_exact r e :
  Zdigits2 (Z.pos r) ≤ 53 → -1074 ≤ e ≤ 971 →
  ∃ mz ez,
    binary_round prec emax false r e = S754_finite false mz ez
    ∧ valid_binary (S754_finite false mz ez) = true
    ∧ -1074 ≤ ez ≤ e ∧ Z.pos mz = Z.pos r * 2 ^ (e - ez).
Proof.
  intros Hd He. unfold binary_round.
  change (Z.pos (digits2_pos r)) with (Zdigits2 (Z.pos r)).
  set (e' := fexp prec emax (Zdigits2 (Z.pos r) + e)).
  pose proof (shl_align_spec r e e') as Hsh.
  destruct (shl_align r e e') as [mz ez]. destruct Hsh as [Hez Hmz].
  assert (Hle : e' ≤ e) by (subst e'; unfold fexp, emin, prec, emax; lia).
  assert (ez = e') as -> by lia.
  assert (Hc : fexp prec emax (Zdigits2 (Z.pos mz) + e') = e').
  { assert (Zdigits2 (Z.pos mz) = Zdigits2 (Z.pos r) + (e - e')) as ->;
      [|subst e'; unfold fexp, emin, prec, emax in *; lia].
    assert (0 < 2 ^ (e - e')) by (apply Z.pow_pos_nonneg; lia).
    pose proof (Zdigits2_pos_bounds r) as [Hlo Hhi].
    assert (1 ≤ Zdigits2 (Z.pos r)) by (cbn; lia).
    apply Z.le_antisymm.
    - apply Zdigits2_le; [|lia]. rewrite Hmz, Z.pow_add_r by lia. nia.
    - apply Zdigits2_ge; [|lia]. rewrite Hmz.
      replace (Zdigits2 (Z.pos r) + (e - e') - 1)
        with (Zdigits2 (Z.pos r) - 1 + (e - e')) by lia.
      rewrite Z.pow_add_r by lia. nia. }
  exists mz, e'. rewrite binary_round_aux_canonical by (done || lia).
  split_and!; [done|apply valid_finite_intro; (done || lia)| |lia|done].
  subst e'. unfold fexp, emin, prec, emax. lia.
Qed.

(** [fmod] of two positive numbers: zero, or a positive binary64 number
    below the divisor. *)
Lemma SFfmod_pos_spec mx ex my ey :
  valid_binary (S754_finite false mx ex) = true →
  valid_binary (S754_finite false my ey) = true →
  SFfmod (S754_finite false mx ex) (S754_finite false my ey) = S754_zero false
  ∨ ∃ mz ez,
      SFfmod (S754_finite false mx ex) (S754_finite false my ey)
      = S754_finite false mz ez
      ∧ valid_binary (S754_finite false mz ez) = true
      ∧ ez ≤ ey ∧ Z.pos mz < Z.pos my * 2 ^ (ey - ez).
Proof.
  intros (_ & Hex & Hdx)%valid_finite_bounds (_ & Hey & Hdy)%valid_finite_bounds.
  cbn [SFfmod cond_Zopp]. set (e := Z.min ex ey).
  set (X := Z.pos mx * 2 ^ (ex - e)). set (Y := Z.pos my * 2 ^ (ey - e)).
  assert (0 < 2 ^ (ex - e)) by (apply Z.pow_pos_nonneg; lia).
  assert (0 < 2 ^ (ey - e)) by (apply Z.pow_pos_nonneg; lia).
  assert (HY : 0 < Y) by (subst Y; lia).
  pose proof (Z.mod_pos_bound X Y HY) as [Hr0 HrY].
  assert (HrX : X mod Y ≤ X) by (apply Z.mod_le; subst X; lia).
  destruct (X mod Y) as [|r|r] eqn:Hr; [by left| |lia]. right.
  cbn [binary_normalize].
  assert (Hdr : Zdigits2 (Z.pos r) ≤ 53).
  { destruct (Z.le_ge_cases ex ey).
    - assert (e = ex) as He by lia. subst X. rewrite He, Z.sub_diag in HrX.
      etrans; [apply (Zdigits2_mono _ (Z.pos mx)); lia|lia].
    - assert (e = ey) as He by lia. subst Y. rewrite He, Z.sub_diag in HrY.
      etrans; [apply (Zdigits2_mono _ (Z.pos my)); lia|lia]. }
  destruct (binary_round_exact r e Hdr ltac:(lia))
    as (mz & ez & -> & Hv & Hez & Hmz).
  exists mz, ez. split_and!; [done|done|lia|].
  rewrite Hmz. subst Y.
  replace (ey - ez) with ((ey - e) + (e - ez)) by lia.
  rewrite Z.pow_add_r by lia.
  assert (0 < 2 ^ (e - ez)) by (apply Z.pow_pos_nonneg; lia). nia.
Qed.

(** ** A fraction times an integer constant *)

Lemma testbit_mod_pow2 a n :
  0 ≤ a → 0 < n → Z.testbit a (n - 1) = true → 2 ^ (n - 1) ≤ a mod 2 ^ n.
Proof.
  intros Ha Hn Hbit. apply Z.testbit_true in Hbit; [|lia].
  assert (0 < 2 ^ (n - 1)) by (apply Z.pow_pos_nonneg; lia).
  replace n with (n - 1 + 1) at 2 by lia.
  rewrite Z.pow_add_r, Z.pow_1_r by lia.
  rewrite Z.rem_mul_r by lia. rewrite Hbit.
  pose proof (Z.mod_pos_bound a (2 ^ (n - 1))). lia.
Qed.

(** The product of a binary64 fraction [mz * 2 ^ ez < 1] and a constant
    with the integer value [C] (a normal number that is not a power of
    two) rounds to a number whose integer part is at most [C - 1]. *)
Lemma SFmul_frac_int mz ez mc ec C :
  valid_binary (S754_finite false mz ez) = true →
  Z.pos mz < 2 ^ (- ez) → ez ≤ 0 →
  Z.pos mc = C * 2 ^ (- ec) → -52 ≤ ec ≤ 0 → 2 ^ 52 < Z.pos mc < 2 ^ 53 →
  SFmul prec emax (S754_finite false mz ez) (S754_finite false mc ec)
  = S754_zero false
  ∨ ∃ m e,
      SFmul prec emax (S754_finite false mz ez) (S754_finite false mc ec)
      = S754_finite false m e
      ∧ e ≤ 0 ∧ Z.pos m / 2 ^ (- e) ≤ C - 1.
Proof.
  intros (_ & Hez & Hdz)%valid_finite_bounds Hfrac Hez0 HC Hec Hmc.
  cbn [SFmul xorb]. rewrite Pos2Z.inj_mul.
  set (mx := Z.pos mz * Z.pos mc). set (ex := ez + ec).
  assert (Hmx : 0 ≤ mx) by (subst mx; lia).
  destruct (binary_round_aux_spec false mx ex loc_Exact Hmx)
    as (m1 & Hb & Hup & ->).
  cbn zeta in *.
  set (d := Zdigits2 mx) in *.
  set (n1 := Z.max 0 (fexp prec emax (d + ex) - ex)) in *.
  set (e1 := ex + n1) in *.
  set (n2 := Z.max 0 (fexp prec emax (Zdigits2 m1 + e1) - e1)).
  assert (Hpez : 0 < 2 ^ (- ez)) by (apply Z.pow_pos_nonneg; lia).
  assert (Hpec : 0 < 2 ^ (- ec)) by (apply Z.pow_pos_nonneg; lia).
  assert (HC0 : 0 < C) by nia.
  (* the constant has 53 + ec digits before the point *)
  assert (HCd : C < 2 ^ (53 + ec)).
  { assert (2 ^ 53 = 2 ^ (53 + ec) * 2 ^ (- ec)) as Hsplit.
    { rewrite <- Z.pow_add_r by lia. f_equal. lia. }
    rewrite Hsplit in Hmc. nia. }
  (* the exact product is below C *)
  assert (Hprod : mx < C * 2 ^ (- ex)).
  { subst mx ex. replace (- (ez + ec)) with (- ez + - ec) by lia.
    rewrite Z.pow_add_r by lia. rewrite HC. nia. }
  assert (Hd : d + ex ≤ 53 + ec).
  { assert (d ≤ 53 + ec - ex); [|lia]. apply Zdigits2_le; [|subst ex; lia].
    split; [done|]. eapply Z.lt_le_trans; [exact Hprod|].
    replace (53 + ec - ex) with (53 + ec + - ex) by lia.
    rewrite Z.pow_add_r by (subst ex; lia).
    assert (0 < 2 ^ (- ex)) by (apply Z.pow_pos_nonneg; subst ex; lia). nia. }
  assert (He1 : e1 ≤ 0).
  { subst e1 n1 ex. unfold fexp, emin, prec, emax. lia. }
  assert (Hn1 : 0 ≤ n1) by (subst n1; lia).
  assert (Hp1 : 0 < 2 ^ n1) by (apply Z.pow_pos_nonneg; lia).
  assert (HpA : 0 < 2 ^ (- e1)) by (apply Z.pow_pos_nonneg; lia).
  assert (Hsplit : 2 ^ (- ex) = 2 ^ (- e1) * 2 ^ n1).
  { rewrite <- Z.pow_add_r by lia. f_equal. subst e1. lia. }
  assert (Hcut : mx / 2 ^ n1 < C * 2 ^ (- e1)).
  { apply Z.div_lt_upper_bound; [done|]. rewrite Hsplit in Hprod. nia. }
  (* rounding does not reach C *)
  assert (Hm1 : m1 < C * 2 ^ (- e1)).
  { destruct (Z.eq_dec m1 (mx / 2 ^ n1 + 1)) as [Heq|]; [|lia].
    destruct (Hup Heq) as [[Hn Hbit]|[_ ?]]; [|done].
    destruct (Z.eq_dec (mx / 2 ^ n1) (C * 2 ^ (- e1) - 1)) as [Htop|]; [|lia].
    exfalso.
    pose proof (testbit_mod_pow2 mx n1 Hmx Hn Hbit) as Hhalf.
    pose proof (Z.div_mod mx (2 ^ n1) ltac:(lia)) as Hdm.
    rewrite Htop in Hdm.
    assert (Hlow : Z.pos mc ≤ 2 ^ (n1 - 1)).
    { assert (0 < 2 ^ (n1 - 1)) by (apply Z.pow_pos_nonneg; lia).
      assert (Hfull : C * 2 ^ (- ex) = Z.pos mc * 2 ^ (- ez)).
      { subst ex. replace (- (ez + ec)) with (- ec + - ez) by lia.
        rewrite Z.pow_add_r by lia. rewrite HC. lia. }
      rewrite Hsplit in Hfull.
      assert (Hdbl : 2 ^ n1 = 2 * 2 ^ (n1 - 1)).
      { replace n1 with (1 + (n1 - 1)) at 1 by lia.
        by rewrite Z.pow_add_r by lia. }
      assert (Hle : mx ≤ Z.pos mc * 2 ^ (- ez) - Z.pos mc) by (subst mx; nia).
      nia. }
    assert (Hn53 : n1 ≤ 53).
    { pose proof (Zdigits2_mul (Z.pos mz) (Z.pos mc) ltac:(lia) ltac:(lia))
        as Hdm'.
      assert (Zdigits2 (Z.pos mc) ≤ 53)
        by (apply Zdigits2_le; lia).
      fold mx in Hdm'. fold d in Hdm'.
      subst n1 ex. unfold fexp, emin, prec, emax. lia. }
    assert (2 ^ (n1 - 1) ≤ 2 ^ 52) by (apply Z.pow_le_mono_r; lia). lia. }
  assert (H0m1 : 0 ≤ m1).
  { assert (0 ≤ mx / 2 ^ n1) by (apply Z.div_pos; lia). lia. }
  assert (Hd1 : Zdigits2 m1 + e1 ≤ 53 + ec).
  { assert (Zdigits2 m1 ≤ 53 + ec - e1); [|lia]. apply Zdigits2_le; [|lia].
    split; [done|]. eapply Z.lt_le_trans; [exact Hm1|].
    replace (53 + ec - e1) with (53 + ec + - e1) by lia.
    rewrite Z.pow_add_r by lia. nia. }
  assert (He2 : e1 + n2 ≤ 0).
  { subst n2. unfold fexp, emin, prec, emax. lia. }
  assert (Hn2 : 0 ≤ n2) by (subst n2; lia).
  assert (Hp2 : 0 < 2 ^ n2) by (apply Z.pow_pos_nonneg; lia).
  assert (0 ≤ m1 / 2 ^ n2) by (apply Z.div_pos; lia).
  destruct (m1 / 2 ^ n2) as [|m|m] eqn:Hm; [by left| |lia]. right.
  assert ((e1 + n2 <=? emax - prec) = true) as ->.
  { apply Z.leb_le. unfold prec, emax. lia. }
  exists m, (e1 + n2). split_and!; [done|done|].
  rewrite <- Hm. rewrite Z.div_div by (try apply Z.pow_pos_nonneg; lia).
  rewrite <- Z.pow_add_r by lia.
  replace (n2 + - (e1 + n2)) with (- e1) by lia.
  assert (m1 / 2 ^ (- e1) < C); [|lia].
  apply Z.div_lt_upper_bound; lia.
Qed.

(** ** The fields of a timestamp *)

Lemma Prim2SF_zero : Prim2SF 0 = S754_zero false.
Proof. vm_compute. reflexivity. Qed.

Lemma is_time_nonneg_finite t : is_time t → nonneg_finite (Prim2SF t).
Proof.
  intros [H0 Hinf]. rewrite FloatAxioms.leb_spec, Prim2SF_zero in H0.
  rewrite FloatAxioms.ltb_spec in Hinf.
  change (Prim2SF infinity) with (S754_infinity false) in Hinf.
  by destruct (Prim2SF t) as [s|[]| |[] m e].
Qed.

Lemma float_int_finite x m e :
  Prim2SF x = S754_finite false m e → e ≤ 0 →
  float_int x = inr (Z.pos m / 2 ^ (- e)).
Proof.
  intros Hx He. unfold float_int. rewrite Hx. cbn [cond_Zopp].
  by rewrite Z.shiftl_div_pow2.
Qed.

Lemma float_int_nonneg x :
  nonneg_finite (Prim2SF x) → ∃ n, float_int x = inr n ∧ 0 ≤ n.
Proof.
  unfold float_int. destruct (Prim2SF x) as [s|s| |[] m e]; try done.
  - intros _. by exists 0.
  - intros _. eexists. split; [done|]. cbn [cond_Zopp].
    by apply Z.shiftl_nonneg.
Qed.

Lemma float_div_nonneg t c mc ec :
  Prim2SF c = S754_finite false mc ec → 2 ≤ Zdigits2 (Z.pos mc) + ec →
  nonneg_finite (Prim2SF t) → nonneg_finite (Prim2SF (t / c)).
Proof.
  intros Hc Hge Ht. rewrite div_spec, Hc. unfold SF64div.
  pose proof (Prim2SF_valid t) as Hv.
  destruct (Prim2SF t) as [s|s| |[] m e]; try done.
  by apply SFdiv_nonneg_finite.
Qed.

(** [x % c] for a time [x] and a positive constant [c]: zero or a
    positive number below [c]. *)
Lemma float_rem_spec x c mc ec :
  Prim2SF c = S754_finite false mc ec →
  nonneg_finite (Prim2SF x) →
  Prim2SF (float_rem x c) = S754_zero false
  ∨ ∃ mz ez,
      Prim2SF (float_rem x c) = S754_finite false mz ez
      ∧ ez ≤ ec ∧ Z.pos mz < Z.pos mc * 2 ^ (ec - ez).
Proof.
  intros Hc Hx.
  assert (Hcz : is_zero c = false).
  { unfold is_zero. by rewrite FloatAxioms.eqb_spec, Hc. }
  assert (Hc0 : (c <? 0)%float = false) by (by rewrite FloatAxioms.ltb_spec, Hc).
  assert (Hsign : copysign_zero c = 0%float).
  { unfold copysign_zero, get_sign. rewrite Hcz.
    change PrimFloat.zero with 0%float. by rewrite Hc0. }
  assert (Hzero : ∀ s, SFfmod (Prim2SF x) (Prim2SF c) = S754_zero s →
                       float_rem x c = 0%float).
  { intros s Hs. unfold float_rem. rewrite Hs. by destruct s. }
  pose proof (Prim2SF_valid x) as Hvx. pose proof (Prim2SF_valid c) as Hvc.
  rewrite Hc in Hvc.
  destruct (Prim2SF x) as [s|s| |[] mx ex] eqn:Ex; try done.
  - left. rewrite (Hzero s); [apply Prim2SF_zero|]. by rewrite Hc.
  - destruct (SFfmod_pos_spec mx ex mc ec Hvx Hvc)
      as [Hz|(mz & ez & Hfin & Hv & Hez & Hlt)].
    + left. rewrite (Hzero false); [apply Prim2SF_zero|]. by rewrite Hc.
    + right. exists mz, ez. split; [|done].
      unfold float_rem. rewrite Ex, Hc, Hfin.
      assert (Hm : Prim2SF (SF2Prim (S754_finite false mz ez))
                   = S754_finite false mz ez)
        by (by apply Prim2SF_SF2Prim).
      assert (is_zero (SF2Prim (S754_finite false mz ez)) = false) as ->.
      { unfold is_zero. by rewrite FloatAxioms.eqb_spec, Hm. }
      assert ((SF2Prim (S754_finite false mz ez) <? 0)%float = false) as ->.
      { by rewrite FloatAxioms.ltb_spec, Hm. }
      by rewrite Hc0.
Qed.

Lemma Prim2SF_3600 : Prim2SF 3600 = S754_finite false 7916483719987200 (-41).
Proof. vm_compute. reflexivity. Qed.
Lemma Prim2SF_60 : Prim2SF 60 = S754_finite false 8444249301319680 (-47).
Proof. vm_compute. reflexivity. Qed.
Lemma Prim2SF_1 : Prim2SF 1 = S754_finite false 4503599627370496 (-52).
Proof. vm_compute. reflexivity. Qed.
Lemma Prim2SF_100 : Prim2SF 100 = S754_finite false 7036874417766400 (-46).
Proof. vm_compute. reflexivity. Qed.
Lemma Prim2SF_1000 : Prim2SF 1000 = S754_finite false 8796093022208000 (-43).
Proof. vm_compute. reflexivity. Qed.

(** [int(x % c)] for a time [x] and an integer constant [C] lies in
    [0, C - 1]. *)
Lemma float_rem_int_range x c mc ec C :
  Prim2SF c = S754_finite false mc ec → ec ≤ 0 → Z.pos mc = C * 2 ^ (- ec) →
  nonneg_finite (Prim2SF x) →
  ∃ n, float_int (float_rem x c) = inr n ∧ 0 ≤ n ≤ C - 1.
Proof.
  intros Hc Hec HC Hx.
  assert (0 < 2 ^ (- ec)) by (apply Z.pow_pos_nonneg; lia).
  destruct (float_rem_spec x c mc ec Hc Hx)
    as [Hz|(mz & ez & Hfin & Hez & Hlt)].
  - exists 0. unfold float_int. rewrite Hz. split; [done|nia].
  - exists (Z.pos mz / 2 ^ (- ez)).
    rewrite (float_int_finite _ mz ez) by (done || lia).
    assert (0 < 2 ^ (- ez)) by (apply Z.pow_pos_nonneg; lia).
    split; [done|]. split; [apply Z.div_pos; lia|].
    assert (Z.pos mz / 2 ^ (- ez) < C); [|lia].
    apply Z.div_lt_upper_bound; [done|].
    replace (- ez) with (- ec + (ec - ez)) by lia.
    rewrite Z.pow_add_r by lia. rewrite HC in Hlt. lia.
Qed.

(** [int((t % 1) * c)] for a time [t] and an integer constant [C] lies in
    [0, C - 1]. *)
Lemma float_frac_scaled_range t c mc ec C :
  Prim2SF c = S754_finite false mc ec →
  Z.pos mc = C * 2 ^ (- ec) → -52 ≤ ec ≤ 0 → 2 ^ 52 < Z.pos mc < 2 ^ 53 →
  nonneg_finite (Prim2SF t) →
  ∃ n, float_int (float_rem t 1 * c) = inr n ∧ 0 ≤ n ≤ C - 1.
Proof.
  intros Hc HC Hec Hmc Ht.
  assert (0 < 2 ^ (- ec)) by (apply Z.pow_pos_nonneg; lia).
  pose proof (Prim2SF_valid (float_rem t 1)) as Hv.
  unfold float_int. rewrite mul_spec, Hc. unfold SF64mul.
  destruct (float_rem_spec t 1 _ _ Prim2SF_1 Ht)
    as [Hz|(mz & ez & Hfin & Hez & Hlt)].
  - rewrite Hz. exists 0. split; [done|nia].
  - rewrite Hfin in *.
    assert (Hfrac : Z.pos mz < 2 ^ (- ez)).
    { replace (- ez) with (52 + (-52 - ez)) by lia.
      rewrite Z.pow_add_r by lia. exact Hlt. }
    destruct (SFmul_frac_int mz ez mc ec C Hv Hfrac ltac:(lia) HC Hec Hmc)
      as [->|(m & e & -> & He & Hle)].
    + exists 0. split; [done|nia].
    + exists (Z.pos m / 2 ^ (- e)). cbn [cond_Zopp].
      rewrite Z.shiftl_div_pow2 by done. split; [done|].
      split; [|done]. apply Z.div_pos; [lia|].
      apply Z.pow_pos_nonneg; lia.
Qed.

(** The five fields of the timestamps of a time. *)
Lemma timestamp_fields t :
  is_time t →
  ∃ h m s c ms,
    float_int (t / 3600) = inr h
    ∧ float_int (float_rem (t / 60) 60) = inr m
    ∧ float_int (float_rem t 60) = inr s
    ∧ float_int (float_rem t 1 * 100) = inr c
    ∧ float_int (float_rem t 1 * 1000) = inr ms
    ∧ 0 ≤ h ∧ 0 ≤ m ≤ 59 ∧ 0 ≤ s ≤ 59 ∧ 0 ≤ c ≤ 99 ∧ 0 ≤ ms ≤ 999.
Proof.
  intros Ht%is_time_nonneg_finite.
  destruct (float_int_nonneg (t / 3600)) as (h & Hh & Hh0).
  { by eapply float_div_nonneg; [apply Prim2SF_3600| |]. }
  destruct (float_rem_int_range (t / 60) 60 _ _ 60 Prim2SF_60)
    as (m & Hm & Hm0); [done|done| |].
  { by eapply float_div_nonneg; [apply Prim2SF_60| |]. }
  destruct (float_rem_int_range t 60 _ _ 60 Prim2SF_60)
    as (s & Hs & Hs0); [done|done|done|].
  destruct (float_frac_scaled_range t 100 _ _ 100 Prim2SF_100)
    as (c & Hc & Hc0); [done|done|done|done|].
  destruct (float_frac_scaled_range t 1000 _ _ 1000 Prim2SF_1000)
    as (ms & Hms & Hms0); [done|done|done|done|].
  exists h, m, s, c, ms. split_and!; (done || lia).
Qed.

(** ** Zero padding *)

Lemma list_ascii_of_string_append a b :
  list_ascii_of_string (a +:+ b)
  = list_ascii_of_string a ++ list_ascii_of_string b.
Proof.
  induction a as [|c a IH]; [done|]. rewrite append_cons. cbn. by rewrite IH.
Qed.

Lemma length_string_of_list_ascii l :
  String.length (string_of_list_ascii l) = length l.
Proof. induction l as [|c l IH]; [done|]. cbn. by rewrite IH. Qed.

Lemma format_0d_nonneg w n : 0 ≤ n → format_0d w n = zero_padded w n.
Proof.
  intros Hn. unfold format_0d, zero_padded.
  rewrite Z.abs_eq by done.
  assert ((n <? 0) = false) as -> by (apply Z.ltb_ge; lia).
  rewrite append_nil_l. cbn [String.length]. by rewrite Nat.sub_0_r.
Qed.

Lemma read_decimal_str_int n : 0 ≤ n → read_decimal (str_int n) = Some n.
Proof.
  intros Hn. unfold read_decimal, str_int.
  destruct n as [|p|p]; [done| |lia]. cbn [Z.to_int NilEmpty.string_of_int].
  rewrite NilEmpty.usu. cbn [fmap option_fmap option_map]. f_equal.
  unfold Z.of_uint. by rewrite Unsigned.of_to.
Qed.

Lemma read_decimal_zeros k s :
  read_decimal (string_of_list_ascii (repeat "0"%char k) +:+ s)
  = read_decimal s.
Proof.
  induction k as [|k IH]; [done|].
  cbn [repeat string_of_list_ascii]. rewrite append_cons.
  unfold read_decimal in *. cbn [NilEmpty.uint_of_string].
  destruct (NilEmpty.uint_of_string
              (string_of_list_ascii (repeat "0"%char k) +:+ s)) as [d|];
    destruct (NilEmpty.uint_of_string s) as [d'|]; done.
Qed.

Lemma zero_padded_field w n : 0 ≤ n → decimal_field w n (zero_padded w n).
Proof.
  intros Hn. unfold decimal_field, zero_padded. split_and!.
  - rewrite list_ascii_of_string_append, list_ascii_of_string_of_list_ascii.
    apply Forall_app. split; [|by apply str_int_nonneg_digits].
    apply Forall_forall. intros c Hc%list_elem_of_In%repeat_spec. subst c.
    unfold is_digit. cbn. lia.
  - by rewrite read_decimal_zeros, read_decimal_str_int.
  - rewrite length_append, length_string_of_list_ascii, repeat_length. lia.
Qed.

Lemma zero_padded_width_2 n :
  0 ≤ n ≤ 99 → String.length (zero_padded 2 n) = 2%nat.
Proof.
  intros Hn.
  assert (Hall : forallb (λ k, Nat.eqb
                   (String.length (zero_padded 2 (Z.of_nat k))) 2)
                   (seq 0 100) = true) by (vm_compute; reflexivity).
  rewrite forallb_forall in Hall. specialize (Hall (Z.to_nat n)).
  rewrite Z2Nat.id in Hall by lia. apply Nat.eqb_eq, Hall.
  apply in_seq. lia.
Qed.

Lemma zero_padded_width_3 n :
  0 ≤ n ≤ 999 → String.length (zero_padded 3 n) = 3%nat.
Proof.
  intros Hn.
  assert (Hall : forallb (λ k, Nat.eqb
                   (String.length (zero_padded 3 (Z.of_nat k))) 3)
                   (seq 0 1000) = true) by (vm_compute; reflexivity).
  rewrite forallb_forall in Hall. specialize (Hall (Z.to_nat n)).
  rewrite Z2Nat.id in Hall by lia. apply Nat.eqb_eq, Hall.
  apply in_seq. lia.
Qed.

(** ** Timestamps of a time *)

Lemma int_value_eq x n : float_int x = inr n → int_value x = n.
Proof. unfold int_value. by intros ->. Qed.

Lemma get_time_is_time t : is_time t → get_time t = inr (ass_timestamp t).
Proof.
  intros (h & m & s & c & ms & Hh & Hm & Hs & Hc & Hms & Hh0 & Hm0 & Hs0
          & Hc0 & Hms0)%timestamp_fields.
  unfold get_time, ass_timestamp, hours, minutes, seconds, centiseconds.
  rewrite (int_value_eq _ _ Hh), (int_value_eq _ _ Hm),
    (int_value_eq _ _ Hs), (int_value_eq _ _ Hc).
  rewrite Hh, Hm, Hs, Hc. cbn [bind ret].
  by rewrite !format_0d_nonneg by lia.
Qed.

Lemma srt_time_line_is_time t0 t1 :
  is_time t0 → is_time t1 →
  srt_time_line t0 t1
  = inr (srt_timestamp t0 +:+ " --> " +:+ srt_timestamp t1 +:+ LF).
Proof.
  intros (h & m & s & c & ms & Hh & Hm & Hs & Hc & Hms & Hh0 & Hm0 & Hs0
          & Hc0 & Hms0)%timestamp_fields.
  intros (h' & m' & s' & c' & ms' & Hh' & Hm' & Hs' & Hc' & Hms' & Hh0'
          & Hm0' & Hs0' & Hc0' & Hms0')%timestamp_fields.
  unfold srt_time_line, srt_timestamp, hours, minutes, seconds, milliseconds.
  rewrite (int_value_eq _ _ Hh), (int_value_eq _ _ Hm),
    (int_value_eq _ _ Hs), (int_value_eq _ _ Hms),
    (int_value_eq _ _ Hh'), (int_value_eq _ _ Hm'),
    (int_value_eq _ _ Hs'), (int_value_eq _ _ Hms').
  rewrite Hh, Hm, Hs, Hms, Hh', Hm', Hs', Hms'. cbn [bind ret].
  rewrite !format_0d_nonneg by lia. by rewrite !append_assoc.
Qed.

(** The fields of the timestamps of a time are in range and written in
    decimal digits of the stated widths. *)
Lemma timestamp_shape t : is_time t → well_formed_timestamps t.
Proof.
  unfold well_formed_timestamps.
  intros (h & m & s & c & ms & Hh & Hm & Hs & Hc & Hms & Hh0 & Hm0 & Hs0
          & Hc0 & Hms0)%timestamp_fields.
  unfold hours, minutes, seconds, centiseconds, milliseconds.
  rewrite (int_value_eq _ _ Hh), (int_value_eq _ _ Hm),
    (int_value_eq _ _ Hs), (int_value_eq _ _ Hc), (int_value_eq _ _ Hms).
  split_and!;
    first [ apply zero_padded_field; lia
          | apply zero_padded_width_2; lia
          | apply zero_padded_width_3; lia ].
Qed.

(** ** The subtitle writers on cue rows *)

Lemma ass_lines_cues (cues : list cue) :
  Forall (λ q, is_time (cue_start q) ∧ is_time (cue_end q)) cues →
  ass_lines (zip (cue_start <$> cues)
               (zip (cue_end <$> cues)
                  (zip (cue_character <$> cues) (cue_text <$> cues))))
  = inr (ass_cue_line <$> cues).
Proof.
  induction 1 as [|q cues [H0 H1] _ IH]; [done|].
  cbn [fmap list_fmap zip zip_with ass_lines].
  rewrite (get_time_is_time _ H0), (get_time_is_time _ H1). cbn [bind].
  by rewrite IH.
Qed.

Lemma write_srt_loop_cues (cues : list cue) i srt :
  Forall (λ q, is_time (cue_start q) ∧ is_time (cue_end q)) cues →
  write_srt_loop
    (enumerate_from i
       (zip (cue_start <$> cues) (zip (cue_end <$> cues) (cue_text <$> cues))))
    srt
  = {| written := Some (srt +:+ srt_cues (i + 1) cues); raised := None |}.
Proof.
  intros Hall. revert i srt.
  induction Hall as [|q cues [H0 H1] _ IH]; intros i srt.
  - cbn. by rewrite append_nil_r.
  - cbn [fmap list_fmap zip zip_with enumerate_from write_srt_loop srt_cues].
    rewrite (srt_time_line_is_time _ _ H0 H1).
        rewrite IH. unfold srt_cue, cleaned_text. by rewrite !append_assoc.
Qed.

Lemma ass_header_style_table size styles :
  ∃ info events,
    ass_header size styles
    = info +:+ "[V4+ Styles]" +:+ LF
      +:+ "Format: Name, Fontname, Fontsize, PrimaryColour, SecondaryColour, OutlineColour, BackColour, Bold, Italic, Underline, StrikeOut, ScaleX, ScaleY, Spacing, Angle, BorderStyle, Outline, Shadow, Alignment, MarginL, MarginR, MarginV, Encoding"
      +:+ LF +:+ join LF (_make_ass_style <$> styles) +:+ events.
Proof.
  exists ("[Script Info]" +:+ LF
          +:+ "; Script generated by FFmpeg/Lavc60.14.101" +:+ LF
          +:+ "ScriptType: v4.00+" +:+ LF
          +:+ "PlayResX: " +:+ str_int (fst size) +:+ LF
          +:+ "PlayResY: " +:+ str_int (snd size) +:+ LF
          +:+ "ScaledBorderAndShadow: yes" +:+ LF
          +:+ "YCbCr Matrix: None" +:+ LF +:+ LF).
  eexists. unfold ass_header.
  change _make_ass_style_header with
    ("[V4+ Styles]" +:+ LF
     +:+ "Format: Name, Fontname, Fontsize, PrimaryColour, SecondaryColour, OutlineColour, BackColour, Bold, Italic, Underline, StrikeOut, ScaleX, ScaleY, Spacing, Angle, BorderStyle, Outline, Shadow, Alignment, MarginL, MarginR, MarginV, Encoding").
  cbn zeta. rewrite !append_assoc. reflexivity.
Qed.

Lemma repeat_default_characters (cues : list cue) :
  Forall (λ q, cue_character q = "Default") cues →
  repeat "Default" (length (cue_text <$> cues)) = cue_character <$> cues.
Proof.
  induction 1 as [|q cues Hq _ IH]; [done|].
  cbn [fmap list_fmap length repeat] in *. by rewrite IH, Hq.
Qed.

(** C5. On cue rows whose start and end times are times (finite floats
    [t >= 0]), [write_ass_file] writes the header, which holds the
    [[V4+ Styles]] table, followed by one [Dialogue] line per row with the
    timestamps HH:MM:SS.cc, and [write_srt_file] writes one block per row,
    numbered 1, 2, 3, ... in row order, with the timestamps HH:MM:SS,mmm.
    The fields are [int(t/3600)], [int((t/60)%60)], [int(t%60)],
    [int((t%1)*100)] and [int((t%1)*1000)], zero-padded to two digits
    (three for the milliseconds); they are non-negative, so every field is
    made of decimal digits only, and the minutes, seconds and fractions
    have exactly their two (three) digits. *)
Theorem subtitle_writers_format (cues : list cue) (size : Z * Z)
    (styles : option (list ASSStyleType)) :
  Forall (λ q, is_time (cue_start q) ∧ is_time (cue_end q)) cues →
  write_ass_file (cue_start <$> cues) (cue_end <$> cues) (cue_text <$> cues)
    size (Some (cue_character <$> cues)) styles
  = {| written :=
         Some (ass_header size (default [ASSStyleType_default] styles)
               +:+ join LF (ass_cue_line <$> cues));
       raised := None |}
  ∧ (Forall (λ q, cue_character q = "Default") cues →
     write_ass_file (cue_start <$> cues) (cue_end <$> cues)
       (cue_text <$> cues) size None styles
     = {| written :=
            Some (ass_header size (default [ASSStyleType_default] styles)
                  +:+ join LF (ass_cue_line <$> cues));
          raised := None |})
  ∧ (∃ info events,
       ass_header size (default [ASSStyleType_default] styles)
       = info +:+ "[V4+ Styles]" +:+ LF
         +:+ "Format: Name, Fontname, Fontsize, PrimaryColour, SecondaryColour, OutlineColour, BackColour, Bold, Italic, Underline, StrikeOut, ScaleX, ScaleY, Spacing, Angle, BorderStyle, Outline, Shadow, Alignment, MarginL, MarginR, MarginV, Encoding"
         +:+ LF
         +:+ join LF (_make_ass_style
                        <$> default [ASSStyleType_default] styles)
         +:+ events)
  ∧ write_srt_file (cue_start <$> cues) (cue_end <$> cues) (cue_text <$> cues)
    = {| written := Some (srt_cues 1 cues); raised := None |}
  ∧ Forall (λ q, well_formed_timestamps (cue_start q)
                 ∧ well_formed_timestamps (cue_end q)) cues.
Proof.
  intros Hall.
  assert (Hlen : length (cue_start <$> cues) = length (cue_end <$> cues)
                 ∧ length (cue_end <$> cues) = length (cue_text <$> cues))
    by (by rewrite !length_fmap).
  assert (Hass : ∀ characters,
    characters = Some (cue_character <$> cues)
    ∨ (characters = None ∧ Forall (λ q, cue_character q = "Default") cues) →
    write_ass_file (cue_start <$> cues) (cue_end <$> cues) (cue_text <$> cues)
      size characters styles
    = {| written :=
           Some (ass_header size (default [ASSStyleType_default] styles)
                 +:+ join LF (ass_cue_line <$> cues));
         raised := None |}).
  { intros characters Hch. unfold write_ass_file.
    rewrite bool_decide_true by done. cbn [negb].
    assert (match characters with
            | Some cs => cs
            | None => repeat "Default" (length (cue_text <$> cues))
            end = cue_character <$> cues) as ->.
    { destruct Hch as [->|[-> Hdef]]; [done|].
      by apply repeat_default_characters. }
    rewrite (ass_lines_cues cues Hall). by destruct styles. }
  split_and!.
  - apply Hass. by left.
  - intros Hdef. apply Hass. by right.
  - apply ass_header_style_table.
  - unfold write_srt_file. rewrite bool_decide_true by done. cbn [negb].
    rewrite (write_srt_loop_cues cues 0 "" Hall). by rewrite append_nil_l.
  - eapply Forall_impl; [exact Hall|].
    intros q [H0 H1]. split; by apply timestamp_shape.
Qed.

Lemma subtitle_writers_format_witness :
  write_srt_file [0%float; 1.5%float] [1.5%float; 3661.25%float]
    ["Hello"; "World"]
  = {| written :=
         Some ("1" +:+ LF +:+ "00:00:00,000 --> 00:00:01,500" +:+ LF
               +:+ "Hello" +:+ LF +:+ LF
               +:+ "2" +:+ LF +:+ "00:00:01,500 --> 01:01:01,250" +:+ LF
               +:+ "World" +:+ LF +:+ LF);
       raised := None |}.
Proof.
  apply (proj1 (proj2 (proj2 (proj2 (subtitle_writers_format
    [ {| cue_start := 0; cue_end := 1.5;
         cue_character := "Default"; cue_text := "Hello" |};
      {| cue_start := 1.5; cue_end := 3661.25;
         cue_character := "Default"; cue_text := "World" |} ]
    (1920, 1080) None
    ltac:(repeat constructor; vm_compute; reflexivity)))))).
Defined.

Example write_ass_file_example :
  written (write_ass_file [0%float] [1.5%float] ["Hello"] (1920, 1080)
             None None)
  = Some (ass_header (1920, 1080) [ASSStyleType_default]
          +:+ "Dialogue: 0,00:00:00.00,00:00:01.50,Default,,0,0,0,,Hello").
Proof. vm_compute. reflexivity. Qed.

Example get_time_infinity :
  get_time infinity
  = inl (OverflowError "cannot convert float infinity to integer").
Proof. vm_compute. reflexivity. Qed.

Example get_time_negative : get_time (-3600) = inr "-1:00:00.00".
Proof. vm_compute. reflexivity. Qed.

(** ** The frame cache *)

Section frame_cache_transparency.
Context {Buffer Appearance Time : Type}.
Context `{!EqDecision Appearance, !EqDecision Time, !Countable Time}.
Context (composite : Appearance → option Buffer → Buffer → Buffer → Buffer).

Local Abbreviation node := (@node Buffer Appearance Time).
Local Abbreviation frame_cache :=
  (@frame_cache Buffer Appearance Time _ _).
Local Abbreviation render := (render composite).
Local Abbreviation render_plain := (render_plain composite).
Local Abbreviation composite_children := (composite_children composite).
Local Abbreviation cache_sound := (cache_sound composite).
Local Abbreviation cache_after := (cache_after composite).

Lemma render_unfold enabled t (n : node) (c : frame_cache) :
  render enabled t n c
  = match cache_lookup enabled c n t with
    | Some buf => (Some buf, c)
    | None =>
        match n with
        | LayerNode _ _ content =>
            match content t with
            | Some buf => (Some buf, cache_store enabled c n t buf)
            | None => (None, c)
            end
        | CompositionNode _ _ canvas children =>
            match composite_children (render enabled t) t children None
                    canvas c with
            | (Some buf, c') => (Some buf, cache_store enabled c' n t buf)
            | (None, c') => (None, c')
            end
        end
    end.
Proof. by destruct n. Qed.

(** With the cache disabled, rendering neither reads nor writes it. *)
Lemma render_disabled t (n : node) (c : frame_cache) :
  render false t n c = (render_plain n t, c).
Proof.
  unfold render_plain. revert c.
  induction n as [id appearanceAt content|id appearanceAt canvas children IH]
    using node_ind_All; intros c.
  - rewrite !render_unfold. cbn. by destruct (content t).
  - rewrite !render_unfold. cbn [cache_lookup cache_store].
    assert (Hch : ∀ behind acc c,
      composite_children (render false t) t children behind acc c
      = ((composite_children (render false t) t children behind acc ∅).1, c)).
    { clear c. induction IH as [|child l Hchild _ IHl]; intros behind acc c;
        [done|].
      cbn [composite_children].
      destruct (node_appearance child t) as [a|]; [|apply IHl].
      rewrite (Hchild c), (Hchild ∅).
      destruct (render false t child ∅).1 as [buf|]; [|done].
      cbn [fst]. rewrite (IHl _ _ c). symmetry. by rewrite (IHl _ _ ∅). }
    rewrite (Hch None canvas c).
    by destruct (composite_children (render false t) t children None canvas ∅)
      as [[buf|] c0].
Qed.

(** *** The nodes of a scene graph *)

Lemma subnodes_composition id appearanceAt canvas (children : list node) :
  subnodes (CompositionNode id appearanceAt canvas children)
  = CompositionNode id appearanceAt canvas children
    :: (children ≫= subnodes).
Proof.
  reflexivity.
Qed.

Lemma subnodes_self (n : node) : n ∈ subnodes n.
Proof. destruct n; cbn [subnodes]; left. Qed.

Lemma subnodes_child id appearanceAt canvas (children : list node) child m :
  child ∈ children → m ∈ subnodes child →
  m ∈ subnodes (CompositionNode id appearanceAt canvas children).
Proof.
  intros Hchild Hm. rewrite subnodes_composition. right.
  apply list_elem_of_bind. eauto.
Qed.

Lemma subnodes_trans (m n r : node) :
  m ∈ subnodes n → n ∈ subnodes r → m ∈ subnodes r.
Proof.
  intros Hm. revert n Hm.
  induction r as [id appearanceAt content|id appearanceAt canvas children IH]
    using node_ind_All; intros n Hm Hn.
  - cbn [subnodes] in Hn. apply list_elem_of_singleton in Hn. by subst n.
  - rewrite subnodes_composition in Hn.
    apply elem_of_cons in Hn as [->|Hn]; [done|].
    apply list_elem_of_bind in Hn as (child & Hn & Hchild).
    rewrite Forall_forall in IH.
    eapply subnodes_child; [done|]. by eapply IH.
Qed.

(** Under distinct identities, an identity names one node. *)
Lemma same_id_same_node (scene n m : node) :
  NoDup (node_ids scene) → n ∈ subnodes scene → m ∈ subnodes scene →
  node_id n = node_id m → n = m.
Proof.
  unfold node_ids. generalize (subnodes scene). intros l.
  induction l as [|x l IH]; intros Hnd Hn Hm Hid; [by apply elem_of_nil in Hn|].
  cbn [fmap list_fmap] in Hnd. apply NoDup_cons in Hnd as [Hx Hnd].
  apply elem_of_cons in Hn as [->|Hn]; apply elem_of_cons in Hm as [->|Hm].
  - done.
  - destruct Hx. rewrite Hid. by apply list_elem_of_fmap_2.
  - destruct Hx. rewrite <- Hid. by apply list_elem_of_fmap_2.
  - by apply IH.
Qed.

(** *** The entries of a reachable cache *)

Section scene.
Variable scene : node.
Hypothesis Hids : NoDup (node_ids scene).

Lemma cache_sound_empty : cache_sound scene ∅.
Proof.
  intros n t fp buf _ H. unfold cache_get, frame_cache in H.
  by rewrite lookup_empty in H.
Qed.

Lemma cache_sound_store (c : frame_cache) n t buf :
  n ∈ subnodes scene → cache_sound scene c → render_plain n t = Some buf →
  cache_sound scene (cache_store true c n t buf).
Proof.
  intros Hin Hc Hn n' t' fp buf' Hin' Hget.
  unfold cache_store, cache_put, cache_get, frame_cache in *.
  destruct (decide ((node_id n, t) = (node_id n', t'))) as [[= Hid <-]|Hne].
  - rewrite Hid, lookup_insert_eq in Hget. injection Hget as <- <-.
    by rewrite (same_id_same_node scene n n' Hids Hin Hin' Hid) in *.
  - rewrite lookup_insert_ne in Hget by done. by eapply Hc.
Qed.

Lemma cache_sound_invalidate (c : frame_cache) id :
  cache_sound scene c → cache_sound scene (cache_invalidate c id).
Proof.
  intros Hc n t fp buf Hin Hget.
  unfold cache_invalidate, cache_get, frame_cache in *.
  apply map_lookup_filter_Some in Hget as [Hget _]. by eapply Hc.
Qed.

Lemma cache_sound_evict (c : frame_cache) id t :
  cache_sound scene c → cache_sound scene (delete (id, t) c).
Proof.
  intros Hc n t' fp buf Hin Hget.
  unfold cache_get, frame_cache in *.
  apply lookup_delete_Some in Hget as [_ Hget]. by eapply Hc.
Qed.

(** A valid entry holds what rendering without the cache gives. *)
Lemma cache_lookup_sound (c : frame_cache) n t buf :
  n ∈ subnodes scene → cache_sound scene c →
  cache_lookup true c n t = Some buf → render_plain n t = Some buf.
Proof.
  intros Hin Hc. unfold cache_lookup.
  destruct (cache_get c (node_id n) t) as [[fp buf']|] eqn:Hget; [|done].
  destruct (decide (fp = fingerprint n t)) as [->|]; [|done].
  intros [= <-]. by eapply Hc.
Qed.

(** In a sound cache no entry of a node fails the fingerprint check: there
    is no CacheCorruption. *)
Lemma cache_lookup_hit (c : frame_cache) n t fp buf :
  n ∈ subnodes scene → cache_sound scene c →
  cache_get c (node_id n) t = Some (fp, buf) →
  cache_lookup true c n t = Some buf.
Proof.
  intros Hin Hc Hget. unfold cache_lookup. rewrite Hget.
  destruct (Hc n t fp buf Hin Hget) as [-> _]. by rewrite decide_True.
Qed.

Lemma render_enabled_sound t n (c : frame_cache) :
  n ∈ subnodes scene → cache_sound scene c →
  (render true t n c).1 = render_plain n t
  ∧ cache_sound scene (render true t n c).2.
Proof.
  revert c.
  induction n as [id appearanceAt content|id appearanceAt canvas children IH]
    using node_ind_All; intros c Hin Hc.
  - rewrite render_unfold.
    destruct (cache_lookup true c _ t) as [buf|] eqn:Hl.
    + split; [|done]. symmetry. by eapply cache_lookup_sound.
    + unfold render_plain. rewrite render_unfold.
      cbn [cache_lookup cache_store].
      destruct (content t) as [buf|] eqn:Hcontent; [|done].
      split; [done|]. apply cache_sound_store; [done|done|].
      unfold render_plain. rewrite render_unfold. cbn. by rewrite Hcontent.
  - rewrite render_unfold.
    destruct (cache_lookup true c _ t) as [buf|] eqn:Hl.
    + split; [|done]. symmetry. by eapply cache_lookup_sound.
    + assert (Hsub : Forall (λ child, child ∈ subnodes scene) children).
      { apply Forall_forall. intros child Hchild.
        eapply subnodes_trans; [|exact Hin].
        eapply subnodes_child; [done|apply subnodes_self]. }
      assert (Hch : ∀ behind acc c, cache_sound scene c →
        (composite_children (render true t) t children behind acc c).1
        = (composite_children (render false t) t children behind acc ∅).1
        ∧ cache_sound scene
            (composite_children (render true t) t children behind acc c).2).
      { clear c Hc Hl Hin.
        induction IH as [|child l Hchild _ IHl]; intros behind acc c Hc;
          [done|].
        apply Forall_cons in Hsub as [Hsub1 Hsub2].
        cbn [composite_children].
        destruct (node_appearance child t) as [a|]; [|by apply IHl].
        destruct (Hchild c Hsub1 Hc) as [Hr Hc'].
        rewrite (render_disabled t child ∅).
        destruct (render true t child c) as [r c']. cbn [fst snd] in *.
        subst r. destruct (render_plain child t) as [buf|]; [|done].
        by apply IHl. }
      destruct (Hch None canvas c Hc) as [Hr Hc'].
      assert (Hplain :
        render_plain (CompositionNode id appearanceAt canvas children) t
        = (composite_children (render false t) t children None canvas ∅).1).
      { unfold render_plain. rewrite render_unfold.
        cbn [cache_lookup cache_store].
        by destruct (composite_children (render false t) t children None
                       canvas ∅) as [[buf|] c0]. }
      destruct (composite_children (render true t) t children None canvas c)
        as [[buf|] c']; cbn [fst snd] in *.
      * split; [by rewrite Hplain|].
        apply cache_sound_store; [done|done|]. by rewrite Hplain.
      * split; [by rewrite Hplain|done].
Qed.

Lemma cache_after_sound (history : list cache_step) :
  cache_sound scene (cache_after scene history).
Proof.
  unfold cache_after.
  assert (Hfold : ∀ c, cache_sound scene c →
    cache_sound scene (fold_left (cache_step_run composite scene) history c)).
  { induction history as [|s history IH]; intros c Hc; [done|].
    cbn [fold_left]. apply IH. destruct s as [t|id|id t]; cbn [cache_step_run].
    - by apply render_enabled_sound; [apply subnodes_self|].
    - by apply cache_sound_invalidate.
    - by apply cache_sound_evict. }
  apply Hfold, cache_sound_empty.
Qed.

End scene.


End frame_cache_transparency.

Example demo_render :
  (render demo_composite true 3 demo_scene ∅).1 = Some 125
  ∧ (render demo_composite true 12 demo_scene ∅).1 = Some 137
  ∧ (render demo_composite true (-1) demo_scene ∅).1 = None
  ∧ fingerprint demo_scene 12
    = FP (Some 1) [FP (Some 1) []; FP (Some 1) [FP (Some 1) []]].
Proof. by vm_compute. Qed.


(** Identities matter: two layers under one identity share their cache
    entries, so such a tree is not a scene graph. *)
Example shared_id_shares_entries :
  (render demo_composite true 0 shared_id_scene ∅).1 = Some 10
  ∧ (render demo_composite false 0 shared_id_scene ∅).1 = Some 12
  ∧ ¬ NoDup (node_ids shared_id_scene).
Proof.
  split_and!; [by vm_compute|by vm_compute|compute_done].
Qed.

(** ** Anchor points *)

Lemma direction_table_hit s d :
  Direction.STRING_TO_DIRECTION !! s = Some d → s = lower (Direction.name d).
Proof.
  intros H. apply literal_lookup_Some in H.
  unfold Direction.STRING_TO_DIRECTION_items in H.
  elem_cases H; by simplify_eq.
Qed.

Lemma direction_table_member d :
  Direction.STRING_TO_DIRECTION !! lower (Direction.name d) = Some d.
Proof. destruct d; vm_compute; reflexivity. Qed.

(** X1. [Direction] has nine members with distinct values, and
    [Direction.from_string] is a bijection between their nine lower-case
    names and the members: it sends the lower-case name of each member to
    that member and nothing else to it, and raises
    [ValueError("Unknown origin point: ...")] on every other string. *)
Theorem direction_from_string_exact :
  length Direction.members = 9%nat ∧
  (∀ d, d ∈ Direction.members) ∧
  NoDup (Direction.value <$> Direction.members) ∧
  (∀ s d, Direction.from_string s = inr d ↔ s = lower (Direction.name d)) ∧
  (∀ s, (∀ d, s ≠ lower (Direction.name d)) →
        Direction.from_string s
        = inl (ValueError ("Unknown origin point: " +:+ s))).
Proof.
  split_and!.
  - reflexivity.
  - intros d. apply list_elem_of_In. destruct d; vm_compute; tauto.
  - compute_done.
  - intros s d. unfold Direction.from_string.
    rewrite guarded_getitem_inr. split.
    + apply direction_table_hit.
    + intros ->. apply direction_table_member.
  - intros s Hs. unfold Direction.from_string.
    apply guarded_getitem_None.
    destruct (Direction.STRING_TO_DIRECTION !! s) as [d|] eqn:Hd; [|done].
    apply direction_table_hit in Hd. by destruct (Hs d).
Qed.

(** X2. [Direction.to_vector] never reaches its [ValueError] branch, and
    it lays the nine directions out as the number pad of their values: with
    [k = value - 1], the x coordinate depends only on the column [k mod 3]
    (the int [0], [size[0] / 2], [size[0]]) and the y coordinate only on the
    row [k div 3] ([size[1]] for the bottom row, [size[1] / 2], the int [0]
    for the top row). *)
Theorem direction_to_vector_grid (d : Direction.t) (size : float * float) :
  Direction.to_vector d size
  = inr (grid_coordinate ((Direction.value d - 1) mod 3) (fst size),
         grid_coordinate (2 - (Direction.value d - 1) / 3) (snd size)).
Proof. by destruct d. Qed.

Lemma alignment_table_hit s a :
  TextAlignment.STRING_TO_TEXT_ALIGNMENT !! s = Some a →
  s = lower (TextAlignment.name a).
Proof.
  intros H. apply literal_lookup_Some in H.
  unfold TextAlignment.STRING_TO_TEXT_ALIGNMENT_items in H.
  elem_cases H; by simplify_eq.
Qed.

Lemma alignment_table_member a :
  TextAlignment.STRING_TO_TEXT_ALIGNMENT !! lower (TextAlignment.name a)
  = Some a.
Proof. destruct a; vm_compute; reflexivity. Qed.

(** X3. [TextAlignment.from_string] accepts exactly ['left'],
    ['center'] and ['right'], each sent to the member of that name, and
    raises [ValueError("Unknown text alignment: ...")] on every other
    string; the three members have distinct values.  The only string that
    both it and [Direction.from_string] accept is ['center']. *)
Theorem text_alignment_from_string_exact :
  (∀ a, a ∈ TextAlignment.members) ∧
  NoDup (TextAlignment.value <$> TextAlignment.members) ∧
  (∀ s a, TextAlignment.from_string s = inr a
          ↔ s = lower (TextAlignment.name a)) ∧
  (∀ s, (∀ a, s ≠ lower (TextAlignment.name a)) →
        TextAlignment.from_string s
        = inl (ValueError ("Unknown text alignment: " +:+ s))) ∧
  (∀ s a d, TextAlignment.from_string s = inr a →
            Direction.from_string s = inr d →
            s = "center" ∧ a = TextAlignment.CENTER ∧ d = Direction.CENTER).
Proof.
  assert (Hiff : ∀ s a, TextAlignment.from_string s = inr a
                        ↔ s = lower (TextAlignment.name a)).
  { intros s a. unfold TextAlignment.from_string.
    rewrite guarded_getitem_inr. split.
    - apply alignment_table_hit.
    - intros ->. apply alignment_table_member. }
  split_and!.
  - intros a. apply list_elem_of_In. destruct a; vm_compute; tauto.
  - compute_done.
  - exact Hiff.
  - intros s Hs. unfold TextAlignment.from_string.
    apply guarded_getitem_None.
    destruct (TextAlignment.STRING_TO_TEXT_ALIGNMENT !! s) as [a|] eqn:Ha;
      [|done].
    apply alignment_table_hit in Ha. by destruct (Hs a).
  - intros s a d Ha Hd. apply Hiff in Ha. subst s.
    unfold Direction.from_string in Hd. rewrite guarded_getitem_inr in Hd.
    apply direction_table_hit in Hd. by destruct a, d.
Qed.

(** X4. [MotionType] has 55 members with pairwise distinct values, so
    no member is an alias of another.  The values encode the curve: at each
    declared power [p] the identifiers [ease_in<p>], [ease_out<p>] and
    [ease_in_out<p>] name the members of value [100 + p], [200 + p] and
    [300 + p], and every member of value at least 100 has a family digit
    1, 2 or 3 and a declared power in its last two digits. *)
Theorem motion_type_values :
  length MotionType.members = 55%nat ∧
  NoDup (MotionType.value <$> MotionType.members) ∧
  (∀ p, p ∈ MotionType.powers →
     ∃ a b c,
       MotionType.from_string ("ease_in" +:+ str_int p) = inr a
       ∧ MotionType.value a = 100 + p
       ∧ MotionType.from_string ("ease_out" +:+ str_int p) = inr b
       ∧ MotionType.value b = 200 + p
       ∧ MotionType.from_string ("ease_in_out" +:+ str_int p) = inr c
       ∧ MotionType.value c = 300 + p) ∧
  (∀ m, 100 ≤ MotionType.value m →
        (MotionType.value m) mod 100 ∈ MotionType.powers
        ∧ 1 ≤ MotionType.value m / 100 ≤ 3).
Proof.
  split_and!.
  - reflexivity.
  - compute_done.
  - intros p Hp. unfold MotionType.powers in Hp.
    elem_cases Hp; subst p; eexists _, _, _; split_and!;
      vm_compute; reflexivity.
  - intros m Hm. rewrite list_elem_of_In.
    destruct m; cbn in Hm; try lia; clear Hm;
      (split; [vm_compute; tauto | vm_compute; split; discriminate]).
Qed.

(** X5. [AttributeType.from_string] returns a member exactly on the
    lower-case name of a member other than [COLOR] (it is case-sensitive),
    and raises [ValueError("Unknown attribute type: ...")] on every other
    string. *)
Theorem attribute_from_string_exact (s : string) :
  (∀ a, AttributeType.from_string s = inr a
        ↔ s = lower (AttributeType.name a) ∧ a ≠ AttributeType.COLOR) ∧
  ((∀ a, a ≠ AttributeType.COLOR → s ≠ lower (AttributeType.name a)) →
   AttributeType.from_string s
   = inl (ValueError ("Unknown attribute type: " +:+ s))).
Proof.
  unfold AttributeType.from_string.
  destruct (String.eqb_spec s "scalar") as [->|H1].
  { split; [|intros H; by destruct (H AttributeType.SCALAR)].
    intros a. split; [by intros [= <-]|]. by destruct a; intros [? ?]. }
  destruct (String.eqb_spec s "vector2d") as [->|H2].
  { split; [|intros H; by destruct (H AttributeType.VECTOR2D)].
    intros a. split; [by intros [= <-]|]. by destruct a; intros [? ?]. }
  destruct (String.eqb_spec s "vector3d") as [->|H3].
  { split; [|intros H; by destruct (H AttributeType.VECTOR3D)].
    intros a. split; [by intros [= <-]|]. by destruct a; intros [? ?]. }
  destruct (String.eqb_spec s "angle") as [->|H4].
  { split; [|intros H; by destruct (H AttributeType.ANGLE)].
    intros a. split; [by intros [= <-]|]. by destruct a; intros [? ?]. }
  split; [|done]. intros a. split; [done|].
  intros [-> Ha]. by destruct a.
Qed.

(** ** Colours *)

Example rgb_to_ass_color_examples :
  rgb_to_ass_color [255; 166; 56] = inr "&H38a6ff"
  ∧ rgb_to_ass_color [1; 2; 3; 160] = inr "&Ha0030201"
  ∧ rgb_to_ass_color [256; 0; 0] = inr "&H0000100"
  ∧ rgb_to_ass_color [-1; 0; 0] = inr "&H0000-1"
  ∧ rgb_to_ass_color [1; 2]
    = inl (ValueError "length of rgb_array must be 3(rgb) or 4(rgba)").
Proof. by vm_compute. Qed.

(** A channel in [0, 255] is written with exactly two hexadecimal digits
    that read back as the channel. *)
Lemma format_0x_byte c :
  0 ≤ c ≤ 255 →
  ∃ a b, format_0x 2 c = String a (String b "")
         ∧ read_hex (String a (String b "")) = Some c.
Proof.
  intros Hc.
  assert (Hall :
    forallb (λ k, match format_0x 2 (Z.of_nat k) with
                  | String a (String b "") =>
                      bool_decide (read_hex (String a (String b ""))
                                   = Some (Z.of_nat k))
                  | _ => false
                  end) (seq 0 256) = true) by (vm_compute; reflexivity).
  rewrite forallb_forall in Hall. specialize (Hall (Z.to_nat c)).
  rewrite Z2Nat.id in Hall by lia.
  destruct (format_0x 2 c) as [|a [|b [|]]];
    try (discriminate Hall; apply in_seq; lia).
  exists a, b. split; [done|].
  eapply bool_decide_eq_true_1, Hall. apply in_seq. lia.
Qed.

(** X6. [rgb_to_ass_color] raises [ValueError] exactly when its argument
    has neither three nor four components; otherwise it returns a string
    that starts with [&H].  When every component is in [0, 255] the string
    has two lower-case hexadecimal digits per component, written in
    reverse order (blue, green, red; alpha first): reading the two-digit
    groups from the last to the first gives back the components. *)
Theorem rgb_to_ass_color_round_trip (rgb_array : list Z) :
  (length rgb_array ≠ 3%nat → length rgb_array ≠ 4%nat →
   rgb_to_ass_color rgb_array
   = inl (ValueError "length of rgb_array must be 3(rgb) or 4(rgba)")) ∧
  (length rgb_array = 3%nat ∨ length rgb_array = 4%nat →
   ∃ s, rgb_to_ass_color rgb_array = inr ("&H" +:+ s)) ∧
  (length rgb_array = 3%nat ∨ length rgb_array = 4%nat →
   Forall (λ c, 0 ≤ c ≤ 255) rgb_array →
   ∃ s, rgb_to_ass_color rgb_array = inr s
        ∧ String.length s = (2 + 2 * length rgb_array)%nat
        ∧ ass_color_channels s = Some rgb_array).
Proof.
  split_and!.
  - intros H3 H4. unfold rgb_to_ass_color.
    by rewrite !bool_decide_false by done.
  - intros [H|H];
      destruct rgb_array as [|x0 [|x1 [|x2 [|x3 [|x4 l]]]]]; try done;
      by eexists.
  - intros Hlen Hall.
    destruct rgb_array as [|x0 [|x1 [|x2 [|x3 [|x4 l]]]]];
      try (destruct Hlen; discriminate).
    + apply Forall_cons in Hall as [H0 Hall].
      apply Forall_cons in Hall as [H1 Hall].
      apply Forall_cons in Hall as [H2 _].
      apply format_0x_byte in H0 as (a0 & b0 & E0 & R0).
      apply format_0x_byte in H1 as (a1 & b1 & E1 & R1).
      apply format_0x_byte in H2 as (a2 & b2 & E2 & R2).
      eexists. split; [reflexivity|]. rewrite E0, E1, E2.
      split; [reflexivity|].
      rewrite !append_cons, !append_nil_l.
      cbn [ass_color_channels pairs fmap option_fmap option_map
           mbind option_bind mapM].
      by rewrite R0, R1, R2.
    + apply Forall_cons in Hall as [H0 Hall].
      apply Forall_cons in Hall as [H1 Hall].
      apply Forall_cons in Hall as [H2 Hall].
      apply Forall_cons in Hall as [H3 _].
      apply format_0x_byte in H0 as (a0 & b0 & E0 & R0).
      apply format_0x_byte in H1 as (a1 & b1 & E1 & R1).
      apply format_0x_byte in H2 as (a2 & b2 & E2 & R2).
      apply format_0x_byte in H3 as (a3 & b3 & E3 & R3).
      eexists. split; [reflexivity|]. rewrite E0, E1, E2, E3.
      split; [reflexivity|].
      rewrite !append_cons, !append_nil_l.
      cbn [ass_color_channels pairs fmap option_fmap option_map
           mbind option_bind mapM].
      by rewrite R0, R1, R2, R3.
Qed.

Lemma rgb_to_ass_color_round_trip_witness :
  ∃ s, rgb_to_ass_color [94; 166; 56] = inr s
       ∧ String.length s = 8%nat
       ∧ ass_color_channels s = Some [94; 166; 56].
Proof.
  apply (proj2 (proj2 (rgb_to_ass_color_round_trip [94; 166; 56]))).
  - by left.
  - repeat constructor; lia.
Defined.

(** ** Columns of a style line *)

Lemma count_char_app c a b :
  count_char c (a +:+ b) = (count_char c a + count_char c b)%nat.
Proof.
  induction a as [|x a IH]; [done|]. rewrite append_cons. cbn. rewrite IH. lia.
Qed.

Lemma count_char_free c s : char_free c s → count_char c s = 0%nat.
Proof.
  induction s as [|x s IH]; [done|]. intros [Hx Hs]%char_free_cons.
  cbn. apply Ascii.eqb_neq in Hx as ->. by rewrite IH.
Qed.

Lemma count_char_0 c s : count_char c s = 0%nat → char_free c s.
Proof.
  induction s as [|x s IH]; [intros _; apply char_free_nil|].
  cbn. destruct (Ascii.eqb_spec x c) as [->|Hx]; [done|].
  intros H. apply char_free_cons. split; [done|]. by apply IH.
Qed.

(** [s.split(c)] has one more field than [s] has separators. *)
Lemma length_split_on c s :
  length (split_on c s) = S (count_char c s).
Proof.
  induction s as [|x s IH]; [done|]. rewrite split_on_cons. cbn [count_char].
  destruct (Ascii.eqb x c); cbn [length]; [by rewrite IH|].
  pose proof (split_on_not_nil c s).
  destruct (split_on c s); [done|]. cbn [length] in *. lia.
Qed.

(** X7. [_make_ass_style] does not escape commas: its line has 23
    comma-separated columns plus one for every comma in the name, the font
    name and the four colours.  So it has the 23 columns of the Format
    header exactly when these six strings hold no comma. *)
Theorem make_ass_style_column_count (s : ASSStyleType) :
  length (split_on "," (_make_ass_style s))
  = (23 + count_char "," (name s) + count_char "," (font_name s)
     + count_char "," (primary_color s) + count_char "," (secondary_color s)
     + count_char "," (outline_color s) + count_char "," (back_color s))%nat
  ∧ (length (split_on "," (_make_ass_style s)) = 23%nat
     ↔ char_free "," (name s) ∧ char_free "," (font_name s)
       ∧ char_free "," (primary_color s) ∧ char_free "," (secondary_color s)
       ∧ char_free "," (outline_color s) ∧ char_free "," (back_color s)).
Proof.
  assert (Hcount :
    length (split_on "," (_make_ass_style s))
    = (23 + count_char "," (name s) + count_char "," (font_name s)
       + count_char "," (primary_color s) + count_char "," (secondary_color s)
       + count_char "," (outline_color s) + count_char "," (back_color s))%nat).
  { rewrite length_split_on. unfold _make_ass_style.
    rewrite !count_char_app.
    rewrite !(count_char_free _ (str_int _)) by apply str_int_comma_free.
    cbn [count_char Ascii.eqb Bool.eqb]. lia. }
  split; [done|]. rewrite Hcount. split.
  - intros H. split_and!; apply count_char_0; lia.
  - intros (H1 & H2 & H3 & H4 & H5 & H6).
    rewrite !count_char_free by done. lia.
Qed.

Example make_ass_style_comma_in_name :
  length (split_on "," (_make_ass_style (zunda_style "a,b" "&H0" "&H0" 0 25)))
  = 24%nat.
Proof. reflexivity. Qed.

(** ** Times that are not finite *)

Lemma float_int_inl x e :
  float_int x = inl e ↔ int_error (Prim2SF x) = Some e.
Proof.
  unfold float_int, int_error, raise, ret.
  destruct (Prim2SF x); split; intros H; by simplify_eq.
Qed.

Lemma float_int_not_assertion x : float_int x ≠ inl AssertionError.
Proof.
  intros H%float_int_inl. unfold int_error in H.
  by destruct (Prim2SF x).
Qed.

Lemma int_error_div t c e mc ec :
  Prim2SF c = S754_finite false mc ec →
  int_error (Prim2SF t) = Some e → int_error (Prim2SF (t / c)) = Some e.
Proof.
  intros Hc He. rewrite div_spec, Hc. unfold SF64div.
  by destruct (Prim2SF t).
Qed.

Lemma get_time_not_finite t e :
  int_error (Prim2SF t) = Some e → get_time t = inl e.
Proof.
  intros He. unfold get_time.
  apply (int_error_div _ 3600 _ _ _ Prim2SF_3600), float_int_inl in He.
  by rewrite He.
Qed.

Lemma srt_time_line_not_finite t0 t1 e :
  int_error (Prim2SF t0) = Some e
  ∨ (is_time t0 ∧ int_error (Prim2SF t1) = Some e) →
  srt_time_line t0 t1 = inl e.
Proof.
  unfold srt_time_line. intros [He|[H0 He]].
  - apply (int_error_div _ 3600 _ _ _ Prim2SF_3600), float_int_inl in He.
    by rewrite He.
  - apply timestamp_fields in H0
      as (h & m & s & c & ms & -> & -> & -> & _ & -> & _).
    cbn [bind ret].
    apply (int_error_div _ 3600 _ _ _ Prim2SF_3600), float_int_inl in He.
    by rewrite He.
Qed.

(** A row the writers cannot print: its start time is not finite, or its
    start is a time and its end time is not finite. *)
Lemma get_time_not_assertion t : get_time t ≠ inl AssertionError.
Proof.
  unfold get_time. intros H.
  repeat match type of H with
         | bind (float_int ?x) _ = _ =>
             let E := fresh in
             destruct (float_int x) eqn:E;
             [cbn [bind] in H; simplify_eq; by apply float_int_not_assertion in E|
              cbn [bind] in H]
         end.
  done.
Qed.

Lemma srt_time_line_not_assertion t0 t1 :
  srt_time_line t0 t1 ≠ inl AssertionError.
Proof.
  unfold srt_time_line. intros H.
  repeat match type of H with
         | bind (float_int ?x) _ = _ =>
             let E := fresh in
             destruct (float_int x) eqn:E;
             [cbn [bind] in H; simplify_eq; by apply float_int_not_assertion in E|
              cbn [bind] in H]
         end.
  done.
Qed.

Lemma ass_lines_not_assertion rows : ass_lines rows ≠ inl AssertionError.
Proof.
  induction rows as [|(t0 & t1 & c & x) rows IH]; [done|].
  cbn [ass_lines]. intros H.
  destruct (get_time t0) eqn:E0;
    [cbn [bind] in H; simplify_eq; by apply get_time_not_assertion in E0|].
  destruct (get_time t1) eqn:E1;
    [cbn [bind] in H; simplify_eq; by apply get_time_not_assertion in E1|].
  cbn [bind] in H. destruct (ass_lines rows); [|done].
  cbn [bind] in H. by simplify_eq.
Qed.

Lemma write_srt_loop_not_assertion rows srt :
  raised (write_srt_loop rows srt) ≠ Some AssertionError.
Proof.
  revert srt. induction rows as [|(i & t0 & t1 & x) rows IH]; intros srt;
    [done|].
  cbn [write_srt_loop].
  destruct (srt_time_line t0 t1) eqn:E; [|apply IH].
  cbn [raised]. intros [= ->]. by apply srt_time_line_not_assertion in E.
Qed.

(** X8. [write_ass_file] and [write_srt_file] raise [AssertionError]
    exactly when the start times, end times and texts are not of the same
    length, and then the destination file is not opened.  No other failure
    of theirs is an [AssertionError]. *)
Theorem writers_assertion (start_times end_times : list float)
    (texts : list string) (size : Z * Z) (characters : option (list string))
    (styles : option (list ASSStyleType)) :
  (raised (write_ass_file start_times end_times texts size characters styles)
   = Some AssertionError
   ↔ ¬ (length start_times = length end_times
        ∧ length end_times = length texts))
  ∧ (raised (write_srt_file start_times end_times texts)
     = Some AssertionError
     ↔ ¬ (length start_times = length end_times
          ∧ length end_times = length texts))
  ∧ (¬ (length start_times = length end_times
        ∧ length end_times = length texts) →
     written (write_ass_file start_times end_times texts size characters
                styles) = None
     ∧ written (write_srt_file start_times end_times texts) = None).
Proof.
  unfold write_ass_file, write_srt_file.
  destruct (decide (length start_times = length end_times
                    ∧ length end_times = length texts)) as [Hy|Hn].
  - rewrite !bool_decide_true by done. cbn [negb]. split_and!; [| |done].
    + split; [|done].
      destruct (ass_lines _) eqn:E; cbn [raised]; [|done].
      intros [= ->]. by apply ass_lines_not_assertion in E.
    + split; [|done]. intros H. by apply write_srt_loop_not_assertion in H.
  - rewrite !bool_decide_false by done. cbn [negb]. by split_and!.
Qed.

(** ** A row the writers cannot print *)

Lemma ass_lines_bad (good : list cue) (bad : cue) (rest : list cue) e :
  Forall (λ q, is_time (cue_start q) ∧ is_time (cue_end q)) good →
  int_error (Prim2SF (cue_start bad)) = Some e
  ∨ (is_time (cue_start bad) ∧ int_error (Prim2SF (cue_end bad)) = Some e) →
  ass_lines (zip (cue_start <$> good ++ bad :: rest)
               (zip (cue_end <$> good ++ bad :: rest)
                  (zip (cue_character <$> good ++ bad :: rest)
                       (cue_text <$> good ++ bad :: rest))))
  = inl e.
Proof.
  intros Hgood Hbad. induction Hgood as [|q good [H0 H1] _ IH].
  - cbn [app fmap list_fmap zip zip_with ass_lines].
    destruct Hbad as [He|[H0 He]].
    + by rewrite (get_time_not_finite _ _ He).
    + rewrite (get_time_is_time _ H0). cbn [bind].
      by rewrite (get_time_not_finite _ _ He).
  - cbn [app fmap list_fmap zip zip_with ass_lines].
    rewrite (get_time_is_time _ H0), (get_time_is_time _ H1). cbn [bind].
    by rewrite IH.
Qed.

Lemma write_srt_loop_bad (good : list cue) (bad : cue) (rest : list cue) e
    i srt :
  Forall (λ q, is_time (cue_start q) ∧ is_time (cue_end q)) good →
  int_error (Prim2SF (cue_start bad)) = Some e
  ∨ (is_time (cue_start bad) ∧ int_error (Prim2SF (cue_end bad)) = Some e) →
  write_srt_loop
    (enumerate_from i
       (zip (cue_start <$> good ++ bad :: rest)
          (zip (cue_end <$> good ++ bad :: rest)
               (cue_text <$> good ++ bad :: rest)))) srt
  = {| written :=
         Some (srt +:+ srt_cues (i + 1) good
               +:+ str_int (i + Z.of_nat (length good) + 1) +:+ LF);
       raised := Some e |}.
Proof.
  intros Hgood Hbad. revert i srt.
  induction Hgood as [|q good [H0 H1] _ IH]; intros i srt.
  - cbn [app fmap list_fmap zip zip_with enumerate_from write_srt_loop
         srt_cues length].
    rewrite (srt_time_line_not_finite _ _ _ Hbad).
    cbn [Z.of_nat]. rewrite Z.add_0_r. by rewrite append_nil_l.
  - cbn [app fmap list_fmap zip zip_with enumerate_from write_srt_loop
         srt_cues length].
    rewrite (srt_time_line_is_time _ _ H0 H1), IH.
    unfold srt_cue, cleaned_text. rewrite !append_assoc.
    replace (i + 1 + Z.of_nat (length good) + 1)
      with (i + Z.of_nat (S (length good)) + 1) by lia.
    done.
Qed.

(** X9. When the rows before some row are printable and that row has a
    NaN or infinite start time (or a good start time and a NaN or infinite
    end time), both writers raise the error of [int()] on that time
    ([ValueError] for NaN, [OverflowError] for an infinity).
    [write_ass_file] then leaves no file; [write_srt_file] has already
    opened its file and leaves it truncated: the blocks of the rows before,
    followed by the index line of the failing row. *)
Theorem writers_on_bad_time (good : list cue) (bad : cue) (rest : list cue)
    (size : Z * Z) (styles : option (list ASSStyleType)) (e : exn) :
  Forall (λ q, is_time (cue_start q) ∧ is_time (cue_end q)) good →
  int_error (Prim2SF (cue_start bad)) = Some e
  ∨ (is_time (cue_start bad) ∧ int_error (Prim2SF (cue_end bad)) = Some e) →
  write_ass_file (cue_start <$> good ++ bad :: rest)
    (cue_end <$> good ++ bad :: rest) (cue_text <$> good ++ bad :: rest)
    size (Some (cue_character <$> good ++ bad :: rest)) styles
  = {| written := None; raised := Some e |}
  ∧ write_srt_file (cue_start <$> good ++ bad :: rest)
      (cue_end <$> good ++ bad :: rest) (cue_text <$> good ++ bad :: rest)
    = {| written :=
           Some (srt_cues 1 good
                 +:+ str_int (Z.of_nat (length good) + 1) +:+ LF);
         raised := Some e |}.
Proof.
  intros Hgood Hbad. unfold write_ass_file, write_srt_file.
  rewrite !bool_decide_true by (by rewrite !length_fmap). cbn [negb].
  split.
  - by rewrite (ass_lines_bad good bad rest e Hgood Hbad).
  - rewrite (write_srt_loop_bad good bad rest e 0 "" Hgood Hbad).
    by rewrite append_nil_l.
Qed.

Lemma writers_on_bad_time_witness :
  write_srt_file [0%float; nan] [1.5%float; 3%float] ["a"; "b"]
  = {| written := Some ("1" +:+ LF +:+ "00:00:00,000 --> 00:00:01,500" +:+ LF
                        +:+ "a" +:+ LF +:+ LF +:+ "2" +:+ LF);
       raised := Some (ValueError "cannot convert float NaN to integer") |}.
Proof.
  apply (proj2 (writers_on_bad_time
    [ {| cue_start := 0; cue_end := 1.5;
         cue_character := "Default"; cue_text := "a" |} ]
    {| cue_start := nan; cue_end := 3;
       cue_character := "Default"; cue_text := "b" |} []
    (1920, 1080) None
    (ValueError "cannot convert float NaN to integer")
    ltac:(repeat constructor; vm_compute; reflexivity)
    ltac:(left; vm_compute; reflexivity))).
Defined.

(** ** Fewer style names than rows *)

Lemma zip_characters (cues : list cue) (cs : list string) :
  zip (cue_start <$> cues)
    (zip (cue_end <$> cues) (zip cs (cue_text <$> cues)))
  = zip (cue_start <$> zip_with with_character cues cs)
      (zip (cue_end <$> zip_with with_character cues cs)
         (zip (cue_character <$> zip_with with_character cues cs)
              (cue_text <$> zip_with with_character cues cs))).
Proof.
  revert cs. induction cues as [|q cues IH]; intros [|c cs]; try done.
  cbn [fmap list_fmap zip zip_with]. by rewrite (IH cs).
Qed.

(** X10. [write_ass_file] pairs rows and style names with [zip]: given
    fewer names than rows it writes one [Dialogue] line per name and
    silently drops the remaining rows, whose times are not even looked at;
    the number of lines is the smaller of the two lengths. *)
Theorem write_ass_file_short_characters (cues : list cue) (cs : list string)
    (size : Z * Z) (styles : option (list ASSStyleType)) :
  Forall (λ q, is_time (cue_start q) ∧ is_time (cue_end q))
    (take (length cs) cues) →
  write_ass_file (cue_start <$> cues) (cue_end <$> cues) (cue_text <$> cues)
    size (Some cs) styles
  = {| written :=
         Some (ass_header size (default [ASSStyleType_default] styles)
               +:+ join LF (ass_cue_line <$> zip_with with_character cues cs));
       raised := None |}
  ∧ length (zip_with with_character cues cs)
    = (length cues `min` length cs)%nat.
Proof.
  intros Hall. split; [|apply length_zip_with].
  unfold write_ass_file.
  rewrite bool_decide_true by (by rewrite !length_fmap). cbn [negb].
  rewrite zip_characters, ass_lines_cues; [by destruct styles|].
  clear -Hall. revert cs Hall.
  induction cues as [|q cues IH]; intros [|c cs] Hall;
    cbn [zip_with]; try constructor.
  - cbn [length take] in Hall. apply Forall_cons in Hall as [Hq _]. done.
  - cbn [length take] in Hall. apply Forall_cons in Hall as [_ Hall].
    by apply IH.
Qed.

Lemma write_ass_file_short_characters_witness :
  write_ass_file [0%float; 1.5%float] [1.5%float; nan] ["a"; "b"]
    (1920, 1080) (Some ["zunda"]) None
  = {| written :=
         Some (ass_header (1920, 1080) [ASSStyleType_default]
               +:+ "Dialogue: 0,00:00:00.00,00:00:01.50,zunda,,0,0,0,,a");
       raised := None |}.
Proof.
  apply (proj1 (write_ass_file_short_characters
    [ {| cue_start := 0; cue_end := 1.5;
         cue_character := "Default"; cue_text := "a" |};
      {| cue_start := 1.5; cue_end := nan;
         cue_character := "Default"; cue_text := "b" |} ]
    ["zunda"] (1920, 1080) None
    ltac:(repeat constructor; vm_compute; reflexivity))).
Defined.

(** ** The lines of an SRT file *)

Lemma replace_from_char_removed c k s :
  char_free c (replace_from (String c "") "" k s).
Proof.
  revert k. induction s as [|x s IH]; intros k; [apply char_free_nil|].
  cbn [replace_from]. destruct k as [|k]; [|apply IH].
  cbn [String.prefix]. destruct (ascii_dec c x) as [->|Hx].
  - destruct s; rewrite append_nil_l; apply IH.
  - apply char_free_cons. split; [done|apply IH].
Qed.

(** The cleaned text of a cue holds no newline. *)
Lemma cleaned_text_one_line s : char_free (ascii_of_nat 10) (cleaned_text s).
Proof. apply replace_from_char_removed. Qed.

Lemma newline_not_digit : ¬ is_digit (ascii_of_nat 10).
Proof. intros [H _]. vm_compute in H. by apply H. Qed.

Lemma digits_char_free c s :
  ¬ is_digit c → Forall is_digit (list_ascii_of_string s) → char_free c s.
Proof.
  intros Hc Hall Hin. rewrite Forall_forall in Hall. by apply Hall in Hin.
Qed.

Lemma str_int_char_free c n :
  ¬ is_digit c → c ≠ "-"%char → char_free c (str_int n).
Proof.
  intros Hc Hm.
  assert (Hd : ∀ d, char_free c (NilEmpty.string_of_uint d)).
  { intros d. apply digits_char_free; [done|apply string_of_uint_digits]. }
  unfold str_int. destruct n as [|p|p]; cbn.
  - apply char_free_cons. split; [|apply char_free_nil].
    intros <-. apply Hc. unfold is_digit. cbn. lia.
  - apply Hd.
  - apply char_free_cons. split; [done|apply Hd].
Qed.

Lemma srt_timestamp_one_line t :
  is_time t → char_free (ascii_of_nat 10) (srt_timestamp t).
Proof.
  intros (Hh & Hm & _ & Hs & _ & _ & _ & Hms & _)%timestamp_shape.
  pose proof newline_not_digit as Hlf.
  unfold srt_timestamp. rewrite !char_free_app. split_and!;
    first [ by apply digits_char_free; [done|apply Hh || apply Hm
                                              || apply Hs || apply Hms]
          | compute_done ].
Qed.

Lemma split_lines_field a b :
  char_free (ascii_of_nat 10) a →
  split_on (ascii_of_nat 10) (a +:+ LF +:+ b)
  = a :: split_on (ascii_of_nat 10) b.
Proof. apply (split_on_field (ascii_of_nat 10) a b). Qed.

Lemma split_srt_cues k (cues : list cue) :
  Forall (λ q, is_time (cue_start q) ∧ is_time (cue_end q)) cues →
  split_on (ascii_of_nat 10) (srt_cues k cues) = srt_lines k cues.
Proof.
  intros Hall. revert k.
  induction Hall as [|q cues [H0 H1] _ IH]; intros k; [done|].
  pose proof newline_not_digit as Hlf.
  cbn [srt_cues srt_lines]. unfold srt_cue. rewrite !append_assoc.
  rewrite split_lines_field by (by apply str_int_char_free).
  rewrite <- (append_assoc (srt_timestamp (cue_start q)) " --> ").
  rewrite <- (append_assoc (srt_timestamp (cue_start q) +:+ " --> ")).
  rewrite split_lines_field.
  2:{ rewrite !char_free_app. split_and!;
        [by apply srt_timestamp_one_line|compute_done
        |by apply srt_timestamp_one_line]. }
  rewrite split_lines_field by apply cleaned_text_one_line.
  change (split_on (ascii_of_nat 10) (LF +:+ ?x))
    with ("" :: split_on (ascii_of_nat 10) x).
  by rewrite IH, append_assoc.
Qed.

(** X11. The file [write_srt_file] writes for [n] rows with finite
    non-negative times has exactly [4 n + 1] lines when split at newlines:
    for each row its index, its time line, its cleaned text and an empty
    line, then the empty string after the last newline.  Whatever a text
    holds, its cleaned form holds no newline, so a text cannot break the
    block structure. *)
Theorem write_srt_file_lines (cues : list cue) :
  Forall (λ q, is_time (cue_start q) ∧ is_time (cue_end q)) cues →
  ∃ content,
    write_srt_file (cue_start <$> cues) (cue_end <$> cues) (cue_text <$> cues)
    = {| written := Some content; raised := None |}
    ∧ split_on (ascii_of_nat 10) content = srt_lines 1 cues
    ∧ length (split_on (ascii_of_nat 10) content)
      = (4 * length cues + 1)%nat.
Proof.
  intros Hall. exists (srt_cues 1 cues). split_and!.
  - unfold write_srt_file.
    rewrite bool_decide_true by (by rewrite !length_fmap). cbn [negb].
    rewrite (write_srt_loop_cues cues 0 "" Hall). by rewrite append_nil_l.
  - by apply split_srt_cues.
  - rewrite split_srt_cues by done. clear Hall. generalize 1.
    induction cues as [|q cues IH]; intros k; [done|].
    cbn [srt_lines length]. rewrite IH. lia.
Qed.

Lemma write_srt_file_lines_witness :
  ∃ content,
    write_srt_file [0%float; 1.5%float] [1.5%float; 3%float]
      ["a" +:+ LF +:+ LF +:+ "b"; "c"]
    = {| written := Some content; raised := None |}
    ∧ split_on (ascii_of_nat 10) content
      = [ "1"; "00:00:00,000 --> 00:00:01,500"; "ab"; "";
          "2"; "00:00:01,500 --> 00:00:03,000"; "c"; ""; "" ].
Proof.
  destruct (write_srt_file_lines
    [ {| cue_start := 0; cue_end := 1.5;
         cue_character := "Default"; cue_text := "a" +:+ LF +:+ LF +:+ "b" |};
      {| cue_start := 1.5; cue_end := 3;
         cue_character := "Default"; cue_text := "c" |} ]
    ltac:(repeat constructor; vm_compute; reflexivity))
    as (content & Hfile & Hlines & _).
  exists content. split; [exact Hfile|]. rewrite Hlines.
  vm_compute. reflexivity.
Defined.

(** ** The ASS file of zunda *)

Lemma make_ass_lines_ass_lines (tl : list timeline_row) :
  make_ass_lines tl
  = ass_lines (zip (start_time <$> tl)
                 (zip (end_time <$> tl)
                    (zip (character <$> tl) (text <$> tl)))).
Proof.
  induction tl as [|r tl IH]; [done|].
  cbn [make_ass_lines fmap list_fmap zip zip_with ass_lines].
  by rewrite IH.
Qed.

Lemma make_ass_file_header_styles :
  make_ass_file_header = ass_header (1920, 1080) make_ass_file_styles.
Proof. vm_compute. reflexivity. Qed.

(** X12. [make_ass_file] of zunda is [write_ass_file] of movis at size
    1920 x 1080 with the row characters as style names and three styles
    (Default, zunda, metan): on every timeline both leave the same file or
    raise the same exception.  In particular the header literal of
    [make_ass_file] is the header [write_ass_file] generates for these
    styles. *)
Theorem make_ass_file_write_ass_file (tl : list timeline_row) :
  make_ass_file tl
  = write_ass_file (start_time <$> tl) (end_time <$> tl) (text <$> tl)
      (1920, 1080) (Some (character <$> tl)) (Some make_ass_file_styles).
Proof.
  unfold make_ass_file, write_ass_file.
  rewrite bool_decide_true by (by rewrite !length_fmap). cbn [negb].
  by rewrite make_ass_lines_ass_lines, make_ass_file_header_styles.
Qed.

(** ** The timeline: bad file names and a second run *)

Section timeline_rerun.
Context (_get_audio_length : string → float) (read_text : string → string)
  (_get_hash_prefix : string → string)
  (_insert_newlines : string → Z → string)
  (filename_stem : string → string)
  (max_length : Z).

Local Abbreviation loop :=
  (timeline_loop _get_audio_length read_text _get_hash_prefix
     _insert_newlines filename_stem max_length).
Local Abbreviation extra :=
  (get_extra_columns _get_hash_prefix _insert_newlines max_length).
Local Abbreviation known_character := (known_character filename_stem).
Local Abbreviation run :=
  (make_timeline_file _get_audio_length read_text _get_hash_prefix
     _insert_newlines filename_stem max_length).

Lemma timeline_loop_first_bad prev good wav_file txt_file rest start :
  Forall (λ clip, known_character clip.2) good →
  (char_free "_" (filename_stem txt_file) →
   loop prev (good ++ (wav_file, txt_file) :: rest) start
   = inl (IndexError "list index out of range"))
  ∧ (∀ c, split_on "_" (filename_stem txt_file) !! 1%nat = Some c →
          character_dict !! c = None →
          loop prev (good ++ (wav_file, txt_file) :: rest) start
          = inl (KeyError c)).
Proof.
  intros Hgood. revert start.
  induction Hgood as [|[w x] good (c0 & n0 & Hc0 & Hn0) _ IH]; intros start.
  - cbn [app timeline_loop]. split.
    + intros Hfree. by rewrite (split_on_char_free _ _ Hfree).
    + intros c Hc Hn. unfold list_getitem, dict_getitem.
      by rewrite Hc; cbn [bind ret]; rewrite Hn.
  - cbn [app timeline_loop snd] in *. unfold list_getitem, dict_getitem.
    rewrite Hc0. cbn [bind ret]. rewrite Hn0. cbn [bind ret].
    destruct (extra prev (read_text x)) as [[x' sl] st].
    destruct (IH (start + _get_audio_length w)%float) as [IH1 IH2].
    split.
    + intros Hfree. by rewrite IH1.
    + intros c Hc Hn. by rewrite (IH2 c Hc Hn).
Qed.

Lemma timeline_loop_inr_known prev clips start rows :
  loop prev clips start = inr rows →
  Forall (λ clip, known_character clip.2) clips.
Proof.
  revert start rows.
  induction clips as [|[w x] clips IH]; intros start rows H; [constructor|].
  cbn [timeline_loop] in H. unfold list_getitem, dict_getitem in H.
  destruct (split_on "_" (filename_stem x) !! 1%nat) as [c|] eqn:Hc; [|done].
  cbn [bind ret] in H.
  destruct (character_dict !! c) as [n|] eqn:Hn; [|done].
  cbn [bind ret] in H.
  destruct (extra prev (read_text x)) as [[x' sl] st].
  destruct (loop prev clips _) as [|rows'] eqn:Hrest; [done|].
  constructor; [by exists c, n|by eapply IH].
Qed.

(** X13. [make_timeline_file] returns rows exactly when every text file
    that is paired with a wav file has a name that yields a known
    character.  Otherwise it raises at the first paired text file that does
    not: [IndexError] when the file name holds no underscore, [KeyError]
    with the second field of the name when that field is not a key of
    [character_dict]. *)
Theorem make_timeline_file_errors prev (wav_files txt_files : list string) :
  ((∃ rows, run prev wav_files txt_files = inr rows)
   ↔ Forall known_character (take (length wav_files) txt_files))
  ∧ ∀ k wav_file txt_file,
      wav_files !! k = Some wav_file → txt_files !! k = Some txt_file →
      Forall known_character (take k txt_files) →
      (char_free "_" (filename_stem txt_file) →
       run prev wav_files txt_files
       = inl (IndexError "list index out of range"))
      ∧ (∀ c, split_on "_" (filename_stem txt_file) !! 1%nat = Some c →
              character_dict !! c = None →
              run prev wav_files txt_files = inl (KeyError c)).
Proof.
  assert (Hzip : ∀ P : string → Prop,
    Forall (λ clip : string * string, P clip.2) (zip wav_files txt_files)
    ↔ Forall P (take (length wav_files) txt_files)).
  { intros P. rewrite !Forall_forall. split.
    - intros H x [i Hi]%list_elem_of_lookup.
      apply lookup_take_Some in Hi as [Hx Hlt].
      apply lookup_lt_is_Some in Hlt as [w Hw].
      apply (H (w, x)). apply list_elem_of_lookup. exists i.
      apply lookup_zip_with_Some. eauto.
    - intros H [w x] [i Hi]%list_elem_of_lookup.
      apply lookup_zip_with_Some in Hi as (w' & x' & [= <- <-] & Hw & Hx).
      apply H. apply list_elem_of_lookup. exists i.
      rewrite lookup_take_lt; [done|]. by apply lookup_lt_Some in Hw. }
  unfold make_timeline_file. split.
  - rewrite <- Hzip. split.
    + intros [rows H]. by eapply timeline_loop_inr_known.
    + apply timeline_loop_returns.
  - intros k wav_file txt_file Hw Hx Hgood.
    assert (Hsplit : zip wav_files txt_files
      = zip (take k wav_files) (take k txt_files)
        ++ (wav_file, txt_file)
           :: zip (drop (S k) wav_files) (drop (S k) txt_files)).
    { rewrite <- (take_drop_middle wav_files k wav_file Hw) at 1.
      rewrite <- (take_drop_middle txt_files k txt_file Hx) at 1.
      rewrite zip_with_app; [done|].
      rewrite !length_take.
      apply lookup_lt_Some in Hw. apply lookup_lt_Some in Hx. lia. }
    rewrite Hsplit. apply timeline_loop_first_bad.
    apply Forall_forall. intros [w x] [i Hi]%list_elem_of_lookup.
    apply lookup_zip_with_Some in Hi as (w' & x' & [= <- <-] & _ & Hx').
    rewrite Forall_forall in Hgood. apply Hgood.
    apply list_elem_of_lookup. eauto.
Qed.

(** *** A second run on the rows of the first *)

Lemma timeline_loop_rows prev clips start rows :
  loop prev clips start = inr rows →
  Forall2 (λ (clip : string * string) r,
             hash r = _get_hash_prefix (read_text clip.2)
             ∧ (text r, slide r, status r) = extra prev (read_text clip.2))
    clips rows.
Proof.
  revert start rows.
  induction clips as [|[w x] clips IH]; intros start rows H.
  - injection H as <-. constructor.
  - cbn [timeline_loop] in H.
    destruct (list_getitem _ 1) as [|c]; [done|]. cbn [bind] in H.
    destruct (dict_getitem _ c) as [|n]; [done|]. cbn [bind] in H.
    destruct (extra prev (read_text x)) as [[x' sl] st] eqn:Hex.
    destruct (loop prev clips _) as [|rows'] eqn:Hrest; [done|].
    cbn [bind ret] in H. injection H as <-.
    constructor; [by cbn|by eapply IH].
Qed.

Lemma timeline_loop_same_extra prev prev' clips start :
  Forall (λ clip : string * string,
            extra prev' (read_text clip.2) = extra prev (read_text clip.2))
    clips →
  loop prev' clips start = loop prev clips start.
Proof.
  intros Hall. revert start.
  induction Hall as [|[w x] clips Hx _ IH]; intros start; [done|].
  cbn [timeline_loop]. cbn [snd] in Hx. by rewrite Hx, IH.
Qed.

(** X14. Running [make_timeline_file] again on the rows it wrote changes
    nothing, provided no two of the paired text files have different texts
    with the same hash prefix: with the previous timeline set to the rows
    of a first run (made with any previous timeline), the second run on the
    same files returns the same rows. *)
Theorem make_timeline_file_rerun prev (wav_files txt_files : list string)
    (rows : list timeline_row) :
  (∀ x y, x ∈ take (length wav_files) txt_files →
          y ∈ take (length wav_files) txt_files →
          _get_hash_prefix (read_text x) = _get_hash_prefix (read_text y) →
          read_text x = read_text y) →
  run prev wav_files txt_files = inr rows →
  run (Some rows) wav_files txt_files = inr rows.
Proof.
  unfold make_timeline_file. intros Hinj Hrun. rewrite <- Hrun.
  apply timeline_loop_same_extra.
  apply timeline_loop_rows in Hrun.
  assert (Htxt : ∀ clip, clip ∈ zip wav_files txt_files →
                         clip.2 ∈ take (length wav_files) txt_files).
  { intros [w x] [i Hi]%list_elem_of_lookup.
    apply lookup_zip_with_Some in Hi as (w' & x' & [= <- <-] & Hw & Hx).
    apply list_elem_of_lookup. exists i.
    rewrite lookup_take_lt; [done|]. by apply lookup_lt_Some in Hw. }
  apply Forall_forall. intros clip Hclip.
  destruct (proj1 (list_elem_of_lookup _ _) Hclip) as [i Hi].
  destruct (Forall2_lookup_l _ _ _ _ _ Hrun Hi) as (r & Hr & Hh & Hex).
  unfold get_extra_columns at 1.
  destruct (filter (λ r0, hash r0 = _get_hash_prefix (read_text clip.2)) rows)
    as [|r0 l] eqn:Hf.
  - assert (r ∈ filter (λ r0, hash r0 = _get_hash_prefix (read_text clip.2))
                  rows) as Hin.
    { apply list_elem_of_filter. split; [done|].
      apply list_elem_of_lookup. eauto. }
    rewrite Hf in Hin. by apply elem_of_nil in Hin.
  - assert (r0 ∈ filter (λ r0, hash r0 = _get_hash_prefix (read_text clip.2))
                   rows) as Hin by (rewrite Hf; left).
    apply list_elem_of_filter in Hin as [Hh0 [j Hj]%list_elem_of_lookup].
    destruct (Forall2_lookup_r _ _ _ _ _ Hrun Hj)
      as (clip' & Hclip' & Hh' & Hex').
    rewrite Hex'. f_equal. apply Hinj.
    + apply Htxt, list_elem_of_lookup. eauto.
    + by apply Htxt.
    + by rewrite <- Hh0, Hh'.
Qed.

End timeline_rerun.

Lemma make_timeline_file_errors_witness :
  make_timeline_file (λ _, 1.5%float) (λ _, "hello") (λ _, "aaf4c6")
    (λ raw_text _, raw_text) (λ p, p) 25 None
    ["001.wav"; "002.wav"] ["001_ずんだもん（ノーマル）_001"; "002"]
  = inl (IndexError "list index out of range").
Proof.
  apply (proj1 (proj2 (make_timeline_file_errors (λ _, 1.5%float)
    (λ _, "hello") (λ _, "aaf4c6") (λ raw_text _, raw_text) (λ p, p) 25 None
    ["001.wav"; "002.wav"] ["001_ずんだもん（ノーマル）_001"; "002"])
    1%nat "002.wav" "002" eq_refl eq_refl
    ltac:(repeat constructor; eexists _, _; split; vm_compute; reflexivity))).
  compute_done.
Defined.

Lemma make_timeline_file_rerun_witness :
  make_timeline_file (λ _, 1.5%float) (λ p, p) (λ raw_text, raw_text)
    (λ raw_text _, raw_text) (λ p, p) 25
    (Some [ {| start_time := 0; end_time := 1.5; character := "zunda";
               hash := "001_ずんだもん（ノーマル）_001";
               text := "001_ずんだもん（ノーマル）_001";
               slide := 0; status := "n" |} ])
    ["001.wav"] ["001_ずんだもん（ノーマル）_001"]
  = inr [ {| start_time := 0; end_time := 1.5; character := "zunda";
             hash := "001_ずんだもん（ノーマル）_001";
             text := "001_ずんだもん（ノーマル）_001";
             slide := 0; status := "n" |} ].
Proof.
  apply (make_timeline_file_rerun (λ _, 1.5%float) (λ p, p)
           (λ raw_text, raw_text) (λ raw_text _, raw_text) (λ p, p) 25 None
           ["001.wav"] ["001_ずんだもん（ノーマル）_001"]).
  - intros x y _ _ H. exact H.
  - vm_compute. reflexivity.
Defined.

(** ** Line breaking *)

Lemma str_len_app a b : str_len (a +:+ b) = str_len a + str_len b.
Proof.
  induction a as [|c a IH]; [done|]. rewrite append_cons. cbn [str_len].
  rewrite IH. lia.
Qed.

Lemma join_empty_cons x l : join "" (x :: l) = x +:+ join "" l.
Proof. destruct l; cbn [join]; [by rewrite append_nil_r|done]. Qed.

Lemma join_empty_app a b : join "" (a ++ b) = join "" a +:+ join "" b.
Proof.
  induction a as [|x a IH]; [done|].
  rewrite <- app_comm_cons, !join_empty_cons, IH. by rewrite append_assoc.
Qed.

Lemma join_empty_concat (gs : list (list string)) :
  join "" (join "" <$> gs) = join "" (concat gs).
Proof.
  induction gs as [|g gs IH]; [done|].
  cbn [fmap list_fmap concat]. by rewrite join_empty_cons, join_empty_app, IH.
Qed.

(** [lines[-1] = x] on a list that ends in [y]. *)
Lemma set_last {A} (l : list A) (x y : A) :
  <[(length (l ++ [y]) - 1)%nat := x]> (l ++ [y]) = l ++ [x].
Proof.
  rewrite length_app. cbn [length].
  replace (length l + 1 - 1)%nat with (length l + 0)%nat by lia.
  by rewrite insert_app_r.
Qed.

Section line_breaking.
Variable max_length : Z.

Local Abbreviation bounded := (bounded_groups max_length).
Local Abbreviation greedy := (greedy_groups max_length).

Lemma greedy_new_line gs g w :
  greedy (gs ++ [g]) → max_length < str_len (join "" g) + str_len w →
  greedy ((gs ++ [g]) ++ [[w]]).
Proof.
  unfold greedy_groups. intros Hgr Hlt i a w' g' Ha Hb.
  destruct (decide (S i < length (gs ++ [g]))%nat) as [Hi|Hi].
  - rewrite lookup_app_l in Ha by lia. rewrite lookup_app_l in Hb by lia.
    by eapply Hgr.
  - rewrite lookup_app_r in Hb by lia.
    destruct (S i - length (gs ++ [g]))%nat as [|n] eqn:Hn; [|done].
    injection Hb as <- <-.
    rewrite length_app in Hn, Hi. cbn [length] in Hn, Hi.
    rewrite lookup_app_l in Ha by (rewrite length_app; cbn [length]; lia).
    rewrite lookup_app_r in Ha by lia.
    replace (i - length gs)%nat with 0%nat in Ha by lia.
    by injection Ha as <-.
Qed.

Lemma greedy_same_line gs g w :
  g ≠ [] → greedy (gs ++ [g]) → greedy (gs ++ [g ++ [w]]).
Proof.
  unfold greedy_groups. intros Hg Hgr i a w' g' Ha Hb.
  destruct (decide (S i < length gs)%nat) as [Hi|Hi].
  - rewrite lookup_app_l in Ha by lia. rewrite lookup_app_l in Hb by lia.
    apply (Hgr i a w' g'); by rewrite lookup_app_l by lia.
  - rewrite lookup_app_r in Hb by lia.
    destruct (S i - length gs)%nat as [|n] eqn:Hn; [|done].
    rewrite lookup_app_l in Ha by lia.
    destruct g as [|w0 g0]; [done|]. injection Hb as <- <-.
    apply (Hgr i a w0 g0); [by rewrite lookup_app_l by lia|].
    rewrite lookup_app_r by lia. by rewrite Hn.
Qed.

Lemma insert_newlines_loop_groups words gs :
  bounded gs → greedy gs →
  ∃ gs',
    insert_newlines_loop words max_length (join "" <$> gs) = join "" <$> gs'
    ∧ concat gs' = concat gs ++ words
    ∧ bounded gs' ∧ greedy gs'.
Proof.
  revert gs. induction words as [|w words IH]; intros gs Hb Hg.
  { exists gs. by rewrite app_nil_r. }
  cbn [insert_newlines_loop].
  destruct gs as [|g gs _] using rev_ind.
  - cbn [fmap list_fmap length app]. rewrite bool_decide_true by done.
    cbn [orb app length Nat.sub last default]. rewrite append_nil_l.
    change (<[0%nat:=w]> [""]) with (join "" <$> [[w]]).
    destruct (IH [[w]]) as (gs' & Hloop & Hcat & Hb' & Hg').
    { apply Forall_cons. split; [split; [done|by left]|constructor]. }
    { by intros [|[|i]] a w' g'. }
    exists gs'. by split_and!.
  - apply Forall_app in Hb as [Hb0 [[Hne Hfit] _]%Forall_cons].
    rewrite fmap_app. cbn [fmap list_fmap].
    rewrite bool_decide_false
      by (rewrite length_app; cbn [length]; lia).
    rewrite last_snoc. cbn [orb].
    change (default "" (Some (join "" g))) with (join "" g).
    destruct (max_length <? str_len (join "" g) + str_len w) eqn:Hlt.
    + apply Z.ltb_lt in Hlt.
      rewrite last_snoc. change (default "" (Some "") +:+ w) with w.
      rewrite set_last.
      change (((join "" <$> gs) ++ [join "" g]) ++ [w])
        with (((join "" <$> gs) ++ (join "" <$> [g])) ++ (join "" <$> [[w]])).
      rewrite <- !fmap_app.
      destruct (IH ((gs ++ [g]) ++ [[w]])) as (gs' & Hloop & Hcat & Hb' & Hg').
      { apply Forall_app. split; [apply Forall_app; split; [done|]|].
        - apply Forall_cons. split; [done|constructor].
        - apply Forall_cons. split; [split; [done|by left]|constructor]. }
      { by apply greedy_new_line. }
      exists gs'. split_and!; try done.
      rewrite Hcat, !concat_app. cbn [concat]. by rewrite !app_nil_r, <- !app_assoc.
    + apply Z.ltb_ge in Hlt. rewrite set_last, last_snoc.
      change (default "" (Some (join "" g))) with (join "" g).
      replace (join "" g +:+ w) with (join "" (g ++ [w]))
        by (by rewrite join_empty_app).
      change ((join "" <$> gs) ++ [join "" (g ++ [w])])
        with ((join "" <$> gs) ++ (join "" <$> [g ++ [w]])).
      rewrite <- fmap_app.
      destruct (IH (gs ++ [g ++ [w]])) as (gs' & Hloop & Hcat & Hb' & Hg').
      { apply Forall_app. split; [done|].
        apply Forall_cons. split; [split|constructor].
        - by destruct g.
        - right. rewrite join_empty_app, str_len_app.
          change (join "" [w]) with w. lia. }
      { by apply greedy_same_line. }
      exists gs'. split_and!; try done.
      rewrite Hcat, !concat_app. cbn [concat]. by rewrite !app_nil_r, <- !app_assoc.
Qed.

End line_breaking.

(** X15. [_insert_newlines] cuts the words of the tagger into consecutive
    groups and joins the groups with backslash-n: no word is split, lost
    or reordered; no group is empty; a group of two or more words is at
    most [max_length] code points long (only a single word can exceed it);
    and the breaking is greedy: the first word of a group did not fit on
    the line before it. *)
Theorem insert_newlines_groups (tagger_parse : string → string)
    (text' : string) (max_length : Z) :
  ∃ groups,
    concat groups = tagger_words tagger_parse text'
    ∧ _insert_newlines tagger_parse text' max_length
      = join backslash_n (join "" <$> groups)
    ∧ bounded_groups max_length groups
    ∧ greedy_groups max_length groups.
Proof.
  destruct (insert_newlines_loop_groups max_length
              (tagger_words tagger_parse text') [])
    as (gs & Hloop & Hcat & Hb & Hg); [constructor|by intros []|].
  exists gs. split_and!; try done.
  unfold _insert_newlines. cbn zeta. by rewrite <- Hloop.
Qed.

Example insert_newlines_example :
  _insert_newlines
    (λ _, "ab" +:+ String (ascii_of_nat 9) "x" +:+ LF
          +:+ "cde" +:+ String (ascii_of_nat 9) "y" +:+ LF
          +:+ "fghij" +:+ String (ascii_of_nat 9) "z" +:+ LF
          +:+ "k" +:+ LF +:+ "EOS" +:+ LF) "abcdefghijk" 4
  = "ab" +:+ backslash_n +:+ "cde" +:+ backslash_n +:+ "fghij"
    +:+ backslash_n +:+ "k".
Proof. vm_compute. reflexivity. Qed.

Example str_len_code_points : str_len "ずんだもん" = 5 ∧ str_len "abc" = 3.
Proof. by vm_compute. Qed.

(** ** Line breaking followed by text cleaning *)

(** The pieces of a split hold no character that the string does not
    hold, and never the separator. *)
Lemma split_on_pieces_free sep d s :
  char_free d s ∨ d = sep → Forall (char_free d) (split_on sep s).
Proof.
  induction s as [|c s IH]; intros Hd.
  - repeat constructor. apply char_free_nil.
  - rewrite split_on_cons.
    assert (Hs : char_free d s ∨ d = sep).
    { destruct Hd as [Hd|H]; [left; by apply char_free_cons in Hd as [_ H]|by right]. }
    specialize (IH Hs).
    destruct (Ascii.eqb_spec c sep) as [->|Hc].
    + constructor; [apply char_free_nil|done].
    + pose proof (split_on_not_nil sep s).
      destruct (split_on sep s) as [|p ps]; [done|].
      apply Forall_cons in IH as [Hp Hps]. constructor; [|done].
      apply char_free_cons. split; [|done].
      destruct Hd as [Hd|Hd]; [by apply char_free_cons in Hd as [Hd _]|by subst d].
Qed.

Lemma tagger_words_one_line tagger_parse text' :
  Forall (char_free (ascii_of_nat 10)) (tagger_words tagger_parse text').
Proof.
  unfold tagger_words. cbn zeta. apply Forall_fmap.
  eapply Forall_impl.
  - apply Forall_take, (split_on_pieces_free _ (ascii_of_nat 10)). by right.
  - intros p Hp. cbn.
    pose proof (split_on_pieces_free (ascii_of_nat 9) (ascii_of_nat 10) p
                  (or_introl Hp)) as Hall.
    destruct (split_on (ascii_of_nat 9) p) as [|w ws];
      [apply char_free_nil|].
    by apply Forall_cons in Hall as [Hw _].
Qed.

Lemma char_free_join_empty c (l : list string) :
  Forall (char_free c) l → char_free c (join "" l).
Proof.
  induction 1 as [|x l Hx _ IH]; [apply char_free_nil|].
  rewrite join_empty_cons. by apply char_free_app.
Qed.

(** Replacing [old] leaves alone a string without the first character of
    [old]. *)
Lemma replace_from_first_free c old new s :
  char_free c s → replace_from (String c old) new 0 s = s.
Proof.
  induction s as [|x s IH]; [done|]. intros [Hx Hs]%char_free_cons.
  cbn [replace_from String.prefix].
  destruct (ascii_dec c x) as [->|_]; [done|]. by rewrite IH.
Qed.

Lemma replace_from_separator c old new a rest :
  char_free c a →
  replace_from (String c old) new 0 (a +:+ String c old +:+ rest)
  = a +:+ new
    +:+ replace_from (String c old) new (String.length old)
          (old +:+ rest).
Proof.
  induction a as [|x a IH].
  - intros _. rewrite !append_nil_l, append_cons. cbn [replace_from].
    assert (String.prefix (String c old) (String c (old +:+ rest)) = true)
      as ->.
    { cbn [String.prefix]. destruct (ascii_dec c c); [|done].
      clear. induction old as [|y old IH]; [by destruct rest|].
      rewrite append_cons. cbn [String.prefix].
      by destruct (ascii_dec y y). }
    cbn [String.length].
    by replace (S (String.length old) - 1)%nat with (String.length old) by lia.
  - intros [Hx Ha]%char_free_cons. rewrite !(append_cons x a).
    cbn [replace_from String.prefix].
    destruct (ascii_dec c x) as [->|_]; [done|]. by rewrite IH.
Qed.

Lemma replace_backslash_n_join (lines : list string) :
  Forall (char_free (ascii_of_nat 92)) lines →
  replace backslash_n "" (join backslash_n lines) = join "" lines.
Proof.
  unfold backslash_n. cbn [replace].
  induction 1 as [|x lines Hx Hall IH]; [done|].
  destruct lines as [|y lines].
  - cbn [join]. by apply replace_from_first_free.
  - change (join (String (ascii_of_nat 92) "n") (x :: y :: lines))
      with (x +:+ String (ascii_of_nat 92) "n"
            +:+ join (String (ascii_of_nat 92) "n") (y :: lines)).
    rewrite replace_from_separator by done.
    cbn [String.length]. rewrite append_nil_l.
    change ("n" +:+ ?r) with (String "n" r). cbn [replace_from].
    rewrite IH. by rewrite (join_empty_cons x).
Qed.

(** X16. The text cleaning of [write_srt_file] undoes the line breaking
    of [_insert_newlines]: when no word of the tagger holds a backslash,
    cleaning the broken text gives the words joined without separator. *)
Theorem cleaned_insert_newlines (tagger_parse : string → string)
    (text' : string) (max_length : Z) :
  Forall (char_free (ascii_of_nat 92)) (tagger_words tagger_parse text') →
  cleaned_text (_insert_newlines tagger_parse text' max_length)
  = join "" (tagger_words tagger_parse text').
Proof.
  intros Hbs.
  pose proof (tagger_words_one_line tagger_parse text') as Hlf.
  destruct (insert_newlines_loop_groups max_length
              (tagger_words tagger_parse text') [])
    as (gs & Hloop & Hcat & _ & _); [constructor|by intros []|].
  cbn [concat app fmap list_fmap] in Hloop, Hcat.
  unfold _insert_newlines, cleaned_text. cbn zeta. rewrite Hloop.
  assert (Hlines : ∀ c, Forall (char_free c) (tagger_words tagger_parse text')
                        → Forall (char_free c) (join "" <$> gs)).
  { intros c Hc. rewrite <- Hcat in Hc. apply Forall_fmap.
    clear -Hc. induction gs as [|g gs IH]; [constructor|].
    cbn [concat] in Hc. apply Forall_app in Hc as [Hg Hgs].
    constructor; [by apply char_free_join_empty|by apply IH]. }
  rewrite replace_backslash_n_join by (by apply Hlines).
  unfold LF at 1. cbn [replace].
  rewrite replace_from_first_free.
  - by rewrite join_empty_concat, Hcat.
  - apply char_free_join_empty. by apply Hlines.
Qed.

Lemma cleaned_insert_newlines_witness :
  cleaned_text
    (_insert_newlines
       (λ _, "ab" +:+ String (ascii_of_nat 9) "x" +:+ LF
             +:+ "cde" +:+ String (ascii_of_nat 9) "y" +:+ LF
             +:+ "fghij" +:+ String (ascii_of_nat 9) "z" +:+ LF
             +:+ "k" +:+ LF +:+ "EOS" +:+ LF) "abcdefghijk" 4)
  = "abcdefghijk".
Proof.
  apply (cleaned_insert_newlines
    (λ _, "ab" +:+ String (ascii_of_nat 9) "x" +:+ LF
          +:+ "cde" +:+ String (ascii_of_nat 9) "y" +:+ LF
          +:+ "fghij" +:+ String (ascii_of_nat 9) "z" +:+ LF
          +:+ "k" +:+ LF +:+ "EOS" +:+ LF) "abcdefghijk" 4).
  unfold char_free. compute_done.
Defined.

(** ** The image list *)

Section image_list.
Context (os_path_join : string → string → string)
  (str_float : float → string).

Local Abbreviation entries := (duration_entries os_path_join str_float).
Local Abbreviation image_path :=
  (λ images_dir i, os_path_join images_dir (format_0d 3 i +:+ ".png")).

Lemma duration_loop_entries images_dir (timeline : list timeline_row) r i
    file_path fp :
  duration_loop os_path_join str_float images_dir
    (enumerate_from i
       ((λ r, (end_time r - start_time r)%float) <$> timeline ++ [r]))
    file_path fp
  = (Some (image_path images_dir (i + Z.of_nat (length timeline))),
     fp +:+ entries images_dir i (timeline ++ [r])).
Proof.
  revert i file_path fp.
  induction timeline as [|r0 timeline IH]; intros i file_path fp.
  - cbn [app fmap list_fmap enumerate_from duration_loop duration_entries
         length Z.of_nat].
    rewrite Z.add_0_r, append_nil_r. unfold duration_entry.
    by rewrite !append_assoc.
  - cbn [app fmap list_fmap enumerate_from duration_loop duration_entries
         length].
    rewrite IH. unfold duration_entry. rewrite !append_assoc.
    by replace (i + 1 + Z.of_nat (length timeline))
      with (i + Z.of_nat (S (length timeline))) by lia.
Qed.

(** X17. The duration file [make_video_from_images] hands to ffmpeg lists
    one entry per row, image [000.png], [001.png], ... with the row's
    [end_time - start_time] as duration, and then names the last image once
    more with duration 0.1.  On a timeline without rows the local
    [file_path] is never bound and the function raises [UnboundLocalError]
    before ffmpeg is called. *)
Theorem make_video_from_images_list images_dir :
  make_video_from_images os_path_join str_float images_dir []
  = inl (UnboundLocalError "file_path")
  ∧ ∀ timeline r,
      make_video_from_images os_path_join str_float images_dir
        (timeline ++ [r])
      = inr (entries images_dir 0 (timeline ++ [r])
             +:+ duration_entry
                   (image_path images_dir (Z.of_nat (length timeline)))
                   "0.1").
Proof.
  split; [done|]. intros timeline r. unfold make_video_from_images.
  cbn zeta. rewrite duration_loop_entries.
  unfold duration_entry. by rewrite append_nil_l, Z.add_0_l, !append_assoc.
Qed.

End image_list.

(** ** The length of the video *)

Section video_length.
Context (_get_audio_length : string → float) (read_text : string → string)
  (_get_hash_prefix : string → string)
  (_insert_newlines : string → Z → string)
  (filename_stem : string → string)
  (max_length : Z) (prev_timeline : option (list timeline_row)).

Local Abbreviation loop :=
  (timeline_loop _get_audio_length read_text _get_hash_prefix
     _insert_newlines filename_stem max_length prev_timeline).

Lemma timeline_loop_last clips clip start rows :
  loop (clips ++ [clip]) start = inr rows →
  ∃ r, last rows = Some r
       ∧ end_time r
         = foldl (λ t (c : string * string),
                    (t + _get_audio_length c.1)%float)
             start (clips ++ [clip]).
Proof.
  revert start rows.
  induction clips as [|[w x] clips IH]; intros start rows H.
  - destruct clip as [w x]. cbn [app] in H.
    apply timeline_loop_cons in H as (r & rows' & -> & Hs & He & Hrest).
    injection Hrest as <-. exists r. split; [done|]. cbn. by rewrite He.
  - cbn [app] in H.
    apply timeline_loop_cons in H as (r & rows' & -> & Hs & He & Hrest).
    apply IH in Hrest as (r' & Hlast & Hend). exists r'. split.
    + destruct rows' as [|r1 rows']; [done|]. by rewrite last_cons, Hlast.
    + rewrite Hend. cbn [app foldl fst]. by rewrite He.
Qed.

(** X18. On the rows [make_timeline_file] returns, when there is at
    least one, the length [make_subtitle_video] cuts the video to (the
    [end_time] of the last row) is the sum of the durations of the paired
    wav files, added from the left in file order starting from 0. *)
Theorem make_subtitle_video_length_sum (wav_files txt_files : list string)
    (rows : list timeline_row) :
  make_timeline_file _get_audio_length read_text _get_hash_prefix
    _insert_newlines filename_stem max_length prev_timeline
    wav_files txt_files = inr rows →
  rows ≠ [] →
  make_subtitle_video_length rows
  = inr (foldl (λ t wav_file, (t + _get_audio_length wav_file)%float)
           0%float (take (length txt_files) wav_files)).
Proof.
  unfold make_timeline_file. intros Hrun Hne.
  assert (Hfold : ∀ (clips : list (string * string)) start,
    foldl (λ t (c : string * string), (t + _get_audio_length c.1)%float)
      start clips
    = foldl (λ t wav_file, (t + _get_audio_length wav_file)%float)
        start (clips.*1)).
  { induction clips as [|c clips IH]; intros start; [done|]. cbn. apply IH. }
  assert (Hfst : (zip wav_files txt_files).*1
                 = take (length txt_files) wav_files).
  { clear. revert txt_files.
    induction wav_files as [|w ws IH]; intros [|x xs]; try done.
    cbn. by rewrite IH. }
  destruct (zip wav_files txt_files) as [|c clips _] eqn:Hz using rev_ind.
  { injection Hrun as <-. done. }
  apply timeline_loop_last in Hrun as (r & Hlast & Hend).
  unfold make_subtitle_video_length. rewrite Hlast. cbn [ret].
  by rewrite Hend, Hfold, Hfst.
Qed.

End video_length.

Lemma make_subtitle_video_length_sum_witness :
  make_subtitle_video_length
    [ {| start_time := 0; end_time := 1.5; character := "zunda";
         hash := "aaf4c6"; text := "hello"; slide := 0; status := "n" |};
      {| start_time := 1.5; end_time := 3.75; character := "metan";
         hash := "aaf4c6"; text := "hello"; slide := 0; status := "n" |} ]
  = inr 3.75%float.
Proof.
  apply (make_subtitle_video_length_sum
    (λ wav_file, if String.eqb wav_file "001.wav" then 1.5 else 2.25)%float
    (λ _, "hello") (λ _, "aaf4c6") (λ raw_text _, raw_text) (λ p, p)
    25 None
    ["001.wav"; "002.wav"]
    ["001_ずんだもん（ノーマル）_001"; "002_四国めたん（ノーマル）_002"]
    _ ltac:(vm_compute; reflexivity)).
  discriminate.
Defined.

(** ** The timeline of zunda/main.py *)

Section main_timeline.
Context (_get_audio_length : string → float) (read_text : string → string)
  (_get_hash_prefix : string → string)
  (_insert_newlines : string → Z → string)
  (filename_stem : string → string)
  (max_length : Z).

Local Abbreviation main_loop :=
  (zunda_main.timeline_loop read_text _get_hash_prefix _insert_newlines
     filename_stem max_length).
Local Abbreviation main_extra :=
  (zunda_main.get_extra_columns _get_hash_prefix _insert_newlines max_length).
Local Abbreviation loop :=
  (timeline_loop _get_audio_length read_text _get_hash_prefix
     _insert_newlines filename_stem max_length).
Local Abbreviation extra :=
  (get_extra_columns _get_hash_prefix _insert_newlines max_length).
Local Abbreviation known_character := (known_character filename_stem).

Lemma main_timeline_loop_empty_text pm good txt_file rest :
  Forall (λ x, read_text x ≠ "" ∧ known_character x) good →
  read_text txt_file = "" →
  main_loop pm (good ++ txt_file :: rest)
  = inl (RuntimeError ("Empty text file: " +:+ txt_file
                       +:+ ". Please remove it and try again.")).
Proof.
  intros Hgood Hempty.
  induction Hgood as [|x good [Hx (c & n & Hc & Hn)] _ IH].
  - cbn [app zunda_main.timeline_loop]. by rewrite Hempty.
  - cbn [app zunda_main.timeline_loop].
    apply String.eqb_neq in Hx as ->.
    unfold list_getitem, dict_getitem. rewrite Hc. cbn [ret]. rewrite Hn.
    cbn [ret]. destruct (main_extra pm (read_text x)) as [[[x' sl] st] ac].
    by rewrite IH.
Qed.

Lemma same_columns_filter (q : list zunda_main.timeline_row)
    (p : list timeline_row) h :
  Forall2 same_columns q p →
  Forall2 same_columns (filter (λ r, zunda_main.hash r = h) q)
    (filter (λ r, hash r = h) p).
Proof.
  induction 1 as [|m r q p Hmr _ IH]; [constructor|].
  rewrite !filter_cons. destruct Hmr as (Hc & Hh & Hrest).
  rewrite Hh. destruct (decide (hash r = h)); [|done].
  constructor; [exact (conj Hc (conj Hh Hrest))|done].
Qed.

Lemma same_extra pm pe raw_text :
  same_timeline pm pe →
  ∃ ac, main_extra pm raw_text = (extra pe raw_text, ac)
        ∧ (pm = None → ac = "").
Proof.
  unfold zunda_main.get_extra_columns, get_extra_columns.
  destruct pm as [q|], pe as [p|]; try done; [|by eexists].
  intros Hqp.
  pose proof (same_columns_filter q p (_get_hash_prefix raw_text) Hqp) as Hf.
  destruct Hf as [|m r q' p' (_ & _ & -> & -> & ->) _].
  - by eexists.
  - by eexists.
Qed.

Lemma main_timeline_loop_engine pm pe clips start :
  same_timeline pm pe →
  Forall (λ clip : string * string, read_text clip.2 ≠ "") clips →
  match loop pe clips start with
  | inl e => main_loop pm (clips.*2) = inl (Builtin e)
  | inr rows =>
      ∃ lines, main_loop pm (clips.*2) = inr lines
               ∧ Forall2 same_columns lines rows
               ∧ (pm = None → Forall (λ m, zunda_main.action m = "") lines)
  end.
Proof.
  intros Hprev Hall. revert start.
  induction Hall as [|[w x] clips Hx _ IH]; intros start.
  - cbn. eexists. by split_and!.
  - cbn [timeline_loop fmap list_fmap snd zunda_main.timeline_loop].
    cbn [snd] in Hx. apply String.eqb_neq in Hx as ->.
    destruct (list_getitem (split_on "_" (filename_stem x)) 1) as [e|c];
      [done|]. cbn [bind].
    destruct (dict_getitem character_dict c) as [e|n]; [done|]. cbn [bind].
    destruct (same_extra pm pe (read_text x) Hprev) as (ac & -> & Hac).
    destruct (extra pe (read_text x)) as [[x' sl] st].
    specialize (IH (start + _get_audio_length w)%float).
    destruct (loop pe clips _) as [e|rows].
    + by rewrite IH.
    + destruct IH as (lines & -> & Hsame & Hact). cbn [bind ret].
      eexists. split; [done|]. split.
      * constructor; [by split_and!|done].
      * intros Hpm. constructor; [by apply Hac|by apply Hact].
Qed.

(** X19. [make_timeline_file] of [zunda/main.py] agrees with that of
    [zunda/engine.py]: when no text file is empty, there are at least as
    many wav files as text files, and the previous timelines are both
    absent or row by row the same on character, hash, text, slide and
    status, then either both raise the same [IndexError] or [KeyError], or
    both return rows that are the same on these five columns.  Without a
    previous timeline every row of [main.py] has the empty action. *)
Theorem main_make_timeline_file_engine
    (pm : option (list zunda_main.timeline_row))
    (pe : option (list timeline_row)) (wav_files txt_files : list string) :
  same_timeline pm pe →
  (length txt_files ≤ length wav_files)%nat →
  Forall (λ x, read_text x ≠ "") txt_files →
  match make_timeline_file _get_audio_length read_text _get_hash_prefix
          _insert_newlines filename_stem max_length pe wav_files txt_files
  with
  | inl e =>
      zunda_main.make_timeline_file read_text _get_hash_prefix
        _insert_newlines filename_stem max_length pm txt_files
      = inl (Builtin e)
  | inr rows =>
      ∃ lines,
        zunda_main.make_timeline_file read_text _get_hash_prefix
          _insert_newlines filename_stem max_length pm txt_files
        = inr lines
        ∧ Forall2 same_columns lines rows
        ∧ (pm = None → Forall (λ m, zunda_main.action m = "") lines)
  end.
Proof.
  intros Hprev Hlen Hall.
  unfold make_timeline_file, zunda_main.make_timeline_file.
  assert (Hsnd : (zip wav_files txt_files).*2 = txt_files).
  { by apply snd_zip. }
  pose proof (main_timeline_loop_engine pm pe (zip wav_files txt_files)
                0%float Hprev) as H.
  rewrite Hsnd in H. apply H. clear H.
  apply Forall_forall. intros [w x] [i Hi]%list_elem_of_lookup.
  apply lookup_zip_with_Some in Hi as (w' & x' & [= <- <-] & _ & Hx).
  rewrite Forall_forall in Hall. apply Hall, list_elem_of_lookup. eauto.
Qed.

(** X20. [make_timeline_file] of [zunda/main.py] raises [RuntimeError]
    naming the first empty text file, when the files before it are not
    empty and have names that yield a known character; the name of the
    empty file itself is not looked at. *)
Theorem main_make_timeline_file_empty_text
    (pm : option (list zunda_main.timeline_row))
    (good : list string) (txt_file : string) (rest : list string) :
  Forall (λ x, read_text x ≠ "" ∧ known_character x) good →
  read_text txt_file = "" →
  zunda_main.make_timeline_file read_text _get_hash_prefix _insert_newlines
    filename_stem max_length pm (good ++ txt_file :: rest)
  = inl (RuntimeError ("Empty text file: " +:+ txt_file
                       +:+ ". Please remove it and try again.")).
Proof. apply main_timeline_loop_empty_text. Qed.

End main_timeline.

Lemma main_make_timeline_file_empty_text_witness :
  zunda_main.make_timeline_file
    (λ p, if String.eqb p "002" then "" else "hello") (λ _, "aaf4c6")
    (λ raw_text _, raw_text) (λ p, p) 25 None
    ["001_ずんだもん（ノーマル）_001"; "002"; "003"]
  = inl (RuntimeError "Empty text file: 002. Please remove it and try again.").
Proof.
  apply (main_make_timeline_file_empty_text
    (λ p, if String.eqb p "002" then "" else "hello") (λ _, "aaf4c6")
    (λ raw_text _, raw_text) (λ p, p) 25 None
    ["001_ずんだもん（ノーマル）_001"] "002" ["003"]).
  - repeat constructor; [discriminate|].
    eexists _, _; split; vm_compute; reflexivity.
  - reflexivity.
Defined.

Lemma main_make_timeline_file_engine_witness :
  ∃ lines,
    zunda_main.make_timeline_file (λ _, "hello") (λ _, "aaf4c6")
      (λ raw_text _, raw_text) (λ p, p) 25 None
      ["001_ずんだもん（ノーマル）_001"]
    = inr lines
    ∧ Forall2 same_columns lines
        [ {| start_time := 0; end_time := 1.5; character := "zunda";
             hash := "aaf4c6"; text := "hello"; slide := 0; status := "n" |} ]
    ∧ (@None (list zunda_main.timeline_row) = None →
       Forall (λ m, zunda_main.action m = "") lines).
Proof.
  apply (main_make_timeline_file_engine (λ _, 1.5%float) (λ _, "hello")
           (λ _, "aaf4c6") (λ raw_text _, raw_text) (λ p, p) 25 None None
           ["001.wav"] ["001_ずんだもん（ノーマル）_001"]).
  - exact I.
  - cbn. lia.
  - repeat constructor. discriminate.
Defined.

(** ** The lines of the SRT file of zunda *)

Lemma make_srt_loop_rows (tl : list timeline_row) i srt :
  Forall (λ r, is_time (start_time r) ∧ is_time (end_time r)) tl →
  ∃ content,
    make_srt_loop (enumerate_from i tl) srt
    = {| written := Some content; raised := None |}
    ∧ count_char (ascii_of_nat 10) content
      = (count_char (ascii_of_nat 10) srt + 4 * length tl
         + sum_list ((λ r, count_char (ascii_of_nat 10) (text r)) <$> tl))%nat
    ∧ ∀ rest,
        read_csv.make_srt_loop
          (enumerate_from i ((str_row <$> tl) ++ rest)) srt
        = read_csv.make_srt_loop
            (enumerate_from (i + Z.of_nat (length tl)) rest) content.
Proof.
  intros Hall. revert i srt.
  induction Hall as [|r tl [H0 H1] _ IH]; intros i srt.
  - exists srt. split_and!; [done|cbn; lia|].
    intros rest. cbn [fmap list_fmap app length Z.of_nat].
    by rewrite Z.add_0_r.
  - cbn [enumerate_from make_srt_loop].
    rewrite (srt_time_line_is_time _ _ H0 H1).
    destruct (IH (i + 1)
                (((srt +:+ str_int (i + 1) +:+ LF)
                  +:+ srt_timestamp (start_time r) +:+ " --> "
                  +:+ srt_timestamp (end_time r) +:+ LF)
                 +:+ text r +:+ LF +:+ LF))
      as (content & -> & Hcount & Hread).
    exists content. split_and!; [done| |].
    + rewrite Hcount. rewrite !count_char_app.
      rewrite (count_char_free _ (str_int _))
        by (apply str_int_char_free; [apply newline_not_digit|done]).
      rewrite !(count_char_free _ (srt_timestamp _))
        by (by apply srt_timestamp_one_line).
      cbn [fmap list_fmap sum_list sum_list_with length].
      change (count_char (ascii_of_nat 10) LF) with 1%nat.
      change (count_char (ascii_of_nat 10) " --> ") with 0%nat.
      unfold id. lia.
    + intros rest.
      cbn [fmap list_fmap app enumerate_from read_csv.make_srt_loop
           str_row read_csv.start_time read_csv.end_time read_csv.text
           read_csv.add_str].
      rewrite (srt_time_line_is_time _ _ H0 H1), Hread.
      by replace (i + 1 + Z.of_nat (length tl))
        with (i + Z.of_nat (length (r :: tl))) by (cbn [length]; lia).
Qed.

(** X21. [make_srt_file] of zunda reads its rows with [pandas.read_csv]
    and writes each text as it is.  For [n] rows with finite non-negative
    times whose text cells are read as strings, its file, split at
    newlines, has [4 n + 1] lines plus one for every newline in the texts;
    so, unlike the file of [write_srt_file], it keeps the four-line block
    structure only when no text holds a newline.  If the next row has a
    text cell that was read as a number (a column of digits, or an empty
    cell), the function raises [TypeError] after it has written the index
    and the time line of that row. *)
Theorem make_srt_file_line_count (tl : list timeline_row) :
  Forall (λ r, is_time (start_time r) ∧ is_time (end_time r)) tl →
  ∃ content,
    read_csv.make_srt_file (str_row <$> tl)
    = {| read_csv.written := Some content; read_csv.raised := None |}
    ∧ make_srt_file tl = {| written := Some content; raised := None |}
    ∧ length (split_on (ascii_of_nat 10) content)
      = (4 * length tl + 1
         + sum_list ((λ r, count_char (ascii_of_nat 10) (text r)) <$> tl))%nat
    ∧ ∀ bad rest x,
        is_time (read_csv.start_time bad) →
        is_time (read_csv.end_time bad) →
        read_csv.text bad = read_csv.Num x →
        read_csv.make_srt_file ((str_row <$> tl) ++ bad :: rest)
        = {| read_csv.written :=
               Some (content +:+ str_int (Z.of_nat (length tl) + 1) +:+ LF
                     +:+ srt_timestamp (read_csv.start_time bad) +:+ " --> "
                     +:+ srt_timestamp (read_csv.end_time bad) +:+ LF);
             read_csv.raised := Some TypeError |}.
Proof.
  intros Hall. unfold make_srt_file, read_csv.make_srt_file.
  destruct (make_srt_loop_rows tl 0 "" Hall)
    as (content & -> & Hcount & Hread).
  exists content. split_and!.
  - rewrite <- (app_nil_r (str_row <$> tl)). by rewrite Hread.
  - done.
  - rewrite length_split_on, Hcount. cbn [count_char]. lia.
  - intros bad rest x H0 H1 Hx. rewrite Hread.
    cbn [enumerate_from read_csv.make_srt_loop].
    rewrite (srt_time_line_is_time _ _ H0 H1), Hx.
    cbn [read_csv.add_str]. rewrite Z.add_0_l. by rewrite !append_assoc.
Qed.

Lemma make_srt_file_line_count_witness :
  ∃ content,
    read_csv.make_srt_file
      [ {| read_csv.start_time := 0; read_csv.end_time := 1.5;
           read_csv.text := read_csv.Str ("a" +:+ LF +:+ LF +:+ "b") |} ]
    = {| read_csv.written := Some content; read_csv.raised := None |}
    ∧ length (split_on (ascii_of_nat 10) content) = 7%nat.
Proof.
  destruct (make_srt_file_line_count
    [ {| start_time := 0; end_time := 1.5; character := "zunda";
         hash := "0a1b2c"; text := "a" +:+ LF +:+ LF +:+ "b";
         slide := 0; status := "n" |} ]
    ltac:(repeat constructor; vm_compute; reflexivity))
    as (content & Hread & _ & Hlines & _).
  exists content. split; [exact Hread|exact Hlines].
Defined.

Example make_srt_file_number_text :
  read_csv.make_srt_file
    [ {| read_csv.start_time := 0; read_csv.end_time := 1.5;
         read_csv.text := read_csv.Num (Int 2024) |} ]
  = {| read_csv.written :=
         Some ("1" +:+ LF +:+ "00:00:00,000 --> 00:00:01,500" +:+ LF);
       read_csv.raised := Some TypeError |}.
Proof. vm_compute. reflexivity. Qed.
